(** * mysql-sync: change capture, transport and apply pipeline

    A shallow embedding of the TypeScript daemon (DatabaseManager,
    MqttManager, TransformerManager, HardDiskQueue, the message schemas and
    the event hub) together with the properties of its pipeline.

    The development covers the apply stage ([remoteChange], [saveEntity],
    [setStatus]), the transformer stage, the bus gateway ([publish], the
    presence tick, [receivedMessage] with the message schemas) and the
    durable queue. The database setup and the polling of [table_changes]
    are not part of it.

    Conventions of the embedding:
    - JavaScript numbers that carry epoch milliseconds are integers ([Z]);
    - a JavaScript object used as a dictionary is a [gmap string _];
    - a parsed JSON document is a [JSON] tree, an object keeps its fields in
      insertion order ([list (string * JSON)]), [None] stands for
      [undefined];
    - asynchronous methods are computations in the monad [M], which threads
      the state of the whole node ([World]) and propagates exceptions. *)

From Stdlib Require Import ZArith String Ascii List Bool Lia.
From stdpp Require Import base option list gmap strings pretty.

Open Scope string_scope.
Open Scope list_scope.
Open Scope Z_scope.

#[local] Set Warnings "-register-all".

(** ** JSON values *)

Inductive JSON : Type :=
| JNull
| JBool (b : bool)
| JNumber (n : Z)
| JString (s : string)
| JArray (items : list JSON)
| JObject (fields : list (string * JSON)).

(** [SqlEntity]: [{ [key: string]: any }], a row as a JavaScript object. *)
Abbreviation SqlEntity := (list (string * JSON)) (only parsing).

(** Property access [o[key]]; [None] is [undefined]. *)
Fixpoint get_property (key : string) (fields : list (string * JSON)) : option JSON :=
  match fields with
  | [] => None
  | (k, v) :: rest => if bool_decide (k = key) then Some v else get_property key rest
  end.

(** An object literal drops the fields whose value is [undefined] once it is
    serialised by [JSON.stringify]. *)
Definition field (key : string) (v : option JSON) : list (string * JSON) :=
  match v with
  | Some x => [(key, x)]
  | None => []
  end.

Definition jstring (s : option string) : option JSON := JString <$> s.
Definition jnumber (n : option Z) : option JSON := JNumber <$> n.
Definition jentity (e : option SqlEntity) : JSON :=
  match e with
  | Some fields => JObject fields
  | None => JNull
  end.

(** Template-literal rendering of a possibly undefined string. *)
Definition template (s : option string) : string := default "undefined" s.

(** The double-quote character, as a string. *)
Definition quote : string := String (ascii_of_nat 34) EmptyString.

(** A string is falsy exactly when it is empty. *)
Definition truthy (s : string) : bool := negb (bool_decide (s = EmptyString)).

(** ** Message schemas (configuration-scheme.ts) and their validation

    The schemas of the bus messages are objects whose properties are either
    a [$ref] into [definitions] or an inline schema with no sub-properties.
    [validateJson] follows the [jsonschema] validator on the keywords these
    schemas use: [type], [pattern], [minLength], [maxLength], [minimum],
    [enum], [properties], [required], [additionalProperties]. A keyword
    applies only to instances of its own kind (a [minimum] says nothing of a
    string), and a property that is absent is not validated. *)

Inductive JType := TString | TNumber | TObject | TNull | TArray | TBoolean.

Record Schema := {
  sc_type : list JType;
  sc_pattern : option (string -> bool);
  sc_minLength : option nat;
  sc_maxLength : option nat;
  sc_minimum : option Z;
  sc_enum : option (list string)
}.

Inductive DefinitionName := def_clientName | def_tableName | def_date | def_nonEmptyString.

Inductive PropertySchema :=
| Ref (name : DefinitionName)
| Inline (s : Schema).

Record ObjectSchema := {
  properties : list (string * PropertySchema);
  required : list string;
  additionalProperties : bool
}.

Definition in_range (lo hi : nat) (a : ascii) : bool :=
  (lo <=? nat_of_ascii a)%nat && (nat_of_ascii a <=? hi)%nat.

(** The character class [[a-zA-Z0-9-_]]. *)
Definition client_name_char (a : ascii) : bool :=
  in_range 97 122 a || in_range 65 90 a || in_range 48 57 a
  || bool_decide (a = "-"%char) || bool_decide (a = "_"%char).

(** The pattern [^[a-zA-Z0-9-_]{2,32}$]. *)
Definition client_name_pattern (s : string) : bool :=
  forallb client_name_char (list_ascii_of_string s)
  && (2 <=? String.length s)%nat && (String.length s <=? 32)%nat.

(** [definitions]; [loadTime] is the value [new Date().getTime()] had when
    the module was evaluated (the [minimum] of [date]). The entries that
    only the configuration-file schema refers to ([host], [port],
    [stringOrStringArray], [stringOrObjectArray]) are left out. *)
Definition definitions (loadTime : Z) (name : DefinitionName) : Schema :=
  match name with
  | def_clientName =>
      {| sc_type := [TString]; sc_pattern := Some client_name_pattern; sc_minLength := None;
         sc_maxLength := None; sc_minimum := None; sc_enum := None |}
  | def_tableName =>
      {| sc_type := [TString]; sc_pattern := None; sc_minLength := Some 1%nat;
         sc_maxLength := Some 128%nat; sc_minimum := None; sc_enum := None |}
  | def_date =>
      {| sc_type := [TNumber]; sc_pattern := None; sc_minLength := None;
         sc_maxLength := None; sc_minimum := Some loadTime; sc_enum := None |}
  | def_nonEmptyString =>
      {| sc_type := [TString]; sc_pattern := None; sc_minLength := Some 1%nat;
         sc_maxLength := None; sc_minimum := None; sc_enum := None |}
  end.

Definition remoteChangeScheme : ObjectSchema :=
  {| properties :=
       [("sender", Ref def_clientName);
        ("table", Ref def_tableName);
        ("id", Ref def_nonEmptyString);
        ("date", Ref def_date);
        ("entity", Inline {| sc_type := [TObject; TNull]; sc_pattern := None;
                             sc_minLength := None; sc_maxLength := None;
                             sc_minimum := None; sc_enum := None |})];
     required := ["sender"; "table"; "entity"];
     additionalProperties := false |}.

Definition infoMessageScheme : ObjectSchema :=
  {| properties :=
       [("sender", Ref def_clientName);
        ("message", Inline {| sc_type := [TString]; sc_pattern := None;
                              sc_minLength := None; sc_maxLength := None;
                              sc_minimum := None;
                              sc_enum := Some ["connected"; "data_received"; "error";
                                               "connection_lost"] |});
        ("args", Inline {| sc_type := [TObject]; sc_pattern := None;
                           sc_minLength := None; sc_maxLength := None;
                           sc_minimum := None; sc_enum := None |})];
     required := ["sender"; "message"; "args"];
     additionalProperties := false |}.

Definition connectedInfoMessageArgsScheme : ObjectSchema :=
  {| properties := [("until", Ref def_date)];
     required := ["until"];
     additionalProperties := false |}.

Definition dataReceivedInfoMessageArgsScheme : ObjectSchema :=
  {| properties :=
       [("table", Ref def_tableName);
        ("id", Ref def_nonEmptyString);
        ("date", Ref def_date)];
     required := ["table"; "id"; "date"];
     additionalProperties := false |}.

Definition errorInfoMessageArgsScheme : ObjectSchema :=
  {| properties :=
       [("table", Ref def_tableName);
        ("id", Ref def_nonEmptyString);
        ("date", Ref def_date);
        ("message", Ref def_nonEmptyString)];
     required := [];
     additionalProperties := false |}.

Definition has_type (v : JSON) (t : JType) : bool :=
  match t, v with
  | TString, JString _ => true
  | TNumber, JNumber _ => true
  | TObject, JObject _ => true
  | TNull, JNull => true
  | TArray, JArray _ => true
  | TBoolean, JBool _ => true
  | _, _ => false
  end.

Definition check {A : Type} (bound : option A) (test : A -> bool) : bool :=
  match bound with
  | Some b => test b
  | None => true
  end.

Definition validate_type (s : Schema) (v : JSON) : bool :=
  match sc_type s with
  | [] => true
  | types => existsb (has_type v) types
  end.

Definition validate_enum (s : Schema) (v : JSON) : bool :=
  check (sc_enum s) (fun allowed =>
    match v with
    | JString str => existsb (fun a => bool_decide (a = str)) allowed
    | _ => false
    end).

Definition validate_string (s : Schema) (v : JSON) : bool :=
  match v with
  | JString str =>
      check (sc_pattern s) (fun matches => matches str)
      && check (sc_minLength s) (fun n => (n <=? String.length str)%nat)
      && check (sc_maxLength s) (fun n => (String.length str <=? n)%nat)
  | _ => true
  end.

Definition validate_number (s : Schema) (v : JSON) : bool :=
  match v with
  | JNumber n => check (sc_minimum s) (fun m => (m <=? n)%Z)
  | _ => true
  end.

Definition validate_schema (s : Schema) (v : JSON) : bool :=
  validate_type s v && validate_enum s v && validate_string s v && validate_number s v.

Definition validate_property (loadTime : Z) (p : PropertySchema) (v : JSON) : bool :=
  match p with
  | Ref name => validate_schema (definitions loadTime name) v
  | Inline s => validate_schema s v
  end.

Fixpoint schema_of (key : string) (props : list (string * PropertySchema)) : option PropertySchema :=
  match props with
  | [] => None
  | (k, p) :: rest => if bool_decide (k = key) then Some p else schema_of key rest
  end.

(** [validateJson(entity, scheme)] (utils/functions.ts): [true] when the
    validator reports no error. Every message schema has [type: 'object']. *)
Definition validateJson (loadTime : Z) (entity : JSON) (scheme : ObjectSchema) : bool :=
  match entity with
  | JObject fields =>
      forallb (fun name => bool_decide (is_Some (get_property name fields))) (required scheme)
      && forallb (fun kv =>
           match schema_of (fst kv) (properties scheme) with
           | Some p => validate_property loadTime p (snd kv)
           | None => additionalProperties scheme
           end) fields
  | _ => false
  end.

(** ** The durable queue (HardDiskQueue, utils/mqtt-hard-disk-store.ts)

    A queue is one file holding a JSON array. The file is [None] while it
    does not exist and [Some q] once it has been written. *)

Module HardDiskQueue.
Section Queue.
Context {TYPE : Type}.

Definition readQueue (file : option (list TYPE)) : list TYPE :=
  match file with
  | Some queue => queue
  | None => []
  end.

Definition writeQueue (queue : list TYPE) : option (list TYPE) := Some queue.

Definition push (entity : TYPE) (file : option (list TYPE)) : option (list TYPE) :=
  let queue := readQueue file in
  writeQueue (queue ++ [entity]).

(** [poll] returns [null] ([None]) without writing on an empty queue. *)
Definition poll (file : option (list TYPE)) : option TYPE * option (list TYPE) :=
  match readQueue file with
  | [] => (None, file)
  | entity :: queue => (Some entity, writeQueue queue)
  end.

(** [deleteItems.indexOf(entity) === -1] keeps the items the predicate
    rejects (items are compared by identity, each is its own object). *)
Definition delete (predicate : TYPE -> bool) (file : option (list TYPE))
  : list TYPE * option (list TYPE) :=
  let queue := readQueue file in
  (List.filter predicate queue, writeQueue (List.filter (fun e => negb (predicate e)) queue)).

Definition find (predicate : TYPE -> bool) (file : option (list TYPE)) : list TYPE :=
  List.filter predicate (readQueue file).

Definition getAllSync (file : option (list TYPE)) : list TYPE := readQueue file.

(** [n] successive calls of [poll], with what each returned. *)
Fixpoint polls (n : nat) (file : option (list TYPE)) : list (option TYPE) * option (list TYPE) :=
  match n with
  | O => ([], file)
  | S k =>
      let (item, file1) := poll file in
      let (items, file2) := polls k file1 in
      (item :: items, file2)
  end.

(** Successive calls of [push], first item first. *)
Definition pushes (entities : list TYPE) (file : option (list TYPE)) : option (list TYPE) :=
  fold_left (fun f e => push e f) entities file.
End Queue.
End HardDiskQueue.

(** ** Records exchanged between the components (application.ts)

    [id] and [date] are typed [string] and [number] in the source, but
    [remoteChangeScheme] does not require them and [errorInfoMessageArgsScheme]
    requires nothing, so at run time they may be [undefined]. *)

Record DatabaseChangeInfo := {
  info_sender : string;
  info_table : string;
  info_id : option string;
  info_date : option Z
}.

Record DatabaseChange := {
  change_sender : string;
  change_table : string;
  change_id : option string;
  change_date : option Z;
  change_entity : option SqlEntity   (* null when the row has been deleted *)
}.

Record DatabaseChangeError := {
  error_sender : string;
  error_table : string;
  error_id : option string;
  error_date : option Z;
  error_message : string
}.

Inductive Status := successful | pending | error_status.

Record DatabaseStatusChange := {
  status_sender : string;
  status_table : option string;
  status_id : option string;
  status_date : option Z;
  status_status : Status;
  status_message : option string
}.

(** [QueueItem] (mqtt.ts): a publication deferred until the peer is back. *)
Record QueueItem := {
  item_topic : string;
  item_payload : JSON
}.

(** The events of the hub ([ApplicationEvents]) that the pipeline emits. *)
Inductive Event :=
| local_change (table : string) (id : option string) (entity : option SqlEntity)
    (except : option string)
| local_save_change (data : DatabaseChange)
| local_save_successful (data : DatabaseChangeInfo)
| local_save_failed (data : DatabaseChangeError)
| remote_change (data : DatabaseChange)
| remote_send_change (table : string) (id : option string) (entity : option SqlEntity)
    (remote : string)
| remote_status_change (data : DatabaseStatusChange).

(** ** Transformers (transformer.ts)

    A transformer receives the context and returns the entity, a falsy
    value, or a promise of the entity. Following the contract of the
    transformer plug-ins it is a pure function of [entity], [source] and
    [target]; the [database] and [mqtt] handles of the context are not part
    of the model. [own_then_catch] records whether the thenable has [then]
    and [catch] as own properties (the test [transformEntity] makes). *)

Record TransformerContext := {
  ctx_entity : option SqlEntity;
  ctx_source : string;
  ctx_target : string
}.

Inductive TransformerResult :=
| Plain (value : option SqlEntity)
| Promise (own_then_catch : bool) (value : option SqlEntity).

Definition Transformer : Type := TransformerContext -> TransformerResult.

(** What [require(filePath)] yields. *)
Inductive ModuleExports :=
| ExportsFunction (transformer : Transformer)
| ExportsOther.

(** ** Configuration and environment of one node *)

Record Config := {
  clientName : string;
  (** milliseconds; the schema admits every number from 1 on, this
      development covers the whole numbers *)
  checkInterval : Z;
  syncTables : list string;
  receiveTables : list string;
  remoteClients : list string;
  transformerDirectory : option string;
  (** the files of the transformer directory, by path *)
  transformerFiles : gmap string ModuleExports;
  (** the instant at which configuration-scheme.ts was evaluated *)
  schemeLoadTime : Z;
  (** the [to-camel-case] package and [crypto]'s md5 hex digest *)
  toCamelCase : string -> string;
  md5 : string -> string;
  (** the host: [new Date().getTimezoneOffset()], taken as fixed while the
      node runs, and [new Date(text).getTime()], [None] being [NaN] *)
  timezoneOffset : Z;
  date_parse : string -> option Z;
  (** the server: the text a [SELECT] returns ([dateStrings]) for the
      [DATETIME] that was written from [new Date(instant)] *)
  datetime_text : Z -> string
}.

(** [bidirectionalTable] as [Application.run] computes it. *)
Definition bidirectionalTable (cfg : Config) : list string :=
  List.filter (fun t => bool_decide (t ∈ syncTables cfg)) (receiveTables cfg).

(** ** The MySQL server

    A table has the columns with [Key = 'PRI'] and its rows. A row of
    [table_changes] keeps [id], [table_name] and [primary_key]; its [date]
    only orders the polling of local changes, which is outside this
    development. [db_triggers] lists the tables that carry the three
    [mysqlSync] triggers. Dates of [sync_status] are kept as the epoch
    milliseconds that were written.

    [db_state] is the getter [connected] of [MysqlDatabaseConnection]: the
    driver holds a connection whose state is ['connected'] or
    ['authenticated']. [db_alive] tells whether the server answers the probe
    [SELECT 'connected']. [testConnection()] asks for both, which is
    [db_connected]. *)

Record Table := {
  primary_columns : list string;
  rows : list SqlEntity
}.

Record TableChangeRow := {
  tc_id : Z;
  table_name : string;
  primary_key : string
}.

Record SyncStatusRow := {
  ss_table_name : string;
  ss_primary_key : string;
  ss_remote : string;
  ss_date : Z;
  ss_status : Status;
  ss_message : option string
}.

Record Database := {
  db_state : bool;
  db_alive : bool;
  db_tables : gmap string Table;
  db_triggers : list string;
  table_changes : list TableChangeRow;
  auto_increment : Z;
  sync_status : gmap string SyncStatusRow
}.

Definition db_connected (db : Database) : bool := db_state db && db_alive db.

(** ** The state of the node *)

Record World := {
  (** the wall clock: the value of the [n]-th call of [new Date().getTime()] *)
  clock : nat -> Z;
  reads : nat;
  (** the MySQL server behind [DatabaseConnection] *)
  database : Database;
  (** DatabaseManager *)
  cachedPrimaryKeys : gmap string string;
  (** TransformerManager *)
  cachedTransformer : gmap string (option Transformer);
  (** MqttManager *)
  connectedClients : gmap string Z;
  nextActiveUpdate : option Z;
  remoteClientQueues : gset string;
  (** the bus session: [connection.connected] and what was published *)
  mqtt_connected : bool;
  published : list (string * JSON);
  (** the queue directory: [database.json] and the [remote-<peer>.json] files *)
  database_queue : option (list DatabaseChange);
  remote_queues : gmap string (list QueueItem);
  (** the emissions on the event hub, oldest first *)
  events : list Event;
  (** a record for the proofs only: each emission with the database it
      was made on; no method reads it *)
  journal : list (Event * Database)
}.

Definition set_reads (n : nat) (w : World) : World :=
  Build_World (clock w) n (database w) (cachedPrimaryKeys w) (cachedTransformer w)
    (connectedClients w) (nextActiveUpdate w) (remoteClientQueues w) (mqtt_connected w)
    (published w) (database_queue w) (remote_queues w) (events w) (journal w).

Definition set_database (db : Database) (w : World) : World :=
  Build_World (clock w) (reads w) db (cachedPrimaryKeys w) (cachedTransformer w)
    (connectedClients w) (nextActiveUpdate w) (remoteClientQueues w) (mqtt_connected w)
    (published w) (database_queue w) (remote_queues w) (events w) (journal w).

Definition set_cachedPrimaryKeys (c : gmap string string) (w : World) : World :=
  Build_World (clock w) (reads w) (database w) c (cachedTransformer w)
    (connectedClients w) (nextActiveUpdate w) (remoteClientQueues w) (mqtt_connected w)
    (published w) (database_queue w) (remote_queues w) (events w) (journal w).

Definition set_cachedTransformer (c : gmap string (option Transformer)) (w : World) : World :=
  Build_World (clock w) (reads w) (database w) (cachedPrimaryKeys w) c
    (connectedClients w) (nextActiveUpdate w) (remoteClientQueues w) (mqtt_connected w)
    (published w) (database_queue w) (remote_queues w) (events w) (journal w).

Definition set_connectedClients (c : gmap string Z) (w : World) : World :=
  Build_World (clock w) (reads w) (database w) (cachedPrimaryKeys w) (cachedTransformer w)
    c (nextActiveUpdate w) (remoteClientQueues w) (mqtt_connected w)
    (published w) (database_queue w) (remote_queues w) (events w) (journal w).

Definition set_nextActiveUpdate (t : option Z) (w : World) : World :=
  Build_World (clock w) (reads w) (database w) (cachedPrimaryKeys w) (cachedTransformer w)
    (connectedClients w) t (remoteClientQueues w) (mqtt_connected w)
    (published w) (database_queue w) (remote_queues w) (events w) (journal w).

Definition set_remoteClientQueues (q : gset string) (w : World) : World :=
  Build_World (clock w) (reads w) (database w) (cachedPrimaryKeys w) (cachedTransformer w)
    (connectedClients w) (nextActiveUpdate w) q (mqtt_connected w)
    (published w) (database_queue w) (remote_queues w) (events w) (journal w).

Definition set_published (p : list (string * JSON)) (w : World) : World :=
  Build_World (clock w) (reads w) (database w) (cachedPrimaryKeys w) (cachedTransformer w)
    (connectedClients w) (nextActiveUpdate w) (remoteClientQueues w) (mqtt_connected w)
    p (database_queue w) (remote_queues w) (events w) (journal w).

Definition set_database_queue (q : option (list DatabaseChange)) (w : World) : World :=
  Build_World (clock w) (reads w) (database w) (cachedPrimaryKeys w) (cachedTransformer w)
    (connectedClients w) (nextActiveUpdate w) (remoteClientQueues w) (mqtt_connected w)
    (published w) q (remote_queues w) (events w) (journal w).

Definition set_remote_queues (q : gmap string (list QueueItem)) (w : World) : World :=
  Build_World (clock w) (reads w) (database w) (cachedPrimaryKeys w) (cachedTransformer w)
    (connectedClients w) (nextActiveUpdate w) (remoteClientQueues w) (mqtt_connected w)
    (published w) (database_queue w) q (events w) (journal w).

Definition set_events (e : list Event) (w : World) : World :=
  Build_World (clock w) (reads w) (database w) (cachedPrimaryKeys w) (cachedTransformer w)
    (connectedClients w) (nextActiveUpdate w) (remoteClientQueues w) (mqtt_connected w)
    (published w) (database_queue w) (remote_queues w) e (journal w).

Definition set_journal (j : list (Event * Database)) (w : World) : World :=
  Build_World (clock w) (reads w) (database w) (cachedPrimaryKeys w) (cachedTransformer w)
    (connectedClients w) (nextActiveUpdate w) (remoteClientQueues w) (mqtt_connected w)
    (published w) (database_queue w) (remote_queues w) (events w) j.

(** ** The monad of asynchronous methods

    A method runs on the state of the node and either returns, or throws
    (a rejected promise) with the state it reached. [OutOfFuel] is reserved
    for a bounded loop that did not finish within its bound. *)

Inductive Outcome (A : Type) : Type :=
| Returned (a : A)
| Thrown (message : string)
| OutOfFuel.
Arguments Returned {A} a.
Arguments Thrown {A} message.
Arguments OutOfFuel {A}.

Definition M (A : Type) : Type := World -> Outcome A * World.

Definition ret {A : Type} (a : A) : M A := fun w => (Returned a, w).

Definition bind {A B : Type} (m : M A) (k : A -> M B) : M B :=
  fun w =>
    match m w with
    | (Returned a, w1) => k a w1
    | (Thrown message, w1) => (Thrown message, w1)
    | (OutOfFuel, w1) => (OutOfFuel, w1)
    end.

Definition throw {A : Type} (message : string) : M A := fun w => (Thrown message, w).

(** [try { body } catch (err) { handler(err.message) }] *)
Definition try_catch {A : Type} (body : M A) (handler : string -> M A) : M A :=
  fun w =>
    match body w with
    | (Thrown message, w1) => handler message w1
    | other => other
    end.

Definition gets {A : Type} (f : World -> A) : M A := fun w => (Returned (f w), w).
Definition modify (f : World -> World) : M unit := fun w => (Returned tt, f w).

Declare Scope async_scope.
Delimit Scope async_scope with async.
Notation "'let*' x ':=' m 'in' k" := (bind m (fun x => k))
  (at level 10, x name, m at level 100, k at level 200) : async_scope.
Notation "m ';;;' k" := (bind m (fun _ => k))
  (at level 100, k at level 200, right associativity) : async_scope.
Open Scope async_scope.

(** [new Date().getTime()] *)
Definition now : M Z :=
  fun w => (Returned (clock w (reads w)), set_reads (S (reads w)) w).

(** [applicationEvents.emit] records the emission; the listeners of each
    event are run by the [emit_*] functions below. *)
Definition recorded (e : Event) (w : World) : World :=
  set_journal (journal w ++ [(e, database w)]) (set_events (events w ++ [e]) w).

Definition record_event (e : Event) : M unit :=
  modify (recorded e).

(** ** Statements on the MySQL server

    A statement maps the database to its result and the new database, or to
    [None] when the server rejects it (unknown table, [NULL] written to a
    [NOT NULL] column, duplicate key). [?] renders [undefined] as [NULL], and
    [column = NULL] holds for no row. *)

Definition set_db_tables (t : gmap string Table) (db : Database) : Database :=
  Build_Database (db_state db) (db_alive db) t (db_triggers db) (table_changes db) (auto_increment db)
    (sync_status db).

Definition set_table_changes (c : list TableChangeRow) (next : Z) (db : Database) : Database :=
  Build_Database (db_state db) (db_alive db) (db_tables db) (db_triggers db) c next (sync_status db).

Definition set_sync_status (s : gmap string SyncStatusRow) (db : Database) : Database :=
  Build_Database (db_state db) (db_alive db) (db_tables db) (db_triggers db) (table_changes db)
    (auto_increment db) s.

(** The text a column value is compared or copied as. *)
Definition sql_text (v : option JSON) : option string :=
  match v with
  | Some (JString s) => Some s
  | Some (JNumber n) => Some (pretty n)
  | _ => None
  end.

(** [WHERE column = value] *)
Definition row_matches (column : string) (value : option string) (row : SqlEntity) : bool :=
  match value, sql_text (get_property column row) with
  | Some v, Some x => bool_decide (x = v)
  | _, _ => false
  end.

Fixpoint set_property (key : string) (v : JSON) (fields : list (string * JSON))
  : list (string * JSON) :=
  match fields with
  | [] => [(key, v)]
  | (k, x) :: rest =>
      if bool_decide (k = key) then (k, v) :: rest else (k, x) :: set_property key v rest
  end.

(** [SET ?] with an object: every field of the entity is assigned. *)
Definition assign (entity row : SqlEntity) : SqlEntity :=
  fold_left (fun r kv => set_property (fst kv) (snd kv) r) entity row.

(** The body of the three triggers:
    [INSERT INTO table_changes(table_name, primary_key, date) VALUE (?, NEW.pk, NOW())]. *)
Definition log_change (table key : string) (db : Database) : Database :=
  set_table_changes
    (table_changes db ++ [{| tc_id := auto_increment db; table_name := table; primary_key := key |}])
    (auto_increment db + 1) db.

(** [FOR EACH ROW]: the trigger of [table], if installed, runs once per
    affected row, on the first primary-key column (the one
    [setupDatabase] installs it with). *)
Definition fire_triggers (table : string) (affected : list SqlEntity) (db : Database) : Database :=
  if bool_decide (table ∈ db_triggers db) then
    match db_tables db !! table ≫= (fun t => head (primary_columns t)) with
    | Some pk =>
        fold_left (fun d row =>
                     match sql_text (get_property pk row) with
                     | Some key => log_change table key d
                     | None => d
                     end) affected db
    | None => db
    end
  else db.

Definition Statement (A : Type) : Type := Database -> option (A * Database).

(** [SHOW COLUMNS FROM ?? WHERE Key = 'PRI'] *)
Definition sql_show_primary_columns (table : string) : Statement (list string) :=
  fun db => t ← db_tables db !! table; Some (primary_columns t, db).

(** [SELECT COUNT( * ) FROM ?? WHERE ?? = ?] *)
Definition sql_count (table pk : string) (id : option string) : Statement nat :=
  fun db => t ← db_tables db !! table;
            Some (length (List.filter (row_matches pk id) (rows t)), db).

(** [INSERT INTO ??(??) VALUE (?)] *)
Definition sql_insert (table : string) (entity : SqlEntity) : Statement unit :=
  fun db => t ← db_tables db !! table;
            let t1 := {| primary_columns := primary_columns t; rows := rows t ++ [entity] |} in
            Some (tt, fire_triggers table [entity] (set_db_tables (<[table := t1]> (db_tables db)) db)).

(** [UPDATE ?? SET ? WHERE ?? = ?] *)
Definition sql_update (table : string) (entity : SqlEntity) (pk : string) (id : option string)
  : Statement unit :=
  fun db => t ← db_tables db !! table;
            let updated := map (assign entity) (List.filter (row_matches pk id) (rows t)) in
            let t1 := {| primary_columns := primary_columns t;
                         rows := map (fun row => if row_matches pk id row then assign entity row
                                                 else row) (rows t) |} in
            Some (tt, fire_triggers table updated (set_db_tables (<[table := t1]> (db_tables db)) db)).

(** [DELETE FROM ?? WHERE ?? = ?] *)
Definition sql_delete (table pk : string) (id : option string) : Statement unit :=
  fun db => t ← db_tables db !! table;
            let deleted := List.filter (row_matches pk id) (rows t) in
            let t1 := {| primary_columns := primary_columns t;
                         rows := List.filter (fun row => negb (row_matches pk id row)) (rows t) |} in
            Some (tt, fire_triggers table deleted (set_db_tables (<[table := t1]> (db_tables db)) db)).

(** The rows [WHERE table_name = ? AND primary_key = ?] selects. *)
Definition change_matches (table : string) (id : option string) (row : TableChangeRow) : bool :=
  bool_decide (table_name row = table) && bool_decide (Some (primary_key row) = id).

(** [DELETE FROM table_changes WHERE table_name = ? AND primary_key = ?] *)
Definition sql_delete_table_changes (table : string) (id : option string) : Statement unit :=
  fun db => Some (tt, set_table_changes
                        (List.filter (fun row => negb (change_matches table id row)) (table_changes db))
                        (auto_increment db) db).

(** [SELECT date FROM sync_status WHERE id = ?] *)
Definition sql_select_status_date (statusId : string) : Statement (list Z) :=
  fun db => Some (match sync_status db !! statusId with
                  | Some row => [ss_date row]
                  | None => []
                  end, db).

(** [INSERT INTO sync_status(id, table_name, primary_key, remote, date, status, message)
    VALUE (?, ?, ?, ?, ?, ?, ?)]; every column but [message] is [NOT NULL]. *)
Definition sql_insert_status (statusId : string) (table id : option string) (sender : string)
    (date : option Z) (status : Status) (message : option string) : Statement unit :=
  fun db =>
    match table, id, date, sync_status db !! statusId with
    | Some t, Some i, Some d, None =>
        let row := {| ss_table_name := t; ss_primary_key := i; ss_remote := sender;
                      ss_date := d; ss_status := status; ss_message := message |} in
        Some (tt, set_sync_status (<[statusId := row]> (sync_status db)) db)
    | _, _, _, _ => None
    end.

(** [UPDATE sync_status SET date = ?, status = ?, message = ? WHERE id = ?] *)
Definition sql_update_status (date : option Z) (status : Status) (message : option string)
    (statusId : string) : Statement unit :=
  fun db =>
    match date with
    | Some d =>
        Some (tt, set_sync_status
                    (alter (fun row => {| ss_table_name := ss_table_name row;
                                          ss_primary_key := ss_primary_key row;
                                          ss_remote := ss_remote row;
                                          ss_date := d; ss_status := status;
                                          ss_message := message |}) statusId (sync_status db)) db)
    | None => None
    end.

(** ** MysqlDatabaseConnection (database/database-connection-mysql.ts) *)

(** [testConnection()]: the state of the driver, then the probe. *)
Definition testConnection : M bool := gets (fun w => db_connected (database w)).

Definition query {A : Type} (statement : Statement A) : M A :=
  let* connected := testConnection in
  if negb connected then throw "MySQL is not connected"
  else fun w =>
         match statement (database w) with
         | Some (result, db) => (Returned result, set_database db w)
         | None => (Thrown "could not query the statement!", w)
         end.

(** ** utils/functions.ts: [pad] and [getLocalTimezone]

    [pad] prepends [fill] while the input is shorter than [minLength]; the
    loop has no other exit, so it is run with a bound on its rounds
    ([None]: the bound was reached). *)

Fixpoint pad (rounds : nat) (input fill : string) (minLength : nat) : option string :=
  if (String.length input <? minLength)%nat then
    match rounds with
    | O => None
    | S rest => pad rest (fill +:+ input) fill minLength
    end
  else Some input.

(** [fill] repeated [n] times. *)
Fixpoint copies (n : nat) (fill : string) : string :=
  match n with
  | O => EmptyString
  | S k => copies k fill +:+ fill
  end.

(** [getLocalTimezone] for a given [new Date().getTimezoneOffset()]; two
    rounds of [pad] are more than a number of minutes needs. *)
Definition timezone_hours (offset : Z) : Z := (- offset) / 60.
Definition timezone_minutes (offset : Z) : Z := (- offset) - timezone_hours offset * 60.

Definition getLocalTimezone (offset : Z) : option string :=
  match pad 2 (pretty (timezone_minutes offset)) "0" 2 with
  | Some minutes => Some ("UTC+" +:+ pretty (timezone_hours offset) +:+ ":" +:+ minutes)
  | None => None
  end.

(** ** Time values

    [new Date(v).getTime()] for a whole number [v] of milliseconds: a time
    value further than 8.64e15 ms from the epoch is [NaN], here [None]. *)

Definition max_time : Z := 8640000000000000.

Definition date_getTime (v : Z) : option Z :=
  if Z.abs v <=? max_time then Some v else None.

Section Node.
Context (cfg : Config).

(** ** MqttManager (mqtt/mqtt.ts), outbound side

    The manager is taken after [init]: [this.connection] is set, so the
    guard [if (!this.connection)] of [publish] does not throw. *)

Definition updateInterval : Z := checkInterval cfg.

(** The file name of a peer's queue, [remote-<peer>]. *)
Definition remote_queue_name (client : string) : string := "remote-" +:+ client.

(** [writeQueue] on the file [name] of the queue directory ([None]: the
    file was never written and stays absent). *)
Definition write_file {A : Type} (name : string) (file : option (list A))
    (files : gmap string (list A)) : gmap string (list A) :=
  match file with
  | Some content => <[name := content]> files
  | None => base.delete name files
  end.

(** [push] and [poll] of the [HardDiskQueue] kept in the file [name]. *)
Definition remote_queue_push (name : string) (item : QueueItem) : M unit :=
  modify (fun w =>
    set_remote_queues
      (write_file name (HardDiskQueue.push item (remote_queues w !! name)) (remote_queues w)) w).

Definition remote_queue_poll (name : string) : M (option QueueItem) :=
  fun w =>
    let (item, file) := HardDiskQueue.poll (remote_queues w !! name) in
    (Returned item, set_remote_queues (write_file name file (remote_queues w)) w).

(** [this.queue.push] of the DatabaseManager, on [database.json]. *)
Definition database_queue_push (item : DatabaseChange) : M unit :=
  modify (fun w => set_database_queue (HardDiskQueue.push item (database_queue w)) w).

(** [this.connection.publish(topic, JSON.stringify(payload))]; the text of
    the encoding is not modelled, the published document is kept. *)
Definition connection_publish (topic : string) (payload : JSON) : M unit :=
  modify (fun w => set_published (published w ++ [(topic, payload)]) w).

Definition isClientConnected (client : string) : M bool :=
  let* clients := gets connectedClients in
  match clients !! client with
  | Some until => let* t := now in ret (t <? until)
  | None => ret false
  end.

(** [if (!this.remoteClientQueues.hasOwnProperty(c)) this.remoteClientQueues[c] = new HardDiskQueue(..)] *)
Definition ensure_remote_queue (client : string) : M unit :=
  modify (fun w => set_remoteClientQueues ({[client]} ∪ remoteClientQueues w) w).

Definition publish (topic : string) (payload : JSON) (remoteClient : option string) : M unit :=
  match remoteClient with
  | Some client =>
      if truthy client then
        let* connected := isClientConnected client in
        if negb connected then
          ensure_remote_queue client;;;
          remote_queue_push (remote_queue_name client)
            {| item_topic := topic; item_payload := payload |}
        else connection_publish topic payload
      else connection_publish topic payload
  | None => connection_publish topic payload
  end.

Definition error (data : DatabaseChangeError) : M unit :=
  let payload :=
    JObject [("message", JString "error");
             ("sender", JString (clientName cfg));
             ("args", JObject (field "table" (Some (JString (error_table data)))
                               ++ field "id" (jstring (error_id data))
                               ++ field "date" (jnumber (error_date data))
                               ++ field "message" (Some (JString (error_message data)))))] in
  publish ("/info/" +:+ error_sender data) payload (Some (error_sender data)).

Definition dataReceived (data : DatabaseChangeInfo) : M unit :=
  let payload :=
    JObject [("message", JString "data_received");
             ("sender", JString (clientName cfg));
             ("args", JObject (field "table" (Some (JString (info_table data)))
                               ++ field "id" (jstring (info_id data))
                               ++ field "date" (jnumber (info_date data))))] in
  publish ("/info/" +:+ info_sender data) payload (Some (info_sender data)).

Definition sendChange (table : string) (id : option string) (entity : option SqlEntity)
    (remote : string) : M unit :=
  let* date := now in
  publish ("/change/" +:+ remote)
    (JObject (field "table" (Some (JString table))
              ++ field "id" (jstring id)
              ++ field "entity" (Some (jentity entity))
              ++ field "sender" (Some (JString (clientName cfg)))
              ++ field "date" (Some (JNumber date))))
    (Some remote).

(** [sendConnectedUpdate]. The new [nextActiveUpdate] goes through
    [new Date(...).getTime()]; when it is [NaN], so is [until], which
    [JSON.stringify] writes as [null]. The sums are those of the code as
    long as they stay below 2^53, where the numbers of JavaScript are
    exact. *)
Definition sendConnectedUpdate : M unit :=
  let* t := now in
  let next := date_getTime (t + updateInterval + 2000) in
  modify (set_nextActiveUpdate next);;;
  let until :=
    match next with
    | Some n => JNumber (n + updateInterval + 1000)
    | None => JNull
    end in
  let payload :=
    JObject [("sender", JString (clientName cfg));
             ("message", JString "connected");
             ("args", JObject [("until", until)])] in
  publish "/info" payload None.

(** [MqttManager.tick]; [!this.nextActiveUpdate] holds for [null], for [NaN]
    and for [0]. *)
Definition tick : M unit :=
  let* connected := gets mqtt_connected in
  if negb connected then ret tt
  else
    let* next := gets nextActiveUpdate in
    let* due :=
      match next with
      | None => ret true
      | Some n => if n =? 0 then ret true else let* t := now in ret (n <? t)
      end in
    if due then sendConnectedUpdate else ret tt.

(** [while (queueItem = await queue.poll())]: every round either publishes
    the head of the queue or puts it back and finds the peer gone, so the
    length of the queue bounds the rounds while the clock does not run
    backwards. *)
Fixpoint workRemoteClientQueue_loop (fuel : nat) (client : string) : M unit :=
  match fuel with
  | O => fun w => (OutOfFuel, w)
  | S rounds =>
      let* queueItem := remote_queue_poll (remote_queue_name client) in
      match queueItem with
      | None => ret tt
      | Some item =>
          publish (item_topic item) (item_payload item) (Some client);;;
          let* connected := isClientConnected client in
          if negb connected then ret tt else workRemoteClientQueue_loop rounds client
      end
  end.

Definition workRemoteClientQueue (client : string) : M unit :=
  ensure_remote_queue client;;;
  let* queue := gets (fun w => HardDiskQueue.readQueue (remote_queues w !! remote_queue_name client)) in
  workRemoteClientQueue_loop (S (length queue)) client.

(** The listeners of the hub, in the order the constructors register them:
    every event of the pipeline has exactly one listener, and no event
    transformer is ever registered, so [emit] runs that listener once. *)

Definition emit_local_save_successful (data : DatabaseChangeInfo) : M unit :=
  record_event (local_save_successful data);;; dataReceived data.

Definition emit_local_save_failed (data : DatabaseChangeError) : M unit :=
  record_event (local_save_failed data);;; error data.

Definition emit_remote_send_change (table : string) (id : option string)
    (entity : option SqlEntity) (remote : string) : M unit :=
  record_event (remote_send_change table id entity remote);;; sendChange table id entity remote.

(** ** TransformerManager (transformer.ts) *)

(** [resolve(directory, file)] for an absolute, normalised directory. *)
Definition resolve (directory file : string) : string := directory +:+ "/" +:+ file.

(** The file lookup of [findTransformer]: the export of
    [<directory>/<camelCase(table)>.js] when that file exists and exports a
    function, [null] otherwise. *)
Definition load_transformer (directory table : string) : option Transformer :=
  let filePath := resolve directory (toCamelCase cfg table +:+ ".js") in
  match transformerFiles cfg !! filePath with
  | Some (ExportsFunction f) => Some f
  | Some ExportsOther => None
  | None => None
  end.

Definition findTransformer (table : string) : M (option Transformer) :=
  match transformerDirectory cfg with
  | None => ret None
  | Some directory =>
      if negb (truthy directory) then ret None
      else
        let* cache := gets cachedTransformer in
        match cache !! table with
        | Some transformer => ret transformer
        | None =>
            let transformer := load_transformer directory table in
            modify (fun w => set_cachedTransformer (<[table := transformer]> (cachedTransformer w)) w);;;
            ret transformer
        end
  end.

Definition has_own_property (key : string) (fields : list (string * JSON)) : bool :=
  bool_decide (is_Some (get_property key fields)).

(** [transformEntity]: a falsy result is [null]; a result with own [then]
    and [catch] is awaited. Awaiting a row (whose [then] is a column value,
    not a function) yields the row, and a promise returned from the
    [async] method is resolved by it, so every branch hands on the value
    the result resolves to. *)
Definition transformEntity (table : string) (entity : option SqlEntity) (source target : string)
  : M (option SqlEntity) :=
  let* transformer := findTransformer table in
  match transformer with
  | Some f =>
      let context := {| ctx_entity := entity; ctx_source := source; ctx_target := target |} in
      match f context with
      | Plain None => ret None
      | Plain (Some row) =>
          if has_own_property "then" row && has_own_property "catch" row then ret (Some row)
          else ret (Some row)
      | Promise own_then_catch value =>
          if own_then_catch then ret value else ret value
      end
  | None => ret entity
  end.

(** The [for (let client of this.remoteClients)] loop of [onLocalChange]. *)
Fixpoint onLocalChange_loop (clients : list string) (table : string) (id : option string)
    (entity : option SqlEntity) (except : option string) : M unit :=
  match clients with
  | [] => ret tt
  | client :: rest =>
      if bool_decide (Some client = except) then onLocalChange_loop rest table id entity except
      else
        let* transformedEntity := transformEntity table entity (clientName cfg) client in
        emit_remote_send_change table id transformedEntity client;;;
        onLocalChange_loop rest table id entity except
  end.

Definition onLocalChange (table : string) (id : option string) (entity : option SqlEntity)
    (except : option string) : M unit :=
  onLocalChange_loop (remoteClients cfg) table id entity except.

Definition emit_local_change (table : string) (id : option string) (entity : option SqlEntity)
    (except : option string) : M unit :=
  record_event (local_change table id entity except);;; onLocalChange table id entity except.

(** ** DatabaseManager (database/database-manager.ts) *)

Definition getPrimaryKey (table : string) : M string :=
  let* cache := gets cachedPrimaryKeys in
  match cache !! table with
  | Some key => ret key
  | None =>
      let* result := query (sql_show_primary_columns table) in
      match result with
      | [] => throw ("Table " +:+ quote +:+ table +:+ quote +:+ " does not have a primary key!")
      | key :: _ =>
          modify (fun w => set_cachedPrimaryKeys (<[table := key]> (cachedPrimaryKeys w)) w);;;
          ret key
      end
  end.

(** [createStatusId]: the md5 of [`${table}-${id}-${remote}`]. *)
Definition createStatusId (table id : option string) (remote : string) : string :=
  md5 cfg (template table +:+ "-" +:+ template id +:+ "-" +:+ remote).

(** [message || null] *)
Definition or_null (message : option string) : option string :=
  match message with
  | Some m => if truthy m then Some m else None
  | None => None
  end.

Definition status_name (s : Status) : string :=
  match s with
  | successful => "successful"
  | pending => "pending"
  | error_status => "error"
  end.

(** [data as any as SqlEntity]: the status as the object it is. *)
Definition status_as_entity (data : DatabaseStatusChange) : SqlEntity :=
  field "table" (jstring (status_table data))
  ++ field "id" (jstring (status_id data))
  ++ field "date" (jnumber (status_date data))
  ++ field "message" (jstring (status_message data))
  ++ field "sender" (Some (JString (status_sender data)))
  ++ field "status" (Some (JString (status_name (status_status data)))).

(** [parseSqlDate]: [new Date(`${sqlDate} ${getLocalTimezone()}`)], read
    with [getTime()]. *)
Definition parseSqlDate (sqlDate : string) : option Z :=
  match getLocalTimezone (timezoneOffset cfg) with
  | Some zone => date_parse cfg (sqlDate +:+ " " +:+ zone)
  | None => None
  end.

(** [parseSqlDate(existingStatus[0].date).getTime() > date], for the date
    the server returns for the stored instant; a comparison with [NaN] or
    with [undefined] is false. *)
Definition later_than (stored : Z) (date : option Z) : bool :=
  match parseSqlDate (datetime_text cfg stored), date with
  | Some read, Some d => d <? read
  | _, _ => false
  end.

(** [setStatus]. The date is written as [new Date(date)], for a [date]
    within the range of dates ([max_time]). *)
Definition setStatus (data : DatabaseStatusChange) : M unit :=
  let* connected := testConnection in
  if negb connected then
    let* t := now in
    database_queue_push
      {| change_sender := EmptyString; change_table := "sync_status";
         change_id := Some EmptyString; change_date := Some t;
         change_entity := Some (status_as_entity data) |}
  else
    let statusId := createStatusId (status_table data) (status_id data) (status_sender data) in
    let* existingStatus := query (sql_select_status_date statusId) in
    match existingStatus with
    | stored :: _ =>
        if later_than stored (status_date data) then ret tt
        else query (sql_update_status (status_date data) (status_status data)
                      (or_null (status_message data)) statusId)
    | [] =>
        query (sql_insert_status statusId (status_table data) (status_id data)
                 (status_sender data) (status_date data) (status_status data)
                 (or_null (status_message data)))
    end.

(** [entity[primaryKey] !== id] *)
Definition id_mismatch (entity : SqlEntity) (primaryKey : string) (id : option string) : bool :=
  match get_property primaryKey entity, id with
  | Some (JString s), Some i => negb (bool_decide (s = i))
  | None, None => false
  | _, _ => true
  end.

(** The end of [saveEntity]: the echo of a change on a bidirectional table. *)
Definition saveEntity_echo (data : DatabaseChange) : M unit :=
  if bool_decide (change_table data ∈ bidirectionalTable cfg) then
    query (sql_delete_table_changes (change_table data) (change_id data));;;
    emit_local_change (change_table data) (change_id data) (change_entity data)
      (Some (change_sender data))
  else ret tt.

Definition saveEntity (data : DatabaseChange) : M unit :=
  let table := change_table data in
  let id := change_id data in
  let* primaryKey := getPrimaryKey table in
  match change_entity data with
  | Some entity =>
      if id_mismatch entity primaryKey id then
        emit_local_save_failed
          {| error_sender := change_sender data; error_table := change_table data;
             error_id := change_id data; error_date := change_date data;
             error_message := "Sent id does not match entity id!" |}
      else
        (let* count := query (sql_count table primaryKey id) in
         if bool_decide (count = 0%nat) then query (sql_insert table entity)
         else query (sql_update table entity primaryKey id));;;
        saveEntity_echo data
  | None =>
      query (sql_delete table primaryKey id);;;
      saveEntity_echo data
  end.

(** [remoteChange], the listener of [local-save-change]. *)
Definition remoteChange (data : DatabaseChange) : M unit :=
  let* connected := testConnection in
  if negb connected then
    database_queue_push data;;;
    emit_local_save_failed
      {| error_sender := change_sender data; error_table := change_table data;
         error_id := change_id data; error_date := change_date data;
         error_message := "Could not connect to database" |}
  else
    try_catch
      (saveEntity data;;;
       emit_local_save_successful
         {| info_sender := change_sender data; info_table := change_table data;
            info_id := change_id data; info_date := change_date data |})
      (fun message =>
         emit_local_save_failed
           {| error_sender := change_sender data; error_table := change_table data;
              error_id := change_id data; error_date := change_date data;
              error_message := message |}).

Definition emit_local_save_change (data : DatabaseChange) : M unit :=
  record_event (local_save_change data);;; remoteChange data.

Definition emit_remote_status_change (data : DatabaseStatusChange) : M unit :=
  record_event (remote_status_change data);;; setStatus data.

(** [TransformerManager.onRemoteChange], the listener of [remote-change]. *)
Definition onRemoteChange (data : DatabaseChange) : M unit :=
  let* transformedEntity :=
    transformEntity (change_table data) (change_entity data) (change_sender data) (clientName cfg) in
  let transformedData :=
    {| change_sender := change_sender data; change_table := change_table data;
       change_id := change_id data; change_date := change_date data;
       change_entity := transformedEntity |} in
  emit_local_save_change transformedData.

Definition emit_remote_change (data : DatabaseChange) : M unit :=
  record_event (remote_change data);;; onRemoteChange data.

(** ** MqttManager, inbound side

    [receivedMessage] is given the document [JSON.parse] returned. The
    typed views below read the fields a validated payload carries. *)

Definition string_property (key : string) (fields : list (string * JSON)) : option string :=
  match get_property key fields with
  | Some (JString s) => Some s
  | _ => None
  end.

Definition number_property (key : string) (fields : list (string * JSON)) : option Z :=
  match get_property key fields with
  | Some (JNumber n) => Some n
  | _ => None
  end.

Definition entity_property (key : string) (fields : list (string * JSON))
  : option (option SqlEntity) :=
  match get_property key fields with
  | Some (JObject row) => Some (Some row)
  | Some JNull => Some None
  | _ => None
  end.

(** [let remoteChange: DatabaseChange = payload] *)
Definition as_DatabaseChange (payload : JSON) : option DatabaseChange :=
  match payload with
  | JObject fields =>
      match string_property "sender" fields, string_property "table" fields,
            entity_property "entity" fields with
      | Some sender, Some table, Some entity =>
          Some {| change_sender := sender; change_table := table;
                  change_id := string_property "id" fields;
                  change_date := number_property "date" fields;
                  change_entity := entity |}
      | _, _, _ => None
      end
  | _ => None
  end.

Record InfoMessage := {
  message_sender : string;
  message_message : string;
  message_args : list (string * JSON)
}.

(** [let infoMessage: InfoMessage = payload] *)
Definition as_InfoMessage (payload : JSON) : option InfoMessage :=
  match payload with
  | JObject fields =>
      match string_property "sender" fields, string_property "message" fields,
            get_property "args" fields with
      | Some sender, Some message, Some (JObject args) =>
          Some {| message_sender := sender; message_message := message; message_args := args |}
      | _, _, _ => None
      end
  | _ => None
  end.

Definition valid (payload : JSON) (scheme : ObjectSchema) : bool :=
  validateJson (schemeLoadTime cfg) payload scheme.

(** The [switch (infoMessage.message)] of [receivedMessage]. *)
Definition receivedInfoMessage (infoMessage : InfoMessage) : M unit :=
  let sender := message_sender infoMessage in
  let args := message_args infoMessage in
  let message := message_message infoMessage in
  if bool_decide (message = "connected") then
    if negb (valid (JObject args) connectedInfoMessageArgsScheme) then ret tt
    else
      match number_property "until" args with
      | Some until =>
          modify (fun w => set_connectedClients (<[sender := until]> (connectedClients w)) w);;;
          workRemoteClientQueue sender
      | None => ret tt
      end
  else if bool_decide (message = "data_received") then
    if negb (valid (JObject args) dataReceivedInfoMessageArgsScheme) then ret tt
    else
      emit_remote_status_change
        {| status_sender := sender; status_table := string_property "table" args;
           status_id := string_property "id" args; status_date := number_property "date" args;
           status_status := successful; status_message := string_property "message" args |}
  else if bool_decide (message = "error") then
    if negb (valid (JObject args) errorInfoMessageArgsScheme) then ret tt
    else
      emit_remote_status_change
        {| status_sender := sender; status_table := string_property "table" args;
           status_id := string_property "id" args; status_date := number_property "date" args;
           status_status := error_status; status_message := string_property "message" args |}
  else if bool_decide (message = "connection_lost") then
    modify (fun w => set_connectedClients (base.delete sender (connectedClients w)) w)
  else ret tt.

Definition receivedMessage (topic : string) (payload : JSON) : M unit :=
  if String.prefix ("/change/" +:+ clientName cfg) topic then
    if negb (valid payload remoteChangeScheme) then ret tt
    else
      match as_DatabaseChange payload with
      | Some remoteChange =>
          if negb (bool_decide (change_table remoteChange ∈ receiveTables cfg)) then
            error {| error_sender := change_sender remoteChange;
                     error_table := change_table remoteChange;
                     error_id := change_id remoteChange;
                     error_date := change_date remoteChange;
                     error_message := "The table is not configured as receive table!" |}
          else emit_remote_change remoteChange
      | None => ret tt
      end
  else if bool_decide (topic = "/info") || bool_decide (topic = "/info/" +:+ clientName cfg) then
    if negb (valid payload infoMessageScheme) then ret tt
    else
      match as_InfoMessage payload with
      | Some infoMessage =>
          if bool_decide (message_sender infoMessage = clientName cfg) then ret tt
          else receivedInfoMessage infoMessage
      | None => ret tt
      end
  else ret tt.

End Node.

(** ** Observations used in the statements *)

(** The emissions a run appended to the hub. *)
Definition emitted (before after : World) : list Event :=
  drop (length (events before)) (events after).

Definition is_local_save_change (e : Event) : bool :=
  match e with
  | local_save_change _ => true
  | _ => false
  end.

(** The events the apply stage and the stages after it emit. *)
Definition is_apply_event (e : Event) : bool :=
  match e with
  | local_change _ _ _ _ => true
  | local_save_successful _ => true
  | local_save_failed _ => true
  | remote_send_change _ _ _ _ => true
  | _ => false
  end.

(** Table, id and addressee of a [remote-send-change]. *)
Definition remote_send_target (e : Event) : option (string * option string * string) :=
  match e with
  | remote_send_change table id _ remote => Some (table, id, remote)
  | _ => None
  end.

(** The content of a peer's durable queue. *)
Definition remote_queue (client : string) (w : World) : list QueueItem :=
  HardDiskQueue.readQueue (remote_queues w !! remote_queue_name client).

(** Presence of a peer at the next reading of the clock, as
    [isClientConnected] decides it. *)
Definition peer_connected (client : string) (w : World) : bool :=
  match connectedClients w !! client with
  | Some until => clock w (reads w) <? until
  | None => false
  end.

(** The key [getPrimaryKey] resolves for a table: the cached one, else the
    first [PRI] column the server reports. *)
Definition primary_key_of (table : string) (w : World) : option string :=
  match cachedPrimaryKeys w !! table with
  | Some key => Some key
  | None => db_tables (database w) !! table ≫= (fun t => head (primary_columns t))
  end.

(** The transformer configured for a table. *)
Definition configured_transformer (cfg : Config) (table : string) : option Transformer :=
  match transformerDirectory cfg with
  | Some directory => if truthy directory then load_transformer cfg directory table else None
  | None => None
  end.


(** The value a transformer result resolves to. *)
Definition resolves_to (r : TransformerResult) : option SqlEntity :=
  match r with
  | Plain value => value
  | Promise _ value => value
  end.

(** The [connected] message with a given [until]. *)
Definition connected_message (cfg : Config) (until : Z) : JSON :=
  JObject [("sender", JString (clientName cfg));
           ("message", JString "connected");
           ("args", JObject [("until", JNumber until)])].

(** An inbound message that carries a date below the minimum of the
    [date] definition, in one of the places the schemas constrain: the
    [date] of a change, the [until] of [connected], the [date] of
    [data_received] and of [error]. *)
Definition early_number (cfg : Config) (key : string) (fields : list (string * JSON)) : bool :=
  match get_property key fields with
  | Some (JNumber n) => n <? schemeLoadTime cfg
  | _ => false
  end.

(** The part of an inbound message that carries its date: the fields of
    the document, the schema [receivedMessage] validates them against and
    the key of the date. *)
Definition dated_part (cfg : Config) (topic : string) (payload : JSON)
  : option (list (string * JSON) * ObjectSchema * string) :=
  match payload with
  | JObject fields =>
      if String.prefix ("/change/" +:+ clientName cfg) topic then
        Some (fields, remoteChangeScheme, "date")
      else if bool_decide (topic = "/info") || bool_decide (topic = "/info/" +:+ clientName cfg) then
        match get_property "message" fields, get_property "args" fields with
        | Some (JString message), Some (JObject args) =>
            if bool_decide (message = "connected") then
              Some (args, connectedInfoMessageArgsScheme, "until")
            else if bool_decide (message = "data_received") then
              Some (args, dataReceivedInfoMessageArgsScheme, "date")
            else if bool_decide (message = "error") then
              Some (args, errorInfoMessageArgsScheme, "date")
            else None
        | _, _ => None
        end
      else None
  | _ => None
  end.

Definition carries_early_date (cfg : Config) (topic : string) (payload : JSON) : bool :=
  match dated_part cfg topic payload with
  | Some (fields, _, key) => early_number cfg key fields
  | None => false
  end.

(** A computation is [silent] when it always returns, emits nothing and
    leaves the database as it is; it [appends] events of a kind when all it
    does to the hub is to add emissions of that kind. *)
Definition silent {A : Type} (m : M A) : Prop :=
  forall w : World,
    exists (a : A) (w1 : World),
      m w = (Returned a, w1) /\ events w1 = events w /\ database w1 = database w.

Definition appends (kind : Event -> bool) {A : Type} (m : M A) : Prop :=
  forall w : World,
    exists later : list Event,
      events (snd (m w)) = events w ++ later /\ forallb kind later = true.

(** ** A concrete node, for the examples

    Node [nodeA] synchronises [users] in both directions with the peers
    [nodeB] and [nodeC]; [users] has the primary key [id] and carries the
    triggers. No transformer directory is configured. *)

(** A stand-in for the dates of the example host and server: the server
    returns a [DATETIME] as the decimal text of its instant, and the host
    reads such a text followed by a zone back as that instant, unless the
    zone carries a doubled sign ([UTC+-5:00]), which it does not read. *)
Definition example_datetime_text (instant : Z) : string := pretty instant.

Definition digit_value (a : ascii) : option Z :=
  let n := Z.of_N (N_of_ascii a) in
  if (48 <=? n) && (n <=? 57) then Some (n - 48) else None.

Fixpoint read_instant (text : string) (value : Z) : option Z :=
  match text with
  | EmptyString => None
  | String a rest =>
      if bool_decide (a = " "%char) then Some value
      else match digit_value a with
           | Some d => read_instant rest (10 * value + d)
           | None => None
           end
  end.

Fixpoint doubled_sign (text : string) : bool :=
  match text with
  | EmptyString => false
  | String a rest =>
      match rest with
      | String b _ => (bool_decide (a = "+"%char) && bool_decide (b = "-"%char)) || doubled_sign rest
      | EmptyString => false
      end
  end.

Definition example_date_parse (text : string) : option Z :=
  if doubled_sign text then None else read_instant text 0.

Definition example_config : Config :=
  {| clientName := "nodeA";
     checkInterval := 5000;
     syncTables := ["users"];
     receiveTables := ["users"];
     remoteClients := ["nodeB"; "nodeC"];
     transformerDirectory := None;
     transformerFiles := ∅;
     schemeLoadTime := 1000;
     toCamelCase := fun s => s;
     md5 := fun s => s;
     timezoneOffset := -60;
     date_parse := example_date_parse;
     datetime_text := example_datetime_text |}.

Definition example_database : Database :=
  {| db_state := true;
     db_alive := true;
     db_tables := {[ "users" := {| primary_columns := ["id"]; rows := [] |} ]};
     db_triggers := ["users"];
     table_changes := [];
     auto_increment := 1;
     sync_status := ∅ |}.

Definition example_world : World :=
  {| clock := fun n => 2000 + Z.of_nat n;
     reads := 0;
     database := example_database;
     cachedPrimaryKeys := ∅;
     cachedTransformer := ∅;
     connectedClients := ∅;
     nextActiveUpdate := None;
     remoteClientQueues := ∅;
     mqtt_connected := true;
     published := [];
     database_queue := None;
     remote_queues := ∅;
     events := [];
     journal := [] |}.

(** The same node once [nodeB] has reported [users/u1] as applied at
    instant 1000 ([md5] is the identity in [example_config]). *)
Definition example_status_world : World :=
  set_database
    (set_sync_status
       {[ "users-u1-nodeB" :=
            {| ss_table_name := "users"; ss_primary_key := "u1"; ss_remote := "nodeB";
               ss_date := 1000; ss_status := successful; ss_message := None |} ]}
       example_database)
    example_world.

(** The same node with a transformer directory that holds [users.js]: the
    transformer returns a promise of the row with the column [origin] set
    to the source of the change. *)
Definition example_transformer : Transformer :=
  fun context =>
    Promise false
      (match ctx_entity context with
       | Some row => Some (set_property "origin" (JString (ctx_source context)) row)
       | None => None
       end).

Definition example_config_transformer : Config :=
  {| clientName := "nodeA";
     checkInterval := 5000;
     syncTables := ["users"];
     receiveTables := ["users"];
     remoteClients := ["nodeB"; "nodeC"];
     transformerDirectory := Some "/etc/mysql-sync/transformer";
     transformerFiles :=
       {[ "/etc/mysql-sync/transformer/users.js" := ExportsFunction example_transformer ]};
     schemeLoadTime := 1000;
     toCamelCase := fun s => s;
     md5 := fun s => s;
     timezoneOffset := -60;
     date_parse := example_date_parse;
     datetime_text := example_datetime_text |}.

(** * Further parts of the code *)

(** ** Plain objects used as tables

    The managers and the event hub keep their tables in object literals
    ([{}]). The managers test a key with [hasOwnProperty] before they read
    it; such a table is a finite map as long as no key is [hasOwnProperty],
    which as a key of its own would shadow the test, or [__proto__], to
    which an assignment creates no property. The maps of this development
    stand for the tables under that condition, which the properties about
    the presence of peers and about the caches state. The hub reads its
    tables without a test, and there every property name of
    [Object.prototype] is found where the table holds nothing itself. *)

Definition object_prototype_names : list string :=
  ["constructor"; "__defineGetter__"; "__defineSetter__"; "hasOwnProperty";
   "__lookupGetter__"; "__lookupSetter__"; "isPrototypeOf"; "propertyIsEnumerable";
   "toString"; "valueOf"; "__proto__"; "toLocaleString"].

(** A key that a tested table takes like any other. *)
Definition plain_key (key : string) : Prop := key <> "__proto__" /\ key <> "hasOwnProperty".

(** A table, or the set of the keys of one, whose test [hasOwnProperty]
    is the inherited one. *)
Definition plain_table {V : Type} (table : gmap string V) : Prop :=
  table !! "hasOwnProperty" = None.

Definition plain_keys (keys : gset string) : Prop := "hasOwnProperty" ∉ keys.

(** ** MqttHardDiskStore (utils/mqtt-hard-disk-store.ts)

    The bus client keeps its in-flight packets in a store that delegates to
    a [HardDiskQueue]. A packet is looked up by its [messageId]; two
    packets without one have the same ([undefined]) id. A method of a
    closed store throws; otherwise [get] and [del] hand their callback an
    error or the packet. Every operation is taken to complete before the
    next one starts. *)

Record IPacket := {
  packet_cmd : string;
  packet_messageId : option Z;
  packet_length : option Z
}.

Inductive StoreCallback :=
| callback_error (message : string)
| callback_packet (packet : IPacket).

Module MqttHardDiskStore.

Record t := {
  store_open : bool;
  delegate : option (list IPacket)
}.

(** [new MqttHardDiskStore(directory, name)] over the file as it is found. *)
Definition create (file : option (list IPacket)) : t :=
  {| store_open := true; delegate := file |}.

(** [entity => entity.messageId === packet.messageId] *)
Definition same_id (packet entity : IPacket) : bool :=
  bool_decide (packet_messageId entity = packet_messageId packet).

(** What [get] and [del] pass to the callback for the packets they found. *)
Definition report (packets : list IPacket) : StoreCallback :=
  match packets with
  | [] => callback_error "missing packet"
  | [packet] => callback_packet packet
  | _ :: _ :: _ => callback_error "multiple packets with that id"
  end.

Definition put (packet : IPacket) (store : t) : Outcome t :=
  if negb (store_open store) then Thrown "Store closed!"
  else Returned {| store_open := true;
                   delegate := HardDiskQueue.push packet (delegate store) |}.

(** The packets the stream yields before it ends. *)
Definition createStream (store : t) : Outcome (list IPacket) :=
  if negb (store_open store) then Thrown "Store closed!"
  else Returned (HardDiskQueue.getAllSync (delegate store)).

Definition del (packet : IPacket) (store : t) : Outcome (StoreCallback * t) :=
  if negb (store_open store) then Thrown "Store closed!"
  else
    let (deletedPackets, file) := HardDiskQueue.delete (same_id packet) (delegate store) in
    Returned (report deletedPackets, {| store_open := true; delegate := file |}).

Definition get (packet : IPacket) (store : t) : Outcome StoreCallback :=
  if negb (store_open store) then Thrown "Store closed!"
  else Returned (report (HardDiskQueue.find (same_id packet) (delegate store))).

Definition close (store : t) : Outcome t :=
  if negb (store_open store) then Thrown "Store closed!"
  else Returned {| store_open := false; delegate := delegate store |}.

End MqttHardDiskStore.

(** ** AsyncEventEmitter (utils/async-event-emitter.ts)

    The hub keeps, per event name, the listeners in the order of their
    registration, and a table of event transformers (which no method of
    the class fills). [ARGS] is the argument list of an emission.

    [on] is the registration for an event name other than [__proto__] and
    [hasOwnProperty]. [emit] reads both tables without a test: for an
    event named like a property of [Object.prototype] that a table does not
    hold itself, the read finds the inherited value, which the [for ... of]
    loop cannot iterate, a [TypeError]. *)

Module AsyncEventEmitter.
Section Emitter.
Context {ARGS : Type}.

Record t := {
  listener : gmap string (list (ARGS -> M unit));
  transformer : gmap string (list (ARGS -> M (list ARGS)))
}.

Definition create : t := {| listener := ∅; transformer := ∅ |}.

Definition on (event : string) (l : ARGS -> M unit) (emitter : t) : t :=
  {| listener :=
       match listener emitter !! event with
       | Some listeners => <[event := listeners ++ [l]]> (listener emitter)
       | None => <[event := [l]]> (listener emitter)
       end;
     transformer := transformer emitter |}.

(** [for (let current of events) newEvents.pushAll(await transformer.apply(null, current))] *)
Fixpoint transform_events (f : ARGS -> M (list ARGS)) (events : list ARGS) : M (list ARGS) :=
  match events with
  | [] => ret []
  | current :: rest =>
      let* produced := f current in
      let* others := transform_events f rest in
      ret (produced ++ others)
  end.

(** [for (let transformer of transformers) { ...; events = newEvents; }] *)
Fixpoint apply_transformers (transformers : list (ARGS -> M (list ARGS))) (events : list ARGS)
  : M (list ARGS) :=
  match transformers with
  | [] => ret events
  | f :: rest =>
      let* newEvents := transform_events f events in
      apply_transformers rest newEvents
  end.

(** [for (let current of events) await listener.apply(null, current)] *)
Fixpoint call_listener (l : ARGS -> M unit) (events : list ARGS) : M unit :=
  match events with
  | [] => ret tt
  | current :: rest => l current;;; call_listener l rest
  end.

(** [for (let listener of listeners) ...] *)
Fixpoint call_listeners (listeners : list (ARGS -> M unit)) (events : list ARGS) : M unit :=
  match listeners with
  | [] => ret tt
  | l :: rest => call_listener l events;;; call_listeners rest events
  end.

Definition emit (emitter : t) (event : string) (args : ARGS) : M unit :=
  let* events :=
    match transformer emitter !! event with
    | Some transformers => apply_transformers transformers [args]
    | None =>
        if bool_decide (event ∈ object_prototype_names) then throw "TypeError" else ret [args]
    end in
  match listener emitter !! event with
  | Some listeners => call_listeners listeners events
  | None =>
      if bool_decide (event ∈ object_prototype_names) then throw "TypeError" else ret tt
  end.

(** Registrations, oldest first, on an emitter. *)
Definition register (registrations : list (string * (ARGS -> M unit))) (emitter : t) : t :=
  fold_left (fun e r => on (fst r) (snd r) e) registrations emitter.

End Emitter.
Arguments t : clear implicits.
End AsyncEventEmitter.

(** Calling each listener once with [args], first listener first. *)
Fixpoint run_each {ARGS : Type} (listeners : list (ARGS -> M unit)) (args : ARGS) : M unit :=
  match listeners with
  | [] => ret tt
  | l :: rest => l args;;; run_each rest args
  end.

(** ** DatabaseManager: [nextChange] and [workQueue] *)

(** [DELETE FROM table_changes WHERE id = ?] *)
Definition sql_delete_table_change (id : Z) : Statement unit :=
  fun db => Some (tt, set_table_changes
                        (List.filter (fun row => negb (bool_decide (tc_id row = id)))
                           (table_changes db))
                        (auto_increment db) db).

(** [SELECT * FROM ?? WHERE ?? = ?] *)
Definition sql_select_entity (table pk value : string) : Statement (list SqlEntity) :=
  fun db => t ← db_tables db !! table;
            Some (List.filter (row_matches pk (Some value)) (rows t), db).

(** What [nextChange] returns. *)
Record LocalChange := {
  local_table : string;
  local_entity : option SqlEntity;
  local_id : string
}.

Section Polling.
(** The row [ORDER BY date ASC LIMIT 1] selects among the rows of
    [table_changes] (their dates are not kept in the model). *)
Context (oldest : list TableChangeRow -> option TableChangeRow).

(** [NEXT_TABLE_CHANGE] *)
Definition sql_next_table_change : Statement (list TableChangeRow) :=
  fun db => Some (match oldest (table_changes db) with
                  | Some row => [row]
                  | None => []
                  end, db).

Definition nextChange : M (option LocalChange) :=
  let* connected := testConnection in
  if negb connected then ret None
  else
    let* tableChangeResult := query sql_next_table_change in
    match tableChangeResult with
    | [] => ret None
    | row :: _ =>
        query (sql_delete_table_change (tc_id row));;;
        let* primaryKey := getPrimaryKey (table_name row) in
        let* entityResult :=
          query (sql_select_entity (table_name row) primaryKey (primary_key row)) in
        ret (Some {| local_table := table_name row;
                     local_entity := head entityResult;
                     local_id := primary_key row |})
    end.

(** The end of [DatabaseManager.tick], once the connection is there: the
    next change is polled and emitted as [local-change], without [except]. *)
Definition tick_poll (cfg : Config) : M unit :=
  let* change := nextChange in
  match change with
  | Some c => emit_local_change cfg (local_table c) (Some (local_id c)) (local_entity c) None
  | None => ret tt
  end.
End Polling.

Definition status_of_name (name : string) : option Status :=
  if bool_decide (name = "successful") then Some successful
  else if bool_decide (name = "pending") then Some pending
  else if bool_decide (name = "error") then Some error_status
  else None.

(** [currentItem.entity as any as DatabaseStatusChange]: the status read
    back from the envelope [setStatus] queued. The view is exact on the
    envelopes [setStatus] writes; the queue holds no other item with the
    table [sync_status] unless a peer sends a change for a table of that
    name, which is outside the model ([None]). *)
Definition as_DatabaseStatusChange (entity : option SqlEntity) : option DatabaseStatusChange :=
  match entity with
  | Some fields =>
      match string_property "sender" fields, string_property "status" fields ≫= status_of_name with
      | Some sender, Some status =>
          Some {| status_sender := sender;
                  status_table := string_property "table" fields;
                  status_id := string_property "id" fields;
                  status_date := number_property "date" fields;
                  status_status := status;
                  status_message := string_property "message" fields |}
      | _, _ => None
      end
  | None => None
  end.

Definition database_queue_poll : M (option DatabaseChange) :=
  fun w =>
    let (item, file) := HardDiskQueue.poll (database_queue w) in
    (Returned item, set_database_queue file w).

(** [while (currentItem = await this.queue.poll())]: every round takes one
    item off the queue. [setStatus] puts its item back when
    [testConnection()] fails, and the loop ends when the driver reports no
    live connection ([connection.connected]); as long as the server answers
    the probe whenever the driver is live, a round that puts an item back
    is the last, and the length of the queue bounds the rounds. *)
Fixpoint workQueue_loop (cfg : Config) (fuel : nat) : M unit :=
  match fuel with
  | O => fun w => (OutOfFuel, w)
  | S rounds =>
      let* currentItem := database_queue_poll in
      match currentItem with
      | None => ret tt
      | Some item =>
          (if bool_decide (change_table item = "sync_status") then
             match as_DatabaseStatusChange (change_entity item) with
             | Some data => setStatus cfg data
             | None => throw "TypeError"
             end
           else saveEntity cfg item);;;
          let* connected := gets (fun w => db_state (database w)) in
          if negb connected then ret tt else workQueue_loop cfg rounds
      end
  end.

(** [workQueue], the listener of [database-connect]. *)
Definition workQueue (cfg : Config) : M unit :=
  let* queue := gets (fun w => HardDiskQueue.readQueue (database_queue w)) in
  workQueue_loop cfg (S (length queue)).

(** ** Further observations *)



Definition is_local_save_successful (e : Event) : bool :=
  match e with
  | local_save_successful _ => true
  | _ => false
  end.


(** Two states of the node that differ at most in what the bus gateway
    changes when it publishes: the clock reads, the published messages,
    the peers' queue files and the queue handles. *)
Definition same_but_bus (w w1 : World) : Prop :=
  clock w1 = clock w
  /\ database w1 = database w
  /\ cachedPrimaryKeys w1 = cachedPrimaryKeys w
  /\ cachedTransformer w1 = cachedTransformer w
  /\ connectedClients w1 = connectedClients w
  /\ nextActiveUpdate w1 = nextActiveUpdate w
  /\ mqtt_connected w1 = mqtt_connected w
  /\ database_queue w1 = database_queue w
  /\ events w1 = events w.


(** The [data_received] message [dataReceived] builds. *)
Definition data_received_message (cfg : Config) (data : DatabaseChangeInfo) : JSON :=
  JObject [("message", JString "data_received");
           ("sender", JString (clientName cfg));
           ("args", JObject (field "table" (Some (JString (info_table data)))
                             ++ field "id" (jstring (info_id data))
                             ++ field "date" (jnumber (info_date data))))].






(** A computation [preserves] an observation of the state when the state
    it ends in, whatever the outcome, shows the same value; it [finishes]
    when its bounded loops end within their bound. *)
Definition preserves {A B : Type} (f : World -> B) (m : M A) : Prop :=
  forall w : World, f (snd (m w)) = f w.

Definition finishes {A : Type} (m : M A) : Prop :=
  forall w : World, fst (m w) <> OutOfFuel.

Definition database_connected (w : World) : bool := db_connected (database w).

(** The session as the two guards of the code see it: the state of the
    driver, and whether the probe is answered. *)
Definition db_session (db : Database) : bool * bool := (db_state db, db_alive db).

Definition database_session (w : World) : bool * bool := db_session (database w).

(** A statement [keeps] an observation of the database when the database
    it leaves shows the same value. *)
Definition keeps {A C : Type} (g : Database -> C) (statement : Statement A) : Prop :=
  forall (db db1 : Database) (result : A),
    statement db = Some (result, db1) -> g db1 = g db.


(** The example node while the MySQL server is unreachable. *)
Definition example_database_down : Database :=
  {| db_state := false;
     db_alive := false;
     db_tables := db_tables example_database;
     db_triggers := db_triggers example_database;
     table_changes := table_changes example_database;
     auto_increment := auto_increment example_database;
     sync_status := sync_status example_database |}.

Definition example_world_down : World := set_database example_database_down example_world.


(** The example node with one row in [users] and the change the trigger
    logged for it; and the same with a change logged for a table that was
    dropped since. *)
Definition example_polling_database : Database :=
  {| db_state := true;
     db_alive := true;
     db_tables := {[ "users" := {| primary_columns := ["id"];
                                   rows := [[("id", JString "u1"); ("name", JString "x")]] |} ]};
     db_triggers := ["users"];
     table_changes := [{| tc_id := 1; table_name := "users"; primary_key := "u1" |}];
     auto_increment := 2;
     sync_status := ∅ |}.


Definition example_dropped_database : Database :=
  {| db_state := true;
     db_alive := true;
     db_tables := db_tables example_polling_database;
     db_triggers := ["users"];
     table_changes := [{| tc_id := 1; table_name := "orders"; primary_key := "o1" |}];
     auto_increment := 2;
     sync_status := ∅ |}.

Definition example_dropped_world : World := set_database example_dropped_database example_world.

(** Every event but the success feedback of the apply stage. *)
Definition no_success_feedback (e : Event) : bool := negb (is_local_save_successful e).

(** The last will [init] registers with the broker, published on [/info]
    when the session of the node is lost. *)
Definition connection_lost_message (cfg : Config) : JSON :=
  JObject [("message", JString "connection_lost");
           ("sender", JString (clientName cfg));
           ("args", JObject [])].

(** The example node with two messages waiting for [nodeB]. *)
Definition example_queued_world : World :=
  set_remote_queues
    {[ "remote-nodeB" := [{| item_topic := "/change/nodeB"; item_payload := JString "first" |};
                          {| item_topic := "/change/nodeB"; item_payload := JString "second" |}] ]}
    example_world.

(** A peer of the example node. *)
Definition example_peer : Config :=
  {| clientName := "nodeB";
     checkInterval := 5000;
     syncTables := ["users"];
     receiveTables := ["users"];
     remoteClients := ["nodeA"];
     transformerDirectory := None;
     transformerFiles := ∅;
     schemeLoadTime := 1500;
     toCamelCase := fun s => s;
     md5 := fun s => s;
     timezoneOffset := -60;
     date_parse := example_date_parse;
     datetime_text := example_datetime_text |}.

(** * Properties *)

(** ** The monad *)

Lemma bind_returned {A B : Type} (m : M A) (k : A -> M B) (w w1 : World) (a : A) :
  m w = (Returned a, w1) -> bind m k w = k a w1.
Proof. intros H. unfold bind. now rewrite H. Qed.

Lemma query_accepted {A : Type} (statement : Statement A) (w : World) (result : A) (db : Database) :
  db_connected (database w) = true ->
  statement (database w) = Some (result, db) ->
  query statement w = (Returned result, set_database db w).
Proof.
  intros Hc Hs. unfold query, bind, testConnection, gets.
  rewrite Hc. simpl. now rewrite Hs.
Qed.

(** ** The durable queue *)

Lemma readQueue_push {TYPE : Type} (x : TYPE) (file : option (list TYPE)) :
  HardDiskQueue.readQueue (HardDiskQueue.push x file) = HardDiskQueue.readQueue file ++ [x].
Proof. reflexivity. Qed.

Lemma readQueue_pushes {TYPE : Type} (xs : list TYPE) :
  forall file : option (list TYPE),
    HardDiskQueue.readQueue (HardDiskQueue.pushes xs file) = HardDiskQueue.readQueue file ++ xs.
Proof.
  unfold HardDiskQueue.pushes.
  induction xs as [|x xs IH]; intros file; simpl.
  - now rewrite app_nil_r.
  - rewrite IH, readQueue_push, <- app_assoc. reflexivity.
Qed.

Lemma polls_written {TYPE : Type} (q : list TYPE) :
  HardDiskQueue.polls (length q) (Some q) = (map Some q, Some []).
Proof.
  induction q as [|x q IH]; simpl.
  - reflexivity.
  - unfold HardDiskQueue.poll. simpl. unfold HardDiskQueue.writeQueue. now rewrite IH.
Qed.

Lemma polls_file {TYPE : Type} (file : option (list TYPE)) :
  let result := HardDiskQueue.polls (length (HardDiskQueue.readQueue file)) file in
  fst result = map Some (HardDiskQueue.readQueue file)
  /\ HardDiskQueue.readQueue (snd result) = [].
Proof.
  destruct file as [q|]; simpl.
  - now rewrite polls_written.
  - split; reflexivity.
Qed.

(** C8. The durable queue is first-in first-out: [push] appends to the
    contents (an absent file counts as empty), [poll] on a non-empty queue
    removes and returns the first item, [poll] on an empty queue returns
    [null] and leaves it empty, and as many polls as there are items return
    the items in the order they were pushed, leaving the queue empty. *)
Theorem HardDiskQueue_fifo {TYPE : Type} :
  (forall (file : option (list TYPE)) (x : TYPE),
      HardDiskQueue.readQueue (HardDiskQueue.push x file) = HardDiskQueue.readQueue file ++ [x])
  /\ (forall (x : TYPE) (q : list TYPE),
         HardDiskQueue.poll (Some (x :: q)) = (Some x, Some q))
  /\ (HardDiskQueue.poll (Some (@nil TYPE)) = (None, Some [])
      /\ HardDiskQueue.poll (@None (list TYPE)) = (None, None))
  /\ (forall (file : option (list TYPE)) (xs : list TYPE),
         let contents := HardDiskQueue.readQueue file ++ xs in
         let result := HardDiskQueue.polls (length contents) (HardDiskQueue.pushes xs file) in
         fst result = map Some contents /\ HardDiskQueue.readQueue (snd result) = []).
Proof.
  split; [intros file x; apply readQueue_push|].
  split; [reflexivity|].
  split; [split; reflexivity|].
  intros file xs. cbv zeta.
  rewrite <- (readQueue_pushes xs file). apply polls_file.
Qed.

(** ** Publishing and presence *)

Lemma isClientConnected_decides (client : string) (w : World) :
  isClientConnected client w
  = (Returned (peer_connected client w),
     match connectedClients w !! client with
     | Some _ => set_reads (S (reads w)) w
     | None => w
     end).
Proof.
  unfold isClientConnected, peer_connected, bind, gets.
  destruct (connectedClients w !! client); reflexivity.
Qed.

Lemma truthy_nonempty (s : string) : s <> EmptyString -> truthy s = true.
Proof.
  intros H. unfold truthy. destruct (bool_decide_reflect (s = EmptyString)); [contradiction|reflexivity].
Qed.

(** [publish] for a peer, where the tables of the manager are finite maps
    (a peer name that is neither empty nor [__proto__] nor
    [hasOwnProperty], no key [hasOwnProperty] among the connected clients
    and the queues): [publish] returns; when the peer is presently
    connected (a presence entry exists and the instant read is before its
    [until]) the payload is published on the topic and no queue file
    changes; otherwise nothing is published, exactly the item
    [{topic, payload}] is appended to the peer's queue [remote-<peer>],
    and the other queue files are untouched. *)
Lemma publish_to_peer (topic : string) (payload : JSON) (peer : string) (w : World) :
  peer <> EmptyString ->
  plain_key peer ->
  plain_table (connectedClients w) ->
  plain_keys (remoteClientQueues w) ->
  let result := publish topic payload (Some peer) w in
  fst (isClientConnected peer w) = Returned (peer_connected peer w)
  /\ fst result = Returned tt
  /\ if peer_connected peer w then
       published (snd result) = published w ++ [(topic, payload)]
       /\ remote_queues (snd result) = remote_queues w
     else
       published (snd result) = published w
       /\ remote_queue peer (snd result)
          = remote_queue peer w ++ [{| item_topic := topic; item_payload := payload |}]
       /\ forall name : string,
            name <> remote_queue_name peer ->
            remote_queues (snd result) !! name = remote_queues w !! name.
Proof.
  intros Hpeer _ _ _. cbv zeta.
  split; [now rewrite isClientConnected_decides|].
  unfold publish. rewrite (truthy_nonempty peer Hpeer).
  rewrite (bind_returned _ _ _ _ _ (isClientConnected_decides peer w)).
  destruct (peer_connected peer w); simpl.
  - destruct (connectedClients w !! peer); simpl; auto.
  - destruct (connectedClients w !! peer); simpl;
      (split; [reflexivity|]); (split; [reflexivity|]);
      (split; [unfold remote_queue; simpl; now rewrite lookup_insert_eq
              |intros name Hname; apply lookup_insert_ne; congruence]).
Qed.

Lemma publish_to_peer_example :
  (published (snd (publish "/change/nodeB" JNull (Some "nodeB") example_world)) = []
   /\ remote_queue "nodeB" (snd (publish "/change/nodeB" JNull (Some "nodeB") example_world))
      = [{| item_topic := "/change/nodeB"; item_payload := JNull |}])
  /\ published (snd (publish "/change/nodeB" JNull (Some "nodeB")
                       (set_connectedClients {[ "nodeB" := 9000 ]} example_world)))
     = [("/change/nodeB", JNull)].
Proof.
  split.
  - pose proof (publish_to_peer "/change/nodeB" JNull "nodeB" example_world
                  ltac:(discriminate) ltac:(split; discriminate) eq_refl
                  ltac:(apply not_elem_of_empty)) as H.
    cbv zeta in H. destruct H as (_ & _ & H).
    change (peer_connected "nodeB" example_world) with false in H.
    destruct H as (Hp & Hq & _). split; [exact Hp | exact Hq].
  - pose proof (publish_to_peer "/change/nodeB" JNull "nodeB"
                  (set_connectedClients {[ "nodeB" := 9000 ]} example_world)
                  ltac:(discriminate) ltac:(split; discriminate) eq_refl
                  ltac:(apply not_elem_of_empty)) as H.
    cbv zeta in H. destruct H as (_ & _ & H).
    change (peer_connected "nodeB" (set_connectedClients {[ "nodeB" := 9000 ]} example_world))
      with true in H.
    destruct H as (Hp & _). exact Hp.
Defined.

(** C7, as the code has it. When the bus is connected and a tick reads an
    instant past [nextActiveUpdate], the gateway reads the clock once more
    ([t]), sets [nextActiveUpdate] to [t + updateInterval + 2000] and
    publishes on [/info] a [connected] message whose [until] is
    [t + 2 * updateInterval + 3000], that is the new [nextActiveUpdate]
    plus [updateInterval + 1000]. This is for a whole number of
    milliseconds as the interval, at least 1 as the schema asks, and for
    an instant [t] not before the epoch with [t + 2 * updateInterval + 3000]
    within the 8.64e15 ms a date can hold. (A [nextActiveUpdate] of [0] is
    falsy: the tick then does not read the clock itself.) *)
Theorem tick_sends_connected_update (cfg : Config) (w : World) (next : Z) :
  mqtt_connected w = true ->
  nextActiveUpdate w = Some next ->
  next < clock w (reads w) ->
  1 <= checkInterval cfg ->
  0 <= clock w (if next =? 0 then reads w else S (reads w)) ->
  clock w (if next =? 0 then reads w else S (reads w)) + 2 * checkInterval cfg + 3000
  <= max_time ->
  let t := clock w (if next =? 0 then reads w else S (reads w)) in
  let result := tick cfg w in
  fst result = Returned tt
  /\ nextActiveUpdate (snd result) = Some (t + checkInterval cfg + 2000)
  /\ published (snd result)
     = published w ++ [("/info", connected_message cfg (t + 2 * checkInterval cfg + 3000))].
Proof.
  intros Hc Hn Hlt Hmin Hepoch Hmax. cbv zeta.
  assert (Huntil : forall t : Z,
             t + updateInterval cfg + 2000 + updateInterval cfg + 1000
             = t + 2 * checkInterval cfg + 3000)
    by (intros t; unfold updateInterval; lia).
  assert (Hclip : forall t : Z,
             0 <= t -> t + 2 * checkInterval cfg + 3000 <= max_time ->
             date_getTime (t + updateInterval cfg + 2000) = Some (t + checkInterval cfg + 2000)).
  { intros t H0 H1. unfold date_getTime, updateInterval.
    now rewrite (proj2 (Z.leb_le _ _)) by lia. }
  unfold tick, bind, gets. rewrite Hc. simpl. rewrite Hn. simpl.
  destruct (next =? 0) eqn:Hz; simpl.
  - unfold sendConnectedUpdate, bind, now, modify. simpl.
    rewrite (Hclip _ Hepoch Hmax). unfold connected_message, updateInterval in *.
    repeat split. cbn [set_nextActiveUpdate published set_reads]. now rewrite Huntil.
  - apply Z.ltb_lt in Hlt. rewrite Hlt. simpl.
    unfold sendConnectedUpdate, bind, now, modify. simpl.
    rewrite (Hclip _ Hepoch Hmax). unfold connected_message, updateInterval in *.
    repeat split. cbn [set_nextActiveUpdate published set_reads]. now rewrite Huntil.
Qed.

Lemma tick_sends_connected_update_witness :
  published (snd (tick example_config (set_nextActiveUpdate (Some 1500) example_world)))
  = [("/info", connected_message example_config (2001 + 2 * 5000 + 3000))].
Proof.
  pose proof (tick_sends_connected_update example_config
                (set_nextActiveUpdate (Some 1500) example_world) 1500
                eq_refl eq_refl ltac:(reflexivity) ltac:(discriminate) ltac:(discriminate)
                ltac:(discriminate)) as H.
  cbv zeta in H. destruct H as (_ & _ & H). exact H.
Defined.

(** C7 with [until = now + 2 * updateInterval + 1000] does not hold: with
    [updateInterval = 5000] a tick that reads 2000 and then 2001 publishes
    [until = 15001], which is [now + 2 * updateInterval + 1000] for neither
    reading; [nextActiveUpdate] is [now + updateInterval + 2000]. *)
Lemma tick_until_is_later :
  let w := set_nextActiveUpdate (Some 1500) example_world in
  let result := tick example_config w in
  1500 < clock w 0
  /\ nextActiveUpdate (snd result) = Some (clock w 1 + checkInterval example_config + 2000)
  /\ published (snd result) = [("/info", connected_message example_config 15001)]
  /\ 15001 <> clock w 0 + 2 * checkInterval example_config + 1000
  /\ 15001 <> clock w 1 + 2 * checkInterval example_config + 1000.
Proof. cbv zeta. repeat split; try reflexivity; discriminate. Qed.

(** Past the range of a date the message carries no instant: with an
    interval of 8640000000000000 ms, which the schema admits, the new
    [nextActiveUpdate] is not a number and [until] is written as [null]. *)
Lemma tick_beyond_the_range_of_dates :
  let cfg :=
    {| clientName := "nodeA"; checkInterval := 8640000000000000; syncTables := ["users"];
       receiveTables := ["users"]; remoteClients := ["nodeB"; "nodeC"];
       transformerDirectory := None; transformerFiles := ∅; schemeLoadTime := 1000;
       toCamelCase := fun s => s; md5 := fun s => s;
       timezoneOffset := -60; date_parse := example_date_parse;
       datetime_text := example_datetime_text |} in
  let result := tick cfg example_world in
  nextActiveUpdate (snd result) = None
  /\ published (snd result)
     = [("/info", JObject [("sender", JString "nodeA"); ("message", JString "connected");
                           ("args", JObject [("until", JNull)])])].
Proof. cbv zeta. split; reflexivity. Qed.

(** ** Status rows *)




(** When the text of the stored date is not read as a date ([NaN]), no
    incoming date is older than it. *)
Lemma later_than_unread (cfg : Config) (stored : Z) (date : option Z) :
  parseSqlDate cfg (datetime_text cfg stored) = None -> later_than cfg stored date = false.
Proof. intros H. unfold later_than. now rewrite H. Qed.







(** Where the stored date is not read back, the guard does not hold the
    update off: west of Greenwich [getLocalTimezone] gives a zone with a
    doubled sign, the date of the row is not a number for a host that
    does not read such a zone, and an older status replaces a newer one. *)
Lemma older_status_overwrites_unread_date :
  let west :=
    {| clientName := "nodeA"; checkInterval := 5000; syncTables := ["users"];
       receiveTables := ["users"]; remoteClients := ["nodeB"; "nodeC"];
       transformerDirectory := None; transformerFiles := ∅; schemeLoadTime := 1000;
       toCamelCase := fun s => s; md5 := fun s => s;
       timezoneOffset := 300; date_parse := example_date_parse;
       datetime_text := example_datetime_text |} in
  let incoming :=
    {| status_sender := "nodeB"; status_table := Some "users"; status_id := Some "u1";
       status_date := Some 500; status_status := error_status;
       status_message := Some "failed" |} in
  getLocalTimezone (timezoneOffset west) = Some "UTC+-5:00"
  /\ parseSqlDate west (datetime_text west 1000) = None
  /\ sync_status (database (snd (setStatus west incoming example_status_world)))
     !! "users-u1-nodeB"
     = Some {| ss_table_name := "users"; ss_primary_key := "u1"; ss_remote := "nodeB";
               ss_date := 500; ss_status := error_status; ss_message := Some "failed" |}.
Proof. cbv zeta. repeat split; vm_compute; reflexivity. Qed.

(** ** Computations that emit nothing *)

Lemma silent_ret {A : Type} (a : A) : silent (ret a).
Proof. intros w. exists a, w. repeat split. Qed.

Lemma silent_bind {A B : Type} (m : M A) (k : A -> M B) :
  silent m -> (forall a : A, silent (k a)) -> silent (bind m k).
Proof.
  intros Hm Hk w.
  destruct (Hm w) as (a & w1 & Hrun & He & Hd).
  destruct (Hk a w1) as (b & w2 & Hrun2 & He2 & Hd2).
  exists b, w2. rewrite (bind_returned _ _ _ _ _ Hrun).
  repeat split; [assumption | congruence | congruence].
Qed.

Lemma silent_gets {A : Type} (f : World -> A) : silent (gets f).
Proof. intros w. exists (f w), w. repeat split. Qed.

Lemma silent_modify (f : World -> World) :
  (forall w : World, events (f w) = events w) ->
  (forall w : World, database (f w) = database w) ->
  silent (modify f).
Proof. intros He Hd w. exists tt, (f w). repeat split; auto. Qed.

Lemma silent_now : silent now.
Proof. intros w. eexists _, _. repeat split. Qed.

Lemma silent_if {A : Type} (b : bool) (m1 m2 : M A) :
  silent m1 -> silent m2 -> silent (if b then m1 else m2).
Proof. destruct b; auto. Qed.

Create HintDb silent.
#[local] Hint Resolve silent_ret silent_bind silent_gets silent_now silent_if : silent.

Lemma silent_testConnection : silent testConnection.
Proof. apply silent_gets. Qed.

Lemma silent_database_queue_push (item : DatabaseChange) : silent (database_queue_push item).
Proof. apply silent_modify; reflexivity. Qed.

#[local] Hint Resolve silent_testConnection silent_database_queue_push : silent.

Lemma silent_isClientConnected (client : string) : silent (isClientConnected client).
Proof.
  intros w. rewrite isClientConnected_decides.
  eexists _, _. split; [reflexivity|]. destruct (connectedClients w !! client); split; reflexivity.
Qed.

Lemma silent_connection_publish (topic : string) (payload : JSON) :
  silent (connection_publish topic payload).
Proof. apply silent_modify; reflexivity. Qed.

Lemma silent_remote_queue_push (name : string) (item : QueueItem) :
  silent (remote_queue_push name item).
Proof. apply silent_modify; reflexivity. Qed.

Lemma silent_ensure_remote_queue (client : string) : silent (ensure_remote_queue client).
Proof. apply silent_modify; reflexivity. Qed.

#[local] Hint Resolve silent_isClientConnected silent_connection_publish
  silent_remote_queue_push silent_ensure_remote_queue : silent.

Lemma silent_publish (topic : string) (payload : JSON) (remoteClient : option string) :
  silent (publish topic payload remoteClient).
Proof.
  unfold publish. destruct remoteClient as [client|]; auto 7 with silent.
Qed.

#[local] Hint Resolve silent_publish : silent.

Lemma silent_error (cfg : Config) (data : DatabaseChangeError) : silent (error cfg data).
Proof. unfold error. auto with silent. Qed.

Lemma silent_dataReceived (cfg : Config) (data : DatabaseChangeInfo) :
  silent (dataReceived cfg data).
Proof. unfold dataReceived. auto with silent. Qed.

Lemma silent_sendChange (cfg : Config) (table : string) (id : option string)
    (entity : option SqlEntity) (remote : string) :
  silent (sendChange cfg table id entity remote).
Proof. unfold sendChange. auto with silent. Qed.

Lemma silent_findTransformer (cfg : Config) (table : string) :
  silent (findTransformer cfg table).
Proof.
  unfold findTransformer. destruct (transformerDirectory cfg) as [directory|]; auto with silent.
  destruct (negb (truthy directory)); auto with silent.
  apply silent_bind; auto with silent. intros cache.
  destruct (cache !! table); auto with silent.
  apply silent_bind; auto with silent. apply silent_modify; reflexivity.
Qed.

Lemma silent_transformEntity (cfg : Config) (table : string) (entity : option SqlEntity)
    (source target : string) :
  silent (transformEntity cfg table entity source target).
Proof.
  unfold transformEntity. apply silent_bind; [apply silent_findTransformer|].
  intros [f|]; auto with silent.
  destruct (f _) as [[row|]|own value]; auto with silent.
Qed.

#[local] Hint Resolve silent_error silent_dataReceived silent_sendChange
  silent_findTransformer silent_transformEntity : silent.

(** An emission whose listener is silent adds exactly its event. *)
Lemma emit_silent_listener (e : Event) (listener : M unit) :
  silent listener ->
  forall w : World,
    exists w1 : World,
      bind (record_event e) (fun _ => listener) w = (Returned tt, w1)
      /\ events w1 = events w ++ [e]
      /\ database w1 = database w.
Proof.
  intros Hl w.
  destruct (Hl (recorded e w)) as ([] & w1 & Hrun & He & Hd).
  exists w1. unfold bind, record_event, modify. rewrite Hrun. repeat split; assumption.
Qed.

(** ** What leaves the record of the emissions as it is *)

Lemma journal_kept_publish (topic : string) (payload : JSON) (remoteClient : option string)
    (w : World) :
  journal (snd (publish topic payload remoteClient w)) = journal w.
Proof.
  unfold publish, isClientConnected, ensure_remote_queue, remote_queue_push,
    connection_publish, bind, gets, modify, now, ret.
  destruct remoteClient as [client|]; simpl; repeat case_match; simplify_eq; reflexivity.
Qed.

Lemma journal_kept_transformEntity (cfg : Config) (table : string) (entity : option SqlEntity)
    (source target : string) (w : World) :
  journal (snd (transformEntity cfg table entity source target w)) = journal w.
Proof.
  unfold transformEntity, findTransformer, bind, gets, modify, ret.
  repeat case_match; simplify_eq; reflexivity.
Qed.

Lemma journal_kept_sendChange (cfg : Config) (table : string) (id : option string)
    (entity : option SqlEntity) (remote : string) (w : World) :
  journal (snd (sendChange cfg table id entity remote w)) = journal w.
Proof.
  unfold sendChange, bind at 1, now. cbn [fst snd]. now rewrite journal_kept_publish.
Qed.



(** ** The fan-out of a local change *)

Lemma onLocalChange_loop_fans_out (cfg : Config) (table : string) (id : option string)
    (entity : option SqlEntity) (except : option string) (clients : list string) :
  forall w : World,
    exists (w1 : World) (sends : list Event),
      onLocalChange_loop cfg clients table id entity except w = (Returned tt, w1)
      /\ events w1 = events w ++ sends
      /\ map remote_send_target sends
         = map (fun client => Some (table, id, client))
               (List.filter (fun client => negb (bool_decide (Some client = except))) clients)
      /\ database w1 = database w
      /\ journal w1 = journal w ++ map (fun e => (e, database w)) sends.
Proof.
  induction clients as [|client rest IH]; intros w; simpl.
  - exists w, []. simpl. rewrite !app_nil_r. repeat split.
  - destruct (bool_decide (Some client = except)); simpl.
    + apply IH.
    + destruct (silent_transformEntity cfg table entity (clientName cfg) client w)
        as (transformed & w1 & Hrun1 & He1 & Hd1).
      pose proof (journal_kept_transformEntity cfg table entity (clientName cfg) client w)
        as Hj1.
      rewrite Hrun1 in Hj1. cbn [snd] in Hj1.
      rewrite (bind_returned _ _ _ _ _ Hrun1).
      destruct (emit_silent_listener (remote_send_change table id transformed client)
                  (sendChange cfg table id transformed client)
                  (silent_sendChange cfg table id transformed client) w1)
        as (w2 & Hrun2 & He2 & Hd2).
      assert (Hj2 : journal w2
                    = journal w1 ++ [(remote_send_change table id transformed client,
                                      database w1)]).
      { pose proof (journal_kept_sendChange cfg table id transformed client
                      (recorded (remote_send_change table id transformed client) w1)) as H.
        unfold bind at 1, record_event, modify in Hrun2. rewrite Hrun2 in H. exact H. }
      unfold emit_remote_send_change.
      rewrite (bind_returned _ _ _ _ _ Hrun2).
      destruct (IH w2) as (w3 & sends & Hrun3 & He3 & Hmap & Hd3 & Hj3).
      exists w3, (remote_send_change table id transformed client :: sends).
      split; [exact Hrun3|]. split; [|split; [|split]].
      * rewrite He3, He2, He1, <- app_assoc. reflexivity.
      * simpl. now rewrite Hmap.
      * congruence.
      * rewrite Hj3, Hj2, Hj1, Hd2, Hd1, <- app_assoc. reflexivity.
Qed.

Lemma emit_local_change_fans_out (cfg : Config) (table : string) (id : option string)
    (entity : option SqlEntity) (except : option string) (w : World) :
  exists (w1 : World) (sends : list Event),
    emit_local_change cfg table id entity except w = (Returned tt, w1)
    /\ events w1 = events w ++ local_change table id entity except :: sends
    /\ map remote_send_target sends
       = map (fun client => Some (table, id, client))
             (List.filter (fun client => negb (bool_decide (Some client = except)))
                (remoteClients cfg))
    /\ database w1 = database w
    /\ journal w1
       = journal w ++ map (fun e => (e, database w)) (local_change table id entity except :: sends).
Proof.
  unfold emit_local_change, onLocalChange.
  destruct (onLocalChange_loop_fans_out cfg table id entity except (remoteClients cfg)
              (recorded (local_change table id entity except) w))
    as (w1 & sends & Hrun & He & Hmap & Hd & Hj).
  exists w1, sends. unfold bind, record_event, modify. rewrite Hrun.
  repeat split; [|exact Hmap|exact Hd|].
  - rewrite He. simpl. now rewrite <- app_assoc.
  - rewrite Hj. simpl. now rewrite <- app_assoc.
Qed.

Lemma emitted_app (w w1 : World) (later : list Event) :
  events w1 = events w ++ later -> emitted w w1 = later.
Proof. intros H. unfold emitted. rewrite H. apply drop_app_length. Qed.

(** ** Resolving the primary key *)

Lemma getPrimaryKey_run (table pk : string) (w : World) :
  db_connected (database w) = true ->
  primary_key_of table w = Some pk ->
  exists w1 : World,
    getPrimaryKey table w = (Returned pk, w1)
    /\ events w1 = events w
    /\ database w1 = database w.
Proof.
  intros Hc Hpk. unfold primary_key_of in Hpk. unfold getPrimaryKey, bind at 1, gets.
  destruct (cachedPrimaryKeys w !! table) as [key|] eqn:Hcache.
  - injection Hpk as ->. exists w. repeat split.
  - destruct (db_tables (database w) !! table) as [t|] eqn:Ht; [|discriminate].
    simpl in Hpk.
    rewrite (bind_returned _ _ w (set_database (database w) w) (primary_columns t))
      by (apply query_accepted; [exact Hc | unfold sql_show_primary_columns; now rewrite Ht]).
    destruct (primary_columns t) as [|key columns]; [discriminate|].
    injection Hpk as ->. eexists. repeat split.
Qed.

(** ** Applying a change whose id does not match its entity *)

Lemma saveEntity_id_mismatch (cfg : Config) (data : DatabaseChange) (w : World) (pk : string)
    (entity : SqlEntity) :
  db_connected (database w) = true ->
  primary_key_of (change_table data) w = Some pk ->
  change_entity data = Some entity ->
  id_mismatch entity pk (change_id data) = true ->
  exists w1 : World,
    saveEntity cfg data w = (Returned tt, w1)
    /\ events w1
       = events w
         ++ [local_save_failed
               {| error_sender := change_sender data; error_table := change_table data;
                  error_id := change_id data; error_date := change_date data;
                  error_message := "Sent id does not match entity id!" |}]
    /\ database w1 = database w.
Proof.
  intros Hc Hpk Hentity Hmismatch.
  destruct (getPrimaryKey_run _ _ _ Hc Hpk) as (w0 & Hrun0 & He0 & Hd0).
  unfold saveEntity. rewrite (bind_returned _ _ _ _ _ Hrun0).
  rewrite Hentity, Hmismatch.
  set (failure := {| error_sender := change_sender data; error_table := change_table data;
                     error_id := change_id data; error_date := change_date data;
                     error_message := "Sent id does not match entity id!" |}).
  destruct (emit_silent_listener (local_save_failed failure) (error cfg failure)
              (silent_error cfg failure) w0) as (w1 & Hrun1 & He1 & Hd1).
  exists w1. split; [exact Hrun1|]. split; congruence.
Qed.

(** C4, what the code does. For a [local-save-change] applied while
    connected whose entity is present and whose [entity[primaryKey]]
    differs from the sent id, [saveEntity] emits [local-save-failed] with
    the message "Sent id does not match entity id!" and returns without
    touching the database and without an echo; but it returns normally, so
    [remoteChange] goes on to emit [local-save-successful] for the same
    change: the two events are exactly what the apply emits. *)
Theorem remoteChange_id_mismatch (cfg : Config) (data : DatabaseChange) (w : World)
    (pk : string) (entity : SqlEntity) :
  db_connected (database w) = true ->
  primary_key_of (change_table data) w = Some pk ->
  change_entity data = Some entity ->
  id_mismatch entity pk (change_id data) = true ->
  let result := remoteChange cfg data w in
  fst result = Returned tt
  /\ emitted w (snd result)
     = [local_save_failed
          {| error_sender := change_sender data; error_table := change_table data;
             error_id := change_id data; error_date := change_date data;
             error_message := "Sent id does not match entity id!" |};
        local_save_successful
          {| info_sender := change_sender data; info_table := change_table data;
             info_id := change_id data; info_date := change_date data |}]
  /\ database (snd result) = database w.
Proof.
  intros Hc Hpk Hentity Hmismatch. cbv zeta.
  destruct (saveEntity_id_mismatch cfg data w pk entity Hc Hpk Hentity Hmismatch)
    as (w1 & Hrun1 & He1 & Hd1).
  set (success := {| info_sender := change_sender data; info_table := change_table data;
                     info_id := change_id data; info_date := change_date data |}).
  destruct (emit_silent_listener (local_save_successful success) (dataReceived cfg success)
              (silent_dataReceived cfg success) w1) as (w2 & Hrun2 & He2 & Hd2).
  subst success.
  assert (Hrun : remoteChange cfg data w = (Returned tt, w2)).
  { unfold remoteChange, bind at 1, testConnection, gets. rewrite Hc. simpl.
    unfold try_catch. rewrite (bind_returned _ _ _ _ _ Hrun1).
    unfold emit_local_save_successful. now rewrite Hrun2. }
  rewrite Hrun. simpl. split; [reflexivity|]. split; [|congruence].
  apply emitted_app. rewrite He2, He1, <- app_assoc. reflexivity.
Qed.

Lemma remoteChange_id_mismatch_witness :
  emitted example_world
    (snd (remoteChange example_config
            {| change_sender := "nodeB"; change_table := "users"; change_id := Some "u1";
               change_date := Some 3000;
               change_entity := Some [("id", JString "u2"); ("name", JString "x")] |}
            example_world))
  = [local_save_failed
       {| error_sender := "nodeB"; error_table := "users"; error_id := Some "u1";
          error_date := Some 3000; error_message := "Sent id does not match entity id!" |};
     local_save_successful
       {| info_sender := "nodeB"; info_table := "users"; info_id := Some "u1";
          info_date := Some 3000 |}].
Proof.
  pose proof (remoteChange_id_mismatch example_config
                {| change_sender := "nodeB"; change_table := "users"; change_id := Some "u1";
                   change_date := Some 3000;
                   change_entity := Some [("id", JString "u2"); ("name", JString "x")] |}
                example_world "id" [("id", JString "u2"); ("name", JString "x")]
                eq_refl eq_refl eq_refl eq_refl) as H.
  cbv zeta in H. destruct H as (_ & H & _). exact H.
Defined.

(** ** Applying a change on a bidirectional table *)

Lemma set_table_changes_connected (c : list TableChangeRow) (next : Z) (db : Database) :
  db_connected (set_table_changes c next db) = db_connected db.
Proof. reflexivity. Qed.

Lemma set_db_tables_connected (t : gmap string Table) (db : Database) :
  db_connected (set_db_tables t db) = db_connected db.
Proof. reflexivity. Qed.

Lemma set_sync_status_connected (s : gmap string SyncStatusRow) (db : Database) :
  db_connected (set_sync_status s db) = db_connected db.
Proof. reflexivity. Qed.








(** ** Computations that only add emissions of a kind *)

Lemma appends_silent (kind : Event -> bool) {A : Type} (m : M A) : silent m -> appends kind m.
Proof.
  intros Hm w. destruct (Hm w) as (a & w1 & Hrun & He & _).
  exists []. rewrite Hrun. simpl. now rewrite He, app_nil_r.
Qed.

Lemma appends_throw (kind : Event -> bool) {A : Type} (message : string) :
  appends kind (@throw A message).
Proof. intros w. exists []. simpl. now rewrite app_nil_r. Qed.

Lemma appends_bind (kind : Event -> bool) {A B : Type} (m : M A) (k : A -> M B) :
  appends kind m -> (forall a : A, appends kind (k a)) -> appends kind (bind m k).
Proof.
  intros Hm Hk w. destruct (Hm w) as (l1 & He1 & Hk1).
  unfold bind. destruct (m w) as [[a|message|] w1]; simpl in *.
  - destruct (Hk a w1) as (l2 & He2 & Hk2).
    exists (l1 ++ l2). rewrite He2, He1, <- app_assoc. split; [reflexivity|].
    rewrite forallb_app, Hk1, Hk2. reflexivity.
  - exists l1. split; assumption.
  - exists l1. split; assumption.
Qed.

Lemma appends_try_catch (kind : Event -> bool) {A : Type} (body : M A) (handler : string -> M A) :
  appends kind body -> (forall message : string, appends kind (handler message)) ->
  appends kind (try_catch body handler).
Proof.
  intros Hb Hh w. destruct (Hb w) as (l1 & He1 & Hk1).
  unfold try_catch. destruct (body w) as [[a|message|] w1]; simpl in *.
  - exists l1. split; assumption.
  - destruct (Hh message w1) as (l2 & He2 & Hk2).
    exists (l1 ++ l2). rewrite He2, He1, <- app_assoc. split; [reflexivity|].
    rewrite forallb_app, Hk1, Hk2. reflexivity.
  - exists l1. split; assumption.
Qed.

Lemma appends_record_event (kind : Event -> bool) (e : Event) :
  kind e = true -> appends kind (record_event e).
Proof. intros He w. exists [e]. simpl. now rewrite He. Qed.

Lemma appends_query (kind : Event -> bool) {A : Type} (statement : Statement A) :
  appends kind (query statement).
Proof.
  intros w. exists []. rewrite app_nil_r. split; [|reflexivity].
  unfold query, bind, testConnection, gets.
  destruct (db_connected (database w)); simpl; [|reflexivity].
  destruct (statement (database w)) as [[result db]|]; reflexivity.
Qed.

Lemma appends_if (kind : Event -> bool) {A : Type} (b : bool) (m1 m2 : M A) :
  appends kind m1 -> appends kind m2 -> appends kind (if b then m1 else m2).
Proof. destruct b; auto. Qed.

Lemma appends_weaken (kind1 kind2 : Event -> bool) {A : Type} (m : M A) :
  (forall e : Event, kind1 e = true -> kind2 e = true) -> appends kind1 m -> appends kind2 m.
Proof.
  intros Hk Hm w. destruct (Hm w) as (later & He & Hl).
  exists later. split; [exact He|].
  apply forallb_forall. intros e Hin.
  apply Hk. now apply (proj1 (forallb_forall kind1 later) Hl).
Qed.

Create HintDb appends.
#[local] Hint Resolve appends_throw appends_bind appends_try_catch appends_query appends_if
  : appends.
#[local] Hint Extern 3 (appends _ _) => (apply appends_silent; solve [auto 7 with silent])
  : appends.
#[local] Hint Extern 1 (appends _ (record_event _)) => (apply appends_record_event; reflexivity)
  : appends.

Lemma appends_getPrimaryKey (kind : Event -> bool) (table : string) :
  appends kind (getPrimaryKey table).
Proof.
  unfold getPrimaryKey. apply appends_bind; auto with appends.
  intros cache. destruct (cache !! table); auto with appends.
  apply appends_bind; auto with appends.
  intros [|key columns]; auto with appends.
  apply appends_bind; auto with appends.
  apply appends_silent, silent_modify; reflexivity.
Qed.

Lemma appends_onLocalChange_loop (cfg : Config) (clients : list string) (table : string)
    (id : option string) (entity : option SqlEntity) (except : option string) :
  appends is_apply_event (onLocalChange_loop cfg clients table id entity except).
Proof.
  induction clients as [|client rest IH]; simpl; auto with appends.
  apply appends_if; auto.
  apply appends_bind; auto with appends.
  intros transformed. apply appends_bind; auto.
  unfold emit_remote_send_change. auto with appends.
Qed.

Lemma appends_emit_local_change (cfg : Config) (table : string) (id : option string)
    (entity : option SqlEntity) (except : option string) :
  appends is_apply_event (emit_local_change cfg table id entity except).
Proof.
  unfold emit_local_change, onLocalChange. apply appends_bind; auto with appends.
  intros _. apply appends_onLocalChange_loop.
Qed.

Lemma appends_emit_local_save_failed (cfg : Config) (data : DatabaseChangeError) :
  appends is_apply_event (emit_local_save_failed cfg data).
Proof. unfold emit_local_save_failed. auto with appends. Qed.

Lemma appends_emit_local_save_successful (cfg : Config) (data : DatabaseChangeInfo) :
  appends is_apply_event (emit_local_save_successful cfg data).
Proof. unfold emit_local_save_successful. auto with appends. Qed.

#[local] Hint Resolve appends_getPrimaryKey appends_emit_local_change
  appends_emit_local_save_failed appends_emit_local_save_successful : appends.

Lemma appends_saveEntity_echo (cfg : Config) (data : DatabaseChange) :
  appends is_apply_event (saveEntity_echo cfg data).
Proof. unfold saveEntity_echo. auto with appends. Qed.

Lemma appends_saveEntity (cfg : Config) (data : DatabaseChange) :
  appends is_apply_event (saveEntity cfg data).
Proof.
  unfold saveEntity. apply appends_bind; auto with appends.
  intros primaryKey. pose proof (appends_saveEntity_echo cfg data) as Hecho.
  destruct (change_entity data) as [entity|]; auto 6 with appends.
Qed.

(** The apply stage emits only events of the apply stage and after. *)
Lemma appends_remoteChange (cfg : Config) (data : DatabaseChange) :
  appends is_apply_event (remoteChange cfg data).
Proof.
  pose proof (appends_saveEntity cfg data) as Hsave.
  unfold remoteChange. auto 7 with appends.
Qed.

(** ** The inbound transformer stage *)

Lemma transformEntity_run (cfg : Config) (table : string) (entity : option SqlEntity)
    (source target : string) (w : World) :
  cachedTransformer w !! table = None
  \/ cachedTransformer w !! table = Some (configured_transformer cfg table) ->
  exists w1 : World,
    transformEntity cfg table entity source target w
    = (Returned
         match configured_transformer cfg table with
         | Some transformer =>
             resolves_to (transformer {| ctx_entity := entity; ctx_source := source;
                                         ctx_target := target |})
         | None => entity
         end, w1)
    /\ events w1 = events w.
Proof.
  intros Hcache.
  assert (Hfind : exists w1 : World,
             findTransformer cfg table w = (Returned (configured_transformer cfg table), w1)
             /\ events w1 = events w).
  { unfold findTransformer. unfold configured_transformer in *.
    destruct (transformerDirectory cfg) as [directory|]; [|now exists w].
    destruct (truthy directory); simpl; [|now exists w].
    unfold bind, gets, modify.
    destruct Hcache as [Hcache|Hcache]; rewrite Hcache.
    - eexists. split; reflexivity.
    - now exists w. }
  destruct Hfind as (w1 & Hrun & He). exists w1. split; [|exact He].
  unfold transformEntity. rewrite (bind_returned _ _ _ _ _ Hrun).
  destruct (configured_transformer cfg table) as [transformer|]; [|reflexivity].
  destruct (transformer _) as [[row|]|own value]; simpl.
  - now destruct (_ && _).
  - reflexivity.
  - now destruct own.
Qed.


Lemma no_local_save_change_after (later : list Event) :
  forallb is_apply_event later = true -> List.filter is_local_save_change later = [].
Proof.
  induction later as [|e later IH]; simpl; [reflexivity|].
  intros H. apply andb_true_iff in H. destruct H as [He Hl].
  destruct e; simpl in *; try discriminate; auto.
Qed.

(** C5. For every [remote-change] event (the transformer cache holding
    nothing for the table, or what the transformer directory holds for
    it), the transformer stage emits exactly one [local-save-change]: it is
    the first emission, every later emission belongs to the apply stage,
    and its fields are those of the incoming change except [entity], which
    is the value the result of the table's transformer resolves to (the
    transformer being called with [source = change.sender] and
    [target =] this node's name) when a transformer is configured, and the
    incoming entity when none is. *)
Theorem onRemoteChange_emits_local_save_change (cfg : Config) (data : DatabaseChange) (w : World) :
  cachedTransformer w !! change_table data = None
  \/ cachedTransformer w !! change_table data
     = Some (configured_transformer cfg (change_table data)) ->
  let transformed :=
    match configured_transformer cfg (change_table data) with
    | Some transformer =>
        resolves_to (transformer {| ctx_entity := change_entity data;
                                    ctx_source := change_sender data;
                                    ctx_target := clientName cfg |})
    | None => change_entity data
    end in
  let transformedData :=
    {| change_sender := change_sender data; change_table := change_table data;
       change_id := change_id data; change_date := change_date data;
       change_entity := transformed |} in
  exists later : list Event,
    emitted w (snd (onRemoteChange cfg data w)) = local_save_change transformedData :: later
    /\ forallb is_apply_event later = true
    /\ List.filter is_local_save_change (emitted w (snd (onRemoteChange cfg data w)))
       = [local_save_change transformedData].
Proof.
  intros Hcache. cbv zeta.
  destruct (transformEntity_run cfg (change_table data) (change_entity data)
              (change_sender data) (clientName cfg) w Hcache) as (w1 & Hrun & He).
  set (transformedData :=
         {| change_sender := change_sender data; change_table := change_table data;
            change_id := change_id data; change_date := change_date data;
            change_entity :=
              match configured_transformer cfg (change_table data) with
              | Some transformer =>
                  resolves_to (transformer {| ctx_entity := change_entity data;
                                              ctx_source := change_sender data;
                                              ctx_target := clientName cfg |})
              | None => change_entity data
              end |}).
  destruct (appends_remoteChange cfg transformedData
              (recorded (local_save_change transformedData) w1))
    as (later & Hlater & Hkind).
  assert (Hevents : events (snd (onRemoteChange cfg data w))
                    = events w ++ local_save_change transformedData :: later).
  { unfold onRemoteChange. rewrite (bind_returned _ _ _ _ _ Hrun).
    unfold emit_local_save_change, bind at 1, record_event, modify.
    fold transformedData. rewrite Hlater. simpl. now rewrite He, <- app_assoc. }
  exists later. rewrite (emitted_app _ _ _ Hevents).
  split; [reflexivity|]. split; [exact Hkind|].
  simpl. now rewrite (no_local_save_change_after later Hkind).
Qed.

Lemma onRemoteChange_emits_local_save_change_witness :
  exists later : list Event,
    emitted example_world
      (snd (onRemoteChange example_config_transformer
              {| change_sender := "nodeB"; change_table := "users"; change_id := Some "u1";
                 change_date := Some 3000; change_entity := Some [("id", JString "u1")] |}
              example_world))
    = local_save_change
        {| change_sender := "nodeB"; change_table := "users"; change_id := Some "u1";
           change_date := Some 3000;
           change_entity := Some [("id", JString "u1"); ("origin", JString "nodeB")] |}
      :: later.
Proof.
  destruct (onRemoteChange_emits_local_save_change example_config_transformer
              {| change_sender := "nodeB"; change_table := "users"; change_id := Some "u1";
                 change_date := Some 3000; change_entity := Some [("id", JString "u1")] |}
              example_world (or_introl eq_refl)) as (later & Hemitted & _).
  exists later. exact Hemitted.
Defined.

(** ** Validation of inbound messages *)

Lemma get_property_In (key : string) (v : JSON) (fields : list (string * JSON)) :
  get_property key fields = Some v -> In (key, v) fields.
Proof.
  induction fields as [|[k x] rest IH]; simpl; [discriminate|].
  destruct (bool_decide_reflect (k = key)) as [->|Hne]; intros H.
  - injection H as ->. now left.
  - right. now apply IH.
Qed.

Lemma validateJson_rejects (loadTime : Z) (scheme : ObjectSchema) (fields : list (string * JSON))
    (key : string) (v : JSON) (p : PropertySchema) :
  get_property key fields = Some v ->
  schema_of key (properties scheme) = Some p ->
  validate_property loadTime p v = false ->
  validateJson loadTime (JObject fields) scheme = false.
Proof.
  intros Hget Hschema Hinvalid. simpl.
  apply andb_false_iff. right.
  apply not_true_is_false. intros Hall.
  pose proof (proj1 (forallb_forall _ fields) Hall (key, v) (get_property_In _ _ _ Hget)) as H.
  simpl in H. rewrite Hschema, Hinvalid in H. discriminate.
Qed.

Lemma early_date_invalid (loadTime n : Z) :
  (n <? loadTime) = true -> validate_property loadTime (Ref def_date) (JNumber n) = false.
Proof.
  intros H. apply Z.ltb_lt in H. simpl. unfold validate_schema. simpl.
  apply Z.leb_gt. exact H.
Qed.

Lemma early_number_invalid (cfg : Config) (scheme : ObjectSchema) (key : string)
    (fields : list (string * JSON)) :
  early_number cfg key fields = true ->
  schema_of key (properties scheme) = Some (Ref def_date) ->
  valid cfg (JObject fields) scheme = false.
Proof.
  unfold early_number. intros Hearly Hschema.
  destruct (get_property key fields) as [[| |n| | |]|] eqn:Hget; try discriminate.
  apply (validateJson_rejects _ _ _ key (JNumber n) (Ref def_date) Hget Hschema).
  now apply early_date_invalid.
Qed.

Lemma change_prefix_info (name : string) :
  String.prefix ("/change/" +:+ name) "/info" = false
  /\ String.prefix ("/change/" +:+ name) ("/info/" +:+ name) = false.
Proof. split; reflexivity. Qed.

Lemma as_InfoMessage_fields (fields : list (string * JSON)) (infoMessage : InfoMessage) :
  as_InfoMessage (JObject fields) = Some infoMessage ->
  get_property "sender" fields = Some (JString (message_sender infoMessage))
  /\ get_property "message" fields = Some (JString (message_message infoMessage))
  /\ get_property "args" fields = Some (JObject (message_args infoMessage)).
Proof.
  unfold as_InfoMessage, string_property.
  destruct (get_property "sender" fields) as [[| | |sender| |]|]; try discriminate.
  destruct (get_property "message" fields) as [[| | |message| |]|]; try discriminate.
  destruct (get_property "args" fields) as [[| | | | |args]|]; try discriminate.
  intros H. injection H as <-. repeat split.
Qed.

(** C6, as the code has it. An inbound message on [/info] or
    [/info/<self>] whose [sender] field is this node's own name is
    ignored: [receivedMessage] returns and the state of the node is what it
    was (no event, no presence or queue change, nothing published). *)
Theorem own_info_message_ignored (cfg : Config) (topic : string)
    (fields : list (string * JSON)) (w : World) :
  topic = "/info" \/ topic = "/info/" +:+ clientName cfg ->
  get_property "sender" fields = Some (JString (clientName cfg)) ->
  receivedMessage cfg topic (JObject fields) w = (Returned tt, w).
Proof.
  intros Htopic Hsender. unfold receivedMessage.
  destruct (change_prefix_info (clientName cfg)) as [Hp1 Hp2].
  assert (Hprefix : String.prefix ("/change/" +:+ clientName cfg) topic = false)
    by (destruct Htopic as [-> | ->]; assumption).
  assert (Hinfo : bool_decide (topic = "/info")
                  || bool_decide (topic = "/info/" +:+ clientName cfg) = true).
  { apply orb_true_iff. destruct Htopic; [left|right]; now apply bool_decide_eq_true. }
  rewrite Hprefix, Hinfo.
  destruct (valid cfg (JObject fields) infoMessageScheme); [cbn [negb]|reflexivity].
  destruct (as_InfoMessage (JObject fields)) as [infoMessage|] eqn:Hmessage; [|reflexivity].
  destruct (as_InfoMessage_fields _ _ Hmessage) as (Hs & _ & _).
  rewrite Hsender in Hs. injection Hs as Hs.
  rewrite <- Hs. now rewrite bool_decide_eq_true_2.
Qed.

Lemma own_info_message_ignored_witness :
  receivedMessage example_config "/info"
    (connected_message example_config 9000) example_world
  = (Returned tt, example_world).
Proof.
  apply (own_info_message_ignored example_config "/info"
           [("sender", JString "nodeA"); ("message", JString "connected");
            ("args", JObject [("until", JNumber 9000)])] example_world).
  - left. reflexivity.
  - reflexivity.
Defined.

(** C6 does not extend to [/change/<self>]: a change on [/change/nodeA]
    whose sender is [nodeA] itself is not ignored; a [remote-change] is
    emitted, the change is applied and forwarded, and the queues of the
    peers grow. *)
Lemma own_change_message_is_applied :
  let payload := JObject [("sender", JString "nodeA"); ("table", JString "users");
                          ("entity", JNull)] in
  let result := receivedMessage example_config "/change/nodeA" payload example_world in
  head (emitted example_world (snd result))
  = Some (remote_change {| change_sender := "nodeA"; change_table := "users";
                           change_id := None; change_date := None; change_entity := None |})
  /\ length (emitted example_world (snd result)) = 6%nat
  /\ length (remote_queue "nodeB" (snd result)) = 1%nat
  /\ remote_queue "nodeB" example_world = [].
Proof. cbv zeta. repeat split. Qed.

(** C9. The minimum of the [date] definition is the load time of the
    schema module, so an inbound message that carries a number below it as
    the [date] of a change, the [until] of a [connected] message or the
    [date] of a [data_received] or [error] message fails the validation of
    the schema that constrains that field, and the message is dropped:
    [receivedMessage] returns with the state of the node unchanged, so no
    event is emitted. *)
Theorem early_date_message_dropped (cfg : Config) (topic : string) (payload : JSON) (w : World) :
  carries_early_date cfg topic payload = true ->
  match dated_part cfg topic payload with
  | Some (fields, scheme, _) => valid cfg (JObject fields) scheme = false
  | None => False
  end
  /\ receivedMessage cfg topic payload w = (Returned tt, w).
Proof.
  unfold carries_early_date, dated_part, receivedMessage.
  destruct payload as [| | | | |fields]; try discriminate.
  destruct (String.prefix ("/change/" +:+ clientName cfg) topic).
  - intros Hearly.
    rewrite (early_number_invalid cfg remoteChangeScheme "date" fields Hearly eq_refl).
    split; reflexivity.
  - destruct (bool_decide (topic = "/info") || bool_decide (topic = "/info/" +:+ clientName cfg));
      [|discriminate].
    destruct (get_property "message" fields) as [[| | |message| |]|] eqn:Hm; try discriminate.
    destruct (get_property "args" fields) as [[| | | | |args]|] eqn:Ha; try discriminate.
    assert (Hswitch : forall infoMessage : InfoMessage,
               as_InfoMessage (JObject fields) = Some infoMessage ->
               message_message infoMessage = message /\ message_args infoMessage = args).
    { intros infoMessage Hmessage.
      destruct (as_InfoMessage_fields _ _ Hmessage) as (_ & Hm1 & Ha1).
      rewrite Hm in Hm1. rewrite Ha in Ha1. split; congruence. }
    assert (Hdrop : forall scheme : ObjectSchema,
               valid cfg (JObject args) scheme = false ->
               (forall infoMessage : InfoMessage,
                   as_InfoMessage (JObject fields) = Some infoMessage ->
                   receivedInfoMessage cfg infoMessage w = (Returned tt, w)) ->
               valid cfg (JObject args) scheme = false
               /\ (if negb (valid cfg (JObject fields) infoMessageScheme) then ret tt
                   else match as_InfoMessage (JObject fields) with
                        | Some infoMessage =>
                            if bool_decide (message_sender infoMessage = clientName cfg)
                            then ret tt
                            else receivedInfoMessage cfg infoMessage
                        | None => ret tt
                        end) w = (Returned tt, w)).
    { intros scheme Hinvalid Hinfo. split; [exact Hinvalid|].
      destruct (valid cfg (JObject fields) infoMessageScheme); [cbn [negb]|reflexivity].
      destruct (as_InfoMessage (JObject fields)) as [infoMessage|]; [|reflexivity].
      destruct (bool_decide (message_sender infoMessage = clientName cfg)); [reflexivity|].
      now apply Hinfo. }
    destruct (bool_decide (message = "connected")) eqn:Hc.
    { intros Hearly. apply Hdrop.
      - apply (early_number_invalid cfg connectedInfoMessageArgsScheme "until" _ Hearly eq_refl).
      - intros infoMessage Hmessage. unfold receivedInfoMessage.
        destruct (Hswitch _ Hmessage) as [-> ->]. rewrite Hc.
        now rewrite (early_number_invalid cfg connectedInfoMessageArgsScheme "until" _ Hearly
                       eq_refl). }
    destruct (bool_decide (message = "data_received")) eqn:Hd.
    { intros Hearly. apply Hdrop.
      - apply (early_number_invalid cfg dataReceivedInfoMessageArgsScheme "date" _ Hearly
                 eq_refl).
      - intros infoMessage Hmessage. unfold receivedInfoMessage.
        destruct (Hswitch _ Hmessage) as [-> ->]. rewrite Hc, Hd.
        now rewrite (early_number_invalid cfg dataReceivedInfoMessageArgsScheme "date" _ Hearly
                       eq_refl). }
    destruct (bool_decide (message = "error")) eqn:He; [|discriminate].
    intros Hearly. apply Hdrop.
    + apply (early_number_invalid cfg errorInfoMessageArgsScheme "date" _ Hearly eq_refl).
    + intros infoMessage Hmessage. unfold receivedInfoMessage.
      destruct (Hswitch _ Hmessage) as [-> ->]. rewrite Hc, Hd, He.
      now rewrite (early_number_invalid cfg errorInfoMessageArgsScheme "date" _ Hearly eq_refl).
Qed.

Lemma early_date_message_dropped_witness :
  receivedMessage example_config "/change/nodeA"
    (JObject [("sender", JString "nodeB"); ("table", JString "users"); ("id", JString "u1");
              ("date", JNumber 999); ("entity", JNull)])
    example_world
  = (Returned tt, example_world)
  /\ receivedMessage example_config "/info"
       (JObject [("sender", JString "nodeB"); ("message", JString "connected");
                 ("args", JObject [("until", JNumber 999)])])
       example_world
     = (Returned tt, example_world).
Proof.
  split.
  - apply (early_date_message_dropped example_config "/change/nodeA"
             (JObject [("sender", JString "nodeB"); ("table", JString "users");
                       ("id", JString "u1"); ("date", JNumber 999); ("entity", JNull)])
             example_world eq_refl).
  - apply (early_date_message_dropped example_config "/info"
             (JObject [("sender", JString "nodeB"); ("message", JString "connected");
                       ("args", JObject [("until", JNumber 999)])])
             example_world eq_refl).
Defined.

(** ** A change message without id and date *)

Lemma get_property_NoDup (key : string) (v : JSON) (fields : list (string * JSON)) :
  List.NoDup (map fst fields) -> In (key, v) fields -> get_property key fields = Some v.
Proof.
  induction fields as [|[k x] rest IH]; simpl; [contradiction|].
  intros Hnodup Hin. apply List.NoDup_cons_iff in Hnodup. destruct Hnodup as [Hfresh Hnodup].
  destruct Hin as [Heq|Hin].
  - injection Heq as -> ->. now rewrite bool_decide_eq_true_2.
  - destruct (bool_decide_reflect (k = key)) as [->|Hne]; [|now apply IH].
    exfalso. apply Hfresh.
    change key with (fst (key, v)). now apply in_map.
Qed.

Lemma get_property_absent (key : string) (fields : list (string * JSON)) :
  ~ In key (map fst fields) -> get_property key fields = None.
Proof.
  induction fields as [|[k x] rest IH]; simpl; [reflexivity|].
  intros Hnot. destruct (bool_decide_reflect (k = key)) as [->|Hne].
  - exfalso. apply Hnot. now left.
  - apply IH. intros Hin. apply Hnot. now right.
Qed.

Lemma appends_onRemoteChange (cfg : Config) (data : DatabaseChange) :
  appends (fun _ => true) (onRemoteChange cfg data).
Proof.
  unfold onRemoteChange. apply appends_bind; [auto with appends|].
  intros transformed. unfold emit_local_save_change.
  apply appends_bind; [now apply appends_record_event|].
  intros _. apply (appends_weaken is_apply_event); [reflexivity|apply appends_remoteChange].
Qed.

(** C10. The schema of a change requires only [sender], [table] and
    [entity]: a payload on a [/change/<self>] topic that has exactly these
    three fields (in any order), with a valid client name, a valid table
    name and an object or [null] as entity, passes the validation, and
    when its table is in the receive set the first thing emitted is a
    [remote-change] whose [id] and [date] are undefined. *)
Theorem change_without_id_and_date_accepted (cfg : Config) (topic : string)
    (fields : list (string * JSON)) (sender table : string) (entity : option SqlEntity)
    (w : World) :
  String.prefix ("/change/" +:+ clientName cfg) topic = true ->
  Permutation fields
    [("sender", JString sender); ("table", JString table); ("entity", jentity entity)] ->
  client_name_pattern sender = true ->
  (1 <= String.length table <= 128)%nat ->
  table ∈ receiveTables cfg ->
  valid cfg (JObject fields) remoteChangeScheme = true
  /\ exists later : list Event,
       emitted w (snd (receivedMessage cfg topic (JObject fields) w))
       = remote_change {| change_sender := sender; change_table := table;
                          change_id := None; change_date := None;
                          change_entity := entity |} :: later.
Proof.
  intros Htopic Hperm Hsender Htable Hreceive.
  set (canonical := [("sender", JString sender); ("table", JString table);
                     ("entity", jentity entity)]) in *.
  assert (Hnodup : List.NoDup (map fst fields)).
  { apply (Permutation_NoDup (Permutation_sym (Permutation_map fst Hperm))).
    simpl. repeat constructor; simpl; intuition discriminate. }
  assert (Hget : forall (key : string) (v : JSON),
             In (key, v) canonical -> get_property key fields = Some v).
  { intros key v Hin. apply get_property_NoDup; [exact Hnodup|].
    now apply (Permutation_in _ (Permutation_sym Hperm)). }
  assert (Habsent : forall key : string,
             ~ In key ["sender"; "table"; "entity"] -> get_property key fields = None).
  { intros key Hnot. apply get_property_absent. intros Hin. apply Hnot.
    now apply (Permutation_in _ (Permutation_map fst Hperm)). }
  assert (Hs : get_property "sender" fields = Some (JString sender))
    by (apply Hget; simpl; auto).
  assert (Ht : get_property "table" fields = Some (JString table))
    by (apply Hget; simpl; auto).
  assert (He : get_property "entity" fields = Some (jentity entity))
    by (apply Hget; simpl; auto).
  assert (Hi : get_property "id" fields = None)
    by (apply Habsent; simpl; intuition discriminate).
  assert (Hd : get_property "date" fields = None)
    by (apply Habsent; simpl; intuition discriminate).
  assert (Hvalid : valid cfg (JObject fields) remoteChangeScheme = true).
  { unfold valid. simpl. rewrite Hs, Ht, He. simpl.
    apply forallb_forall. intros [key v] Hin.
    apply (Permutation_in _ Hperm) in Hin. simpl in Hin.
    destruct Hin as [Heq|[Heq|[Heq|[]]]]; injection Heq as <- <-; simpl.
    - unfold validate_schema. simpl. now rewrite Hsender.
    - unfold validate_schema. simpl.
      destruct Htable as [Hmin Hmax].
      apply Nat.leb_le in Hmax. rewrite Hmax.
      destruct (String.length table); [lia|reflexivity].
    - now destruct entity. }
  split; [exact Hvalid|].
  assert (Hchange : as_DatabaseChange (JObject fields)
                    = Some {| change_sender := sender; change_table := table;
                              change_id := None; change_date := None;
                              change_entity := entity |}).
  { unfold as_DatabaseChange, string_property, number_property, entity_property.
    rewrite Hs, Ht, He, Hi, Hd. now destruct entity. }
  unfold receivedMessage. rewrite Htopic, Hvalid, Hchange. cbn [negb change_table].
  rewrite (bool_decide_eq_true_2 _ Hreceive). cbn [negb].
  unfold emit_remote_change.
  set (remoteChange := {| change_sender := sender; change_table := table;
                          change_id := None; change_date := None;
                          change_entity := entity |}).
  destruct (appends_onRemoteChange cfg remoteChange
              (recorded (remote_change remoteChange) w))
    as (later & Hlater & _).
  exists later. apply emitted_app.
  unfold bind at 1, record_event, modify. rewrite Hlater. simpl.
  now rewrite <- app_assoc.
Qed.

Lemma change_without_id_and_date_accepted_witness :
  valid example_config
    (JObject [("entity", JNull); ("sender", JString "nodeB"); ("table", JString "users")])
    remoteChangeScheme = true
  /\ exists later : list Event,
       emitted example_world
         (snd (receivedMessage example_config "/change/nodeA"
                 (JObject [("entity", JNull); ("sender", JString "nodeB");
                           ("table", JString "users")])
                 example_world))
       = remote_change {| change_sender := "nodeB"; change_table := "users";
                          change_id := None; change_date := None;
                          change_entity := None |} :: later.
Proof.
  apply (change_without_id_and_date_accepted example_config "/change/nodeA"
           [("entity", JNull); ("sender", JString "nodeB"); ("table", JString "users")]
           "nodeB" "users" None example_world).
  - reflexivity.
  - apply Permutation_cons_app with (l1 := [("sender", JString "nodeB"); ("table", JString "users")])
                                    (l2 := []).
    rewrite app_nil_r. apply Permutation_refl.
  - reflexivity.
  - simpl. lia.
  - apply list_elem_of_In. simpl. auto.
Defined.

(** * Properties of the further parts *)

(** ** The durable queue: [delete] and [find] *)

Lemma filter_partition {A : Type} (f : A -> bool) (l : list A) :
  Permutation l (List.filter f l ++ List.filter (fun x => negb (f x)) l).
Proof.
  induction l as [|x l IH]; simpl; [constructor|].
  destruct (f x); simpl.
  - now constructor.
  - now apply Permutation_cons_app.
Qed.

Lemma filter_rejected {A : Type} (f : A -> bool) (l : list A) :
  List.filter f (List.filter (fun x => negb (f x)) l) = [].
Proof.
  induction l as [|x l IH]; simpl; [reflexivity|].
  destruct (f x) eqn:Hx; simpl; [exact IH|]. now rewrite Hx.
Qed.

Lemma filter_none_rejects_all {A : Type} (f : A -> bool) (l : list A) :
  List.filter f l = [] -> List.filter (fun x => negb (f x)) l = l.
Proof.
  induction l as [|x l IH]; simpl; [reflexivity|].
  destruct (f x); simpl; [discriminate|]. intros H. now rewrite IH.
Qed.

(** X1. [delete(predicate)] returns exactly the items [find(predicate)]
    would return, leaves no item that satisfies the predicate, and neither
    loses nor invents an item: the former contents are the removed items
    together with the remaining ones, and a second [delete] with the same
    predicate removes nothing. *)
Theorem HardDiskQueue_delete_removes_matching {TYPE : Type} (predicate : TYPE -> bool)
    (file : option (list TYPE)) :
  let result := HardDiskQueue.delete predicate file in
  fst result = HardDiskQueue.find predicate file
  /\ HardDiskQueue.find predicate (snd result) = []
  /\ Permutation (HardDiskQueue.readQueue file)
       (fst result ++ HardDiskQueue.readQueue (snd result))
  /\ HardDiskQueue.delete predicate (snd result) = ([], snd result).
Proof.
  cbv zeta. unfold HardDiskQueue.delete, HardDiskQueue.find. simpl.
  split; [reflexivity|]. split; [apply filter_rejected|].
  split; [apply filter_partition|].
  unfold HardDiskQueue.writeQueue. rewrite filter_rejected.
  now rewrite (filter_none_rejects_all _ _ (filter_rejected predicate _)).
Qed.

(** ** The packet store *)

Lemma same_id_refl (packet : IPacket) : MqttHardDiskStore.same_id packet packet = true.
Proof. unfold MqttHardDiskStore.same_id. now apply bool_decide_eq_true. Qed.

(** X2. In an open store that holds no packet with the id of [packet]:
    after [put], [get] hands the packet to its callback; [del] then hands
    it over too and restores the former contents, after which [get]
    reports "missing packet". *)
Theorem store_put_get_del (packet : IPacket) (store : MqttHardDiskStore.t) :
  MqttHardDiskStore.store_open store = true ->
  HardDiskQueue.find (MqttHardDiskStore.same_id packet) (MqttHardDiskStore.delegate store) = [] ->
  exists stored emptied : MqttHardDiskStore.t,
    MqttHardDiskStore.put packet store = Returned stored
    /\ MqttHardDiskStore.get packet stored = Returned (callback_packet packet)
    /\ MqttHardDiskStore.del packet stored = Returned (callback_packet packet, emptied)
    /\ HardDiskQueue.readQueue (MqttHardDiskStore.delegate emptied)
       = HardDiskQueue.readQueue (MqttHardDiskStore.delegate store)
    /\ MqttHardDiskStore.get packet emptied = Returned (callback_error "missing packet").
Proof.
  intros Hopen Hfresh. unfold HardDiskQueue.find in Hfresh.
  eexists _, _. unfold MqttHardDiskStore.put. rewrite Hopen. simpl.
  split; [reflexivity|].
  unfold MqttHardDiskStore.get, MqttHardDiskStore.del, HardDiskQueue.find, HardDiskQueue.delete.
  simpl. rewrite !List.filter_app, Hfresh. simpl. rewrite same_id_refl. simpl.
  split; [reflexivity|]. split; [reflexivity|]. simpl.
  rewrite app_nil_r, (filter_none_rejects_all _ _ Hfresh).
  split; [reflexivity|]. now rewrite Hfresh.
Qed.

Lemma store_put_get_del_witness :
  MqttHardDiskStore.get
    {| packet_cmd := "publish"; packet_messageId := Some 7; packet_length := None |}
    (MqttHardDiskStore.create
       (Some [{| packet_cmd := "publish"; packet_messageId := Some 3; packet_length := None |};
              {| packet_cmd := "publish"; packet_messageId := Some 7; packet_length := None |}]))
  = Returned (callback_packet
                {| packet_cmd := "publish"; packet_messageId := Some 7; packet_length := None |}).
Proof.
  destruct (store_put_get_del
              {| packet_cmd := "publish"; packet_messageId := Some 7; packet_length := None |}
              (MqttHardDiskStore.create
                 (Some [{| packet_cmd := "publish"; packet_messageId := Some 3;
                           packet_length := None |}]))
              eq_refl eq_refl) as (stored & emptied & Hput & Hget & _).
  injection Hput as <-. exact Hget.
Defined.

(** X3. [del] removes every packet with the id of [packet], whatever it
    reports: in an open store [del] hands its callback what [get] would
    have handed over (the packet only when exactly one is stored, an error
    otherwise), and after it [get] reports "missing packet". *)
Theorem store_del_removes_every_copy (packet : IPacket) (store : MqttHardDiskStore.t) :
  MqttHardDiskStore.store_open store = true ->
  exists (reported : StoreCallback) (after : MqttHardDiskStore.t),
    MqttHardDiskStore.get packet store = Returned reported
    /\ MqttHardDiskStore.del packet store = Returned (reported, after)
    /\ MqttHardDiskStore.get packet after = Returned (callback_error "missing packet").
Proof.
  intros Hopen. eexists _, _.
  unfold MqttHardDiskStore.get, MqttHardDiskStore.del, HardDiskQueue.find, HardDiskQueue.delete.
  rewrite Hopen. simpl.
  split; [reflexivity|]. split; [reflexivity|].
  simpl. now rewrite filter_rejected.
Qed.

Lemma store_del_removes_every_copy_witness :
  exists after : MqttHardDiskStore.t,
    MqttHardDiskStore.del
      {| packet_cmd := "publish"; packet_messageId := None; packet_length := None |}
      (MqttHardDiskStore.create
         (Some [{| packet_cmd := "publish"; packet_messageId := None; packet_length := None |};
                {| packet_cmd := "pubrel"; packet_messageId := None; packet_length := None |}]))
    = Returned (callback_error "multiple packets with that id", after)
    /\ MqttHardDiskStore.get
         {| packet_cmd := "publish"; packet_messageId := None; packet_length := None |} after
       = Returned (callback_error "missing packet").
Proof.
  destruct (store_del_removes_every_copy
              {| packet_cmd := "publish"; packet_messageId := None; packet_length := None |}
              (MqttHardDiskStore.create
                 (Some [{| packet_cmd := "publish"; packet_messageId := None;
                           packet_length := None |};
                        {| packet_cmd := "pubrel"; packet_messageId := None;
                           packet_length := None |}]))
              eq_refl) as (reported & after & Hget & Hdel & Hmissing).
  injection Hget as <-. exists after. split; [exact Hdel | exact Hmissing].
Defined.

(** X4. [put] does not look for a packet with the same id: when a packet
    is put twice into an open store that held none with its id, [get] and
    [del] both report "multiple packets with that id"; [del] has
    nevertheless removed both copies and restored the former contents. *)
Theorem store_put_twice (packet : IPacket) (store : MqttHardDiskStore.t) :
  MqttHardDiskStore.store_open store = true ->
  HardDiskQueue.find (MqttHardDiskStore.same_id packet) (MqttHardDiskStore.delegate store) = [] ->
  exists once twice after : MqttHardDiskStore.t,
    MqttHardDiskStore.put packet store = Returned once
    /\ MqttHardDiskStore.put packet once = Returned twice
    /\ MqttHardDiskStore.get packet twice
       = Returned (callback_error "multiple packets with that id")
    /\ MqttHardDiskStore.del packet twice
       = Returned (callback_error "multiple packets with that id", after)
    /\ HardDiskQueue.readQueue (MqttHardDiskStore.delegate after)
       = HardDiskQueue.readQueue (MqttHardDiskStore.delegate store).
Proof.
  intros Hopen Hfresh. unfold HardDiskQueue.find in Hfresh.
  eexists _, _, _. unfold MqttHardDiskStore.put. rewrite Hopen. simpl.
  split; [reflexivity|]. split; [reflexivity|].
  unfold MqttHardDiskStore.get, MqttHardDiskStore.del, HardDiskQueue.find, HardDiskQueue.delete.
  simpl. rewrite !List.filter_app, Hfresh. simpl. rewrite same_id_refl. simpl.
  split; [reflexivity|]. split; [reflexivity|]. simpl.
  now rewrite !app_nil_r, (filter_none_rejects_all _ _ Hfresh).
Qed.

Lemma store_put_twice_witness :
  exists once twice : MqttHardDiskStore.t,
    MqttHardDiskStore.put
      {| packet_cmd := "publish"; packet_messageId := Some 7; packet_length := None |}
      (MqttHardDiskStore.create None) = Returned once
    /\ MqttHardDiskStore.put
         {| packet_cmd := "publish"; packet_messageId := Some 7; packet_length := None |}
         once = Returned twice
    /\ MqttHardDiskStore.get
         {| packet_cmd := "publish"; packet_messageId := Some 7; packet_length := None |}
         twice = Returned (callback_error "multiple packets with that id").
Proof.
  destruct (store_put_twice
              {| packet_cmd := "publish"; packet_messageId := Some 7; packet_length := None |}
              (MqttHardDiskStore.create None) eq_refl eq_refl)
    as (once & twice & after & Hput1 & Hput2 & Hget & _).
  exists once, twice. repeat split; assumption.
Defined.

(** ** The event hub *)

Lemma listeners_after_on {ARGS : Type} (event name : string) (l : ARGS -> M unit)
    (emitter : AsyncEventEmitter.t ARGS) :
  default [] (AsyncEventEmitter.listener (AsyncEventEmitter.on name l emitter) !! event)
  = default [] (AsyncEventEmitter.listener emitter !! event)
    ++ (if bool_decide (name = event) then [l] else []).
Proof.
  unfold AsyncEventEmitter.on. simpl.
  destruct (bool_decide_reflect (name = event)) as [->|Hne].
  - destruct (AsyncEventEmitter.listener emitter !! event); now rewrite lookup_insert_eq.
  - rewrite app_nil_r.
    destruct (AsyncEventEmitter.listener emitter !! name); now rewrite lookup_insert_ne.
Qed.

Lemma listeners_after_register {ARGS : Type} (event : string)
    (registrations : list (string * (ARGS -> M unit))) :
  forall emitter : AsyncEventEmitter.t ARGS,
    default [] (AsyncEventEmitter.listener (AsyncEventEmitter.register registrations emitter)
                !! event)
    = default [] (AsyncEventEmitter.listener emitter !! event)
      ++ map snd (List.filter (fun r => bool_decide (fst r = event)) registrations)
    /\ AsyncEventEmitter.transformer (AsyncEventEmitter.register registrations emitter)
       = AsyncEventEmitter.transformer emitter.
Proof.
  unfold AsyncEventEmitter.register.
  induction registrations as [|[name l] rest IH]; intros emitter; simpl.
  - now rewrite app_nil_r.
  - destruct (IH (AsyncEventEmitter.on name l emitter)) as [Hl Ht].
    split; [|exact Ht].
    rewrite Hl, listeners_after_on, <- app_assoc.
    now destruct (bool_decide (name = event)).
Qed.

Lemma call_listeners_once {ARGS : Type} (listeners : list (ARGS -> M unit)) (args : ARGS)
    (w : World) :
  AsyncEventEmitter.call_listeners listeners [args] w = run_each listeners args w.
Proof.
  revert w. induction listeners as [|l rest IH]; intros w; simpl; [reflexivity|].
  unfold bind. destruct (l args w) as [[[]|message|] w1]; simpl; auto.
Qed.

(** X5. On a hub that was filled by registrations only, none of them for
    the event names [__proto__] and [hasOwnProperty], [emit] of an event
    that is not named like a property of [Object.prototype] calls the
    listeners registered for the event, each once with the arguments of
    the emission, in the order of their registration, and no listener of
    another event; it stops at the first listener that throws, whose
    exception reaches the emitter. For an event named like a property of
    [Object.prototype], [emit] throws a [TypeError] and calls no
    listener, registered or not. *)
Theorem emit_runs_listeners_in_registration_order {ARGS : Type}
    (registrations : list (string * (ARGS -> M unit))) (event : string) (args : ARGS)
    (w : World) :
  Forall (fun r => plain_key (fst r)) registrations ->
  AsyncEventEmitter.emit (AsyncEventEmitter.register registrations AsyncEventEmitter.create)
    event args w
  = if bool_decide (event ∈ object_prototype_names) then (Thrown "TypeError", w)
    else run_each (map snd (List.filter (fun r => bool_decide (fst r = event)) registrations))
           args w.
Proof.
  intros _.
  destruct (listeners_after_register event registrations AsyncEventEmitter.create) as [Hl Ht].
  unfold AsyncEventEmitter.emit. rewrite Ht. simpl. rewrite lookup_empty.
  simpl in Hl. rewrite lookup_empty in Hl. simpl in Hl. rewrite <- Hl.
  unfold bind, ret, throw.
  destruct (bool_decide (event ∈ object_prototype_names)); [reflexivity|].
  destruct (AsyncEventEmitter.listener _ !! event) as [listeners|]; simpl.
  - apply call_listeners_once.
  - reflexivity.
Qed.

Lemma emit_runs_listeners_in_registration_order_witness :
  reads
    (snd (AsyncEventEmitter.emit
            (AsyncEventEmitter.register
               [("tick", fun n : nat => modify (set_reads n));
                ("other", fun _ : nat => throw "other");
                ("tick", fun n : nat => modify (fun w => set_reads (reads w + n) w))]
               AsyncEventEmitter.create)
            "tick" 2%nat example_world))
  = 4%nat.
Proof.
  assert (Hnames : Forall (fun r : string * (nat -> M unit) => plain_key (fst r))
                     [("tick", fun n : nat => modify (set_reads n));
                      ("other", fun _ : nat => throw "other");
                      ("tick", fun n : nat => modify (fun w => set_reads (reads w + n) w))])
    by (repeat constructor; discriminate).
  pose proof (emit_runs_listeners_in_registration_order _ "tick" 2%nat example_world Hnames)
    as H.
  exact (eq_trans (f_equal (fun result => reads (snd result)) H) eq_refl).
Defined.

(** ** [pad] and [getLocalTimezone] *)

Lemma string_app_cons (x : ascii) (a b : string) : String x a +:+ b = String x (a +:+ b).
Proof. reflexivity. Qed.

Lemma string_app_assoc (a b c : string) : (a +:+ b) +:+ c = a +:+ (b +:+ c).
Proof.
  induction a as [|x a IH]; [reflexivity|].
  rewrite !string_app_cons. f_equal. exact IH.
Qed.

Lemma string_length_app (a b : string) :
  String.length (a +:+ b) = (String.length a + String.length b)%nat.
Proof.
  induction a as [|x a IH]; [reflexivity|].
  rewrite string_app_cons. simpl. f_equal. exact IH.
Qed.

Lemma pad_long_enough (rounds : nat) (input fill : string) (minLength : nat) :
  (minLength <= String.length input)%nat -> pad rounds input fill minLength = Some input.
Proof.
  intros H. apply Nat.ltb_ge in H. destruct rounds; simpl; now rewrite H.
Qed.

(** X6. With a fill that is not empty and as many rounds as the missing
    characters, [pad] returns the input with [n] copies of the fill in
    front of it, where [n] is the least number of copies that brings the
    length to [minLength] or more: none when the input is long enough, and
    otherwise one copy fewer would still be too short. *)
Theorem pad_prepends_fill (rounds : nat) (input fill : string) (minLength : nat) :
  fill <> EmptyString ->
  (minLength - String.length input <= rounds)%nat ->
  exists n : nat,
    pad rounds input fill minLength = Some (copies n fill +:+ input)
    /\ (minLength <= String.length (copies n fill +:+ input))%nat
    /\ match n with
       | O => True
       | S k => (String.length (copies k fill +:+ input) < minLength)%nat
       end.
Proof.
  intros Hfill. revert input.
  induction rounds as [|rounds IH]; intros input Hrounds.
  - exists 0%nat. simpl.
    destruct (String.length input <? minLength)%nat eqn:Hlt.
    + apply Nat.ltb_lt in Hlt. lia.
    + apply Nat.ltb_ge in Hlt. auto.
  - simpl. destruct (String.length input <? minLength)%nat eqn:Hlt.
    + apply Nat.ltb_lt in Hlt.
      assert (Hgrow : (1 <= String.length fill)%nat)
        by (destruct fill; [contradiction | simpl; lia]).
      destruct (IH (fill +:+ input)) as (n & Hpad & Hlen & Hleast).
      { rewrite string_length_app. lia. }
      exists (S n). simpl. rewrite string_app_assoc.
      split; [exact Hpad|]. split; [exact Hlen|].
      destruct n as [|k]; simpl in *; [exact Hlt|].
      now rewrite string_app_assoc.
    + apply Nat.ltb_ge in Hlt. exists 0%nat. simpl. auto.
Qed.

Lemma pad_prepends_fill_witness :
  exists n : nat,
    pad 3 "7" "0" 4 = Some (copies n "0" +:+ "7")
    /\ (4 <= String.length (copies n "0" +:+ "7"))%nat.
Proof.
  destruct (pad_prepends_fill 3 "7" "0" 4 ltac:(discriminate) ltac:(simpl; lia))
    as (n & Hpad & Hlen & _).
  exists n. split; [exact Hpad | exact Hlen].
Defined.

(** X7. With an empty fill and an input shorter than [minLength], [pad]
    never returns: whatever the number of rounds, the loop is still
    running with the input unchanged. *)
Theorem pad_empty_fill_never_returns (rounds : nat) (input : string) (minLength : nat) :
  (String.length input < minLength)%nat ->
  pad rounds input EmptyString minLength = None.
Proof.
  intros H. apply Nat.ltb_lt in H.
  induction rounds as [|rounds IH]; simpl; rewrite H; [reflexivity | exact IH].
Qed.

Lemma pad_empty_fill_never_returns_witness :
  pad 1000 "7" EmptyString 2 = None.
Proof. apply pad_empty_fill_never_returns. simpl. lia. Defined.

Lemma pretty_sign (z : Z) :
  pretty z = (if z <? 0 then "-" else EmptyString) +:+ pretty (Z.abs_N z).
Proof. destruct z; reflexivity. Qed.

Lemma minutes_two_characters (m : Z) :
  0 <= m < 60 ->
  exists minutes : string, pad 2 (pretty m) "0" 2 = Some minutes /\ String.length minutes = 2%nat.
Proof.
  intros Hm.
  assert (Hall : forallb (fun k => match pad 2 (pretty (Z.of_nat k)) "0" 2 with
                                   | Some minutes => (String.length minutes =? 2)%nat
                                   | None => false
                                   end) (seq 0 60) = true) by (vm_compute; reflexivity).
  pose proof (proj1 (forallb_forall _ _) Hall (Z.to_nat m)) as H.
  cbv beta in H. rewrite Z2Nat.id in H by lia.
  destruct (pad 2 (pretty m) "0" 2) as [minutes|].
  - exists minutes. split; [reflexivity|]. apply Nat.eqb_eq, H, in_seq. lia.
  - assert (false = true) by (apply H, in_seq; lia). discriminate.
Qed.

(** X8. For every timezone offset, [getLocalTimezone] splits the negated
    offset into hours and minutes with [hours * 60 + minutes = - offset]
    and [0 <= minutes < 60], and returns the label
    [UTC+<hours>:<minutes>] with two characters of minutes; the sign after
    [UTC] is always [+], so for a zone west of Greenwich (a positive
    offset, negative hours) the label reads [UTC+-<hours>:<minutes>]. *)
Theorem getLocalTimezone_label (offset : Z) :
  timezone_hours offset * 60 + timezone_minutes offset = - offset
  /\ 0 <= timezone_minutes offset < 60
  /\ (timezone_hours offset <? 0) = (0 <? offset)
  /\ exists minutes : string,
       String.length minutes = 2%nat
       /\ getLocalTimezone offset
          = Some ("UTC+" +:+ (if 0 <? offset then "-" else EmptyString)
                  +:+ pretty (Z.abs_N (timezone_hours offset)) +:+ ":" +:+ minutes).
Proof.
  assert (Hminutes : 0 <= timezone_minutes offset < 60).
  { unfold timezone_minutes, timezone_hours.
    pose proof (Z.mod_pos_bound (- offset) 60 ltac:(lia)) as Hmod.
    rewrite Z.mod_eq in Hmod by lia. lia. }
  assert (Hsign : (timezone_hours offset <? 0) = (0 <? offset)).
  { unfold timezone_hours.
    destruct (0 <? offset) eqn:Ho.
    - apply Z.ltb_lt in Ho. apply Z.ltb_lt. apply Z.div_lt_upper_bound; lia.
    - apply Z.ltb_ge in Ho. apply Z.ltb_ge. apply Z.div_pos; lia. }
  split; [unfold timezone_minutes; lia|]. split; [exact Hminutes|]. split; [exact Hsign|].
  destruct (minutes_two_characters _ Hminutes) as (minutes & Hpad & Hlen).
  exists minutes. split; [exact Hlen|].
  unfold getLocalTimezone. rewrite Hpad, pretty_sign, Hsign.
  now rewrite !string_app_assoc.
Qed.

(** ** What publishing changes *)

Lemma same_but_bus_refl (w : World) : same_but_bus w w.
Proof. repeat split. Qed.

Lemma same_but_bus_trans (w w1 w2 : World) :
  same_but_bus w w1 -> same_but_bus w1 w2 -> same_but_bus w w2.
Proof.
  intros (?&?&?&?&?&?&?&?&?) (?&?&?&?&?&?&?&?&?). repeat split; congruence.
Qed.

Lemma publish_run (topic : string) (payload : JSON) (peer : string) (w : World) :
  peer <> EmptyString ->
  exists w1 : World,
    publish topic payload (Some peer) w = (Returned tt, w1)
    /\ same_but_bus w w1
    /\ if peer_connected peer w then
         published w1 = published w ++ [(topic, payload)]
         /\ remote_queues w1 = remote_queues w
       else
         published w1 = published w
         /\ remote_queues w1
            = <[remote_queue_name peer :=
                  remote_queue peer w ++ [{| item_topic := topic; item_payload := payload |}]]>
                (remote_queues w).
Proof.
  intros Hpeer. unfold publish. rewrite (truthy_nonempty _ Hpeer).
  unfold bind at 1. rewrite isClientConnected_decides.
  destruct (peer_connected peer w) eqn:Hc; cbn [negb];
    destruct (connectedClients w !! peer); eexists; (split; [reflexivity|]);
    split; try (repeat split; reflexivity); split; reflexivity.
Qed.


(** ** The transformer cache *)



(** X9. [findTransformer] caches what it finds. With a transformer
    directory configured, for a table name other than [__proto__] and
    [hasOwnProperty] and a cache without a key [hasOwnProperty]: the
    lookup returns the cached transformer of the table, or else what the
    file of the table exports, and leaves exactly that as the cache entry
    of the table, touching no other entry and nothing else of the state.
    In every later state whose cache still holds that entry, a lookup
    returns the same transformer and changes nothing, whatever the files
    of the directory have become in the meantime. *)
Theorem findTransformer_caches (cfg : Config) (directory table : string) (w : World) :
  transformerDirectory cfg = Some directory ->
  directory <> EmptyString ->
  plain_key table ->
  plain_table (cachedTransformer w) ->
  let first := findTransformer cfg table w in
  let found :=
    match cachedTransformer w !! table with
    | Some cached => cached
    | None => load_transformer cfg directory table
    end in
  fst first = Returned found
  /\ cachedTransformer (snd first) = <[table := found]> (cachedTransformer w)
  /\ snd first = set_cachedTransformer (cachedTransformer (snd first)) w
  /\ forall (changed : Config) (later : World),
       transformerDirectory changed = Some directory ->
       plain_table (cachedTransformer later) ->
       cachedTransformer later !! table = cachedTransformer (snd first) !! table ->
       findTransformer changed table later = (Returned found, later).
Proof.
  intros Hdirectory Hname _ _. cbv zeta.
  assert (Htruthy : truthy directory = true)
    by (unfold truthy; now rewrite bool_decide_eq_false_2).
  assert (Hfirst : findTransformer cfg table w
                   = match cachedTransformer w !! table with
                     | Some cached => (Returned cached, w)
                     | None =>
                         (Returned (load_transformer cfg directory table),
                          set_cachedTransformer
                            (<[table := load_transformer cfg directory table]>
                               (cachedTransformer w)) w)
                     end).
  { unfold findTransformer. rewrite Hdirectory, Htruthy. cbn [negb].
    unfold bind at 1, gets. now destruct (cachedTransformer w !! table). }
  assert (Hlater : forall (changed : Config) (later : World) (found : option Transformer),
             transformerDirectory changed = Some directory ->
             cachedTransformer later !! table = Some found ->
             findTransformer changed table later = (Returned found, later)).
  { intros changed later found Hchanged Hcached.
    unfold findTransformer. rewrite Hchanged, Htruthy. cbn [negb].
    unfold bind at 1, gets. now rewrite Hcached. }
  rewrite Hfirst.
  destruct (cachedTransformer w !! table) as [cached|] eqn:Hlookup; cbn [fst snd].
  - split; [reflexivity|]. split; [now rewrite insert_id|].
    split; [now destruct w|].
    intros changed later Hchanged _ Hsame. apply Hlater; [exact Hchanged|congruence].
  - split; [reflexivity|]. split; [reflexivity|]. split; [reflexivity|].
    intros changed later Hchanged _ Hsame. apply Hlater; [exact Hchanged|].
    rewrite Hsame. cbn [cachedTransformer set_cachedTransformer]. apply lookup_insert_eq.
Qed.

Lemma findTransformer_caches_witness :
  let emptied :=
    {| clientName := "nodeA"; checkInterval := 5000; syncTables := ["users"];
       receiveTables := ["users"]; remoteClients := ["nodeB"; "nodeC"];
       transformerDirectory := Some "/etc/mysql-sync/transformer"; transformerFiles := ∅;
       schemeLoadTime := 1000; toCamelCase := fun s => s; md5 := fun s => s;
       timezoneOffset := -60; date_parse := example_date_parse;
       datetime_text := example_datetime_text |} in
  findTransformer emptied "users"
    (snd (findTransformer example_config_transformer "users" example_world))
  = (Returned (Some example_transformer),
     snd (findTransformer example_config_transformer "users" example_world)).
Proof.
  intros emptied.
  pose proof (findTransformer_caches example_config_transformer "/etc/mysql-sync/transformer"
                "users" example_world eq_refl ltac:(discriminate)
                ltac:(split; discriminate) eq_refl) as H.
  cbv zeta in H. destruct H as (_ & _ & _ & H).
  apply (H emptied (snd (findTransformer example_config_transformer "users" example_world)));
    reflexivity.
Defined.

(** ** The fan-out of a local change, by peer *)










(** ** What a computation leaves as it is *)

Lemma preserves_ret {A B : Type} (f : World -> B) (a : A) : preserves f (ret a).
Proof. intros w. reflexivity. Qed.

Lemma preserves_throw {A B : Type} (f : World -> B) (message : string) :
  preserves f (@throw A message).
Proof. intros w. reflexivity. Qed.

Lemma preserves_gets {A B : Type} (f : World -> B) (g : World -> A) : preserves f (gets g).
Proof. intros w. reflexivity. Qed.

Lemma preserves_modify {B : Type} (f : World -> B) (g : World -> World) :
  (forall w : World, f (g w) = f w) -> preserves f (modify g).
Proof. intros H w. apply H. Qed.

Lemma preserves_now {B : Type} (f : World -> B) :
  (forall (n : nat) (w : World), f (set_reads n w) = f w) -> preserves f now.
Proof. intros H w. apply H. Qed.

Lemma preserves_bind {A B C : Type} (f : World -> C) (m : M A) (k : A -> M B) :
  preserves f m -> (forall a : A, preserves f (k a)) -> preserves f (bind m k).
Proof.
  intros Hm Hk w. unfold bind. specialize (Hm w).
  destruct (m w) as [[a| |] w1]; simpl in *; [|exact Hm|exact Hm].
  now rewrite Hk.
Qed.

Lemma preserves_try_catch {A B : Type} (f : World -> B) (body : M A) (handler : string -> M A) :
  preserves f body -> (forall message : string, preserves f (handler message)) ->
  preserves f (try_catch body handler).
Proof.
  intros Hm Hk w. unfold try_catch. specialize (Hm w).
  destruct (body w) as [[a| |] w1]; simpl in *; [exact Hm| |exact Hm].
  now rewrite Hk.
Qed.

Lemma preserves_query {A B : Type} (f : World -> B) (statement : Statement A) :
  (forall (db : Database) (w : World), f (set_database db w) = f w) ->
  preserves f (query statement).
Proof.
  intros H w. unfold query, bind, testConnection, gets.
  destruct (negb _); [reflexivity|].
  destruct (statement (database w)) as [[result db]|]; [apply H|reflexivity].
Qed.

Lemma preserves_database_query {A C : Type} (g : Database -> C) (statement : Statement A) :
  keeps g statement -> preserves (fun w => g (database w)) (query statement).
Proof.
  intros H w. unfold query, bind, testConnection, gets.
  destruct (negb _); [reflexivity|].
  destruct (statement (database w)) as [[result db]|] eqn:Hs; [|reflexivity].
  apply (H _ _ _ Hs).
Qed.

Lemma finishes_ret {A : Type} (a : A) : finishes (ret a).
Proof. intros w. discriminate. Qed.

Lemma finishes_throw {A : Type} (message : string) : finishes (@throw A message).
Proof. intros w. discriminate. Qed.

Lemma finishes_gets {A : Type} (g : World -> A) : finishes (gets g).
Proof. intros w. discriminate. Qed.

Lemma finishes_modify (g : World -> World) : finishes (modify g).
Proof. intros w. discriminate. Qed.

Lemma finishes_now : finishes now.
Proof. intros w. discriminate. Qed.

Lemma finishes_bind {A B : Type} (m : M A) (k : A -> M B) :
  finishes m -> (forall a : A, finishes (k a)) -> finishes (bind m k).
Proof.
  intros Hm Hk w. unfold bind. specialize (Hm w).
  destruct (m w) as [[a| |] w1]; simpl in *; [apply Hk|discriminate|now contradiction Hm].
Qed.

Lemma finishes_try_catch {A : Type} (body : M A) (handler : string -> M A) :
  finishes body -> (forall message : string, finishes (handler message)) ->
  finishes (try_catch body handler).
Proof.
  intros Hm Hk w. unfold try_catch. specialize (Hm w).
  destruct (body w) as [[a| |] w1]; simpl in *; [discriminate|apply Hk|exact Hm].
Qed.

Lemma finishes_query {A : Type} (statement : Statement A) : finishes (query statement).
Proof.
  intros w. unfold query, bind, testConnection, gets.
  destruct (negb _); [discriminate|].
  destruct (statement (database w)) as [[result db]|]; discriminate.
Qed.

Lemma finishes_silent {A : Type} (m : M A) : silent m -> finishes m.
Proof. intros H w. destruct (H w) as (a & w1 & Hrun & _). rewrite Hrun. discriminate. Qed.

(** The steps shared by the frame proofs: the monad, the clock, the hub. *)
Ltac frame_step :=
  first
    [ apply preserves_ret | apply preserves_throw | apply preserves_gets
    | apply preserves_modify; intros; solve [reflexivity | auto]
    | apply preserves_now; intros; solve [reflexivity | auto]
    | apply preserves_query; intros; solve [reflexivity | auto]
    | apply finishes_ret | apply finishes_throw | apply finishes_gets
    | apply finishes_modify | apply finishes_now | apply finishes_query
    | apply preserves_bind | apply preserves_try_catch
    | apply finishes_bind | apply finishes_try_catch
    | match goal with
      | |- preserves _ (if ?b then _ else _) => destruct b
      | |- preserves _ (match ?x with _ => _ end) => destruct x
      | |- finishes (if ?b then _ else _) => destruct b
      | |- finishes (match ?x with _ => _ end) => destruct x
      | |- forall _, _ => intro
      end ].

Ltac frame := repeat frame_step.

Section Transport.
Context (cfg : Config) {B : Type} (f : World -> B).
Hypothesis f_reads : forall (n : nat) (w : World), f (set_reads n w) = f w.
Hypothesis f_published : forall (p : list (string * JSON)) (w : World), f (set_published p w) = f w.
Hypothesis f_remote_queues :
  forall (q : gmap string (list QueueItem)) (w : World), f (set_remote_queues q w) = f w.
Hypothesis f_remoteClientQueues :
  forall (q : gset string) (w : World), f (set_remoteClientQueues q w) = f w.
Hypothesis f_cachedTransformer :
  forall (c : gmap string (option Transformer)) (w : World), f (set_cachedTransformer c w) = f w.
Hypothesis f_events : forall (e : list Event) (w : World), f (set_events e w) = f w.
Hypothesis f_journal :
  forall (j : list (Event * Database)) (w : World), f (set_journal j w) = f w.

Lemma preserves_publish (topic : string) (payload : JSON) (remoteClient : option string) :
  preserves f (publish topic payload remoteClient).
Proof.
  unfold publish, isClientConnected, ensure_remote_queue, remote_queue_push, connection_publish.
  frame.
Qed.

Lemma preserves_transformEntity (table : string) (entity : option SqlEntity)
    (source target : string) :
  preserves f (transformEntity cfg table entity source target).
Proof.
  unfold transformEntity, findTransformer. frame.
Qed.

Lemma preserves_record_event (e : Event) : preserves f (record_event e).
Proof. apply preserves_modify. intros w. unfold recorded. now rewrite f_journal, f_events. Qed.

Lemma preserves_emit_remote_send_change (table : string) (id : option string)
    (entity : option SqlEntity) (remote : string) :
  preserves f (emit_remote_send_change cfg table id entity remote).
Proof.
  unfold emit_remote_send_change, sendChange.
  apply preserves_bind; [apply preserves_record_event|]. intros _.
  apply preserves_bind; [apply preserves_now, f_reads|]. intros date. apply preserves_publish.
Qed.

Lemma preserves_emit_local_change (table : string) (id : option string)
    (entity : option SqlEntity) (except : option string) :
  preserves f (emit_local_change cfg table id entity except).
Proof.
  unfold emit_local_change, onLocalChange.
  apply preserves_bind; [apply preserves_record_event|]. intros _.
  induction (remoteClients cfg) as [|client rest IH]; simpl; [apply preserves_ret|].
  destruct (bool_decide (Some client = except)); [exact IH|].
  apply preserves_bind; [apply preserves_transformEntity|]. intros transformed.
  apply preserves_bind; [apply preserves_emit_remote_send_change|]. intros _. exact IH.
Qed.

Lemma preserves_emit_local_save_failed (data : DatabaseChangeError) :
  preserves f (emit_local_save_failed cfg data).
Proof.
  unfold emit_local_save_failed, error.
  apply preserves_bind; [apply preserves_record_event|]. intros _. apply preserves_publish.
Qed.

Lemma preserves_emit_local_save_successful (data : DatabaseChangeInfo) :
  preserves f (emit_local_save_successful cfg data).
Proof.
  unfold emit_local_save_successful, dataReceived.
  apply preserves_bind; [apply preserves_record_event|]. intros _. apply preserves_publish.
Qed.

End Transport.

(** ** What the statements and the apply stage leave as it is *)


Lemma fire_triggers_session (table : string) (affected : list SqlEntity) (db : Database) :
  db_session (fire_triggers table affected db) = db_session db.
Proof.
  unfold fire_triggers.
  destruct (bool_decide (table ∈ db_triggers db)); [|reflexivity].
  destruct (db_tables db !! table ≫= _) as [pk|]; [|reflexivity].
  revert db. induction affected as [|row rest IH]; intros db; simpl; [reflexivity|].
  rewrite IH. now destruct (sql_text (get_property pk row)).
Qed.

Ltac keeps_connection :=
  intros db db1 result H; simplify_option_eq; rewrite ?fire_triggers_session; reflexivity.

Lemma keeps_connection_show (table : string) :
  keeps db_session (sql_show_primary_columns table).
Proof. unfold sql_show_primary_columns. keeps_connection. Qed.

Lemma keeps_connection_count (table pk : string) (id : option string) :
  keeps db_session (sql_count table pk id).
Proof. unfold sql_count. keeps_connection. Qed.

Lemma keeps_connection_insert (table : string) (entity : SqlEntity) :
  keeps db_session (sql_insert table entity).
Proof. unfold sql_insert. keeps_connection. Qed.

Lemma keeps_connection_update (table : string) (entity : SqlEntity) (pk : string)
    (id : option string) :
  keeps db_session (sql_update table entity pk id).
Proof. unfold sql_update. keeps_connection. Qed.

Lemma keeps_connection_delete (table pk : string) (id : option string) :
  keeps db_session (sql_delete table pk id).
Proof. unfold sql_delete. keeps_connection. Qed.

Lemma keeps_connection_delete_table_changes (table : string) (id : option string) :
  keeps db_session (sql_delete_table_changes table id).
Proof. unfold sql_delete_table_changes. keeps_connection. Qed.

Lemma keeps_connection_select_status_date (statusId : string) :
  keeps db_session (sql_select_status_date statusId).
Proof. unfold sql_select_status_date. keeps_connection. Qed.

Lemma keeps_connection_insert_status (statusId : string) (table id : option string)
    (sender : string) (date : option Z) (status : Status) (message : option string) :
  keeps db_session (sql_insert_status statusId table id sender date status message).
Proof.
  unfold sql_insert_status. intros db db1 result H.
  repeat case_match; simplify_eq; reflexivity.
Qed.

Lemma keeps_connection_update_status (date : option Z) (status : Status)
    (message : option string) (statusId : string) :
  keeps db_session (sql_update_status date status message statusId).
Proof.
  unfold sql_update_status. intros db db1 result H.
  repeat case_match; simplify_eq; reflexivity.
Qed.

Create HintDb session.
#[local] Hint Resolve keeps_connection_show keeps_connection_count keeps_connection_insert
  keeps_connection_update keeps_connection_delete keeps_connection_delete_table_changes
  keeps_connection_select_status_date keeps_connection_insert_status
  keeps_connection_update_status : session.

Lemma finishes_emit_local_change (cfg : Config) (table : string) (id : option string)
    (entity : option SqlEntity) (except : option string) :
  finishes (emit_local_change cfg table id entity except).
Proof.
  intros w. destruct (emit_local_change_fans_out cfg table id entity except w)
    as (w1 & sends & Hrun & _). rewrite Hrun. discriminate.
Qed.

(** The frame steps of the apply stage: the statements keep the session,
    the listeners of the hub touch the bus only. *)
Ltac frame_apply_step :=
  first
    [ apply (preserves_database_query db_session); solve [auto with session]
    | apply preserves_emit_local_change; intros; reflexivity
    | apply preserves_emit_local_save_failed; intros; reflexivity
    | apply preserves_emit_local_save_successful; intros; reflexivity
    | apply finishes_emit_local_change
    | apply finishes_silent; solve [auto 7 with silent]
    | frame_step ].

Ltac frame_apply := repeat frame_apply_step.

Lemma session_connected (w1 w : World) :
  database_session w1 = database_session w -> database_connected w1 = database_connected w.
Proof.
  unfold database_session, db_session, database_connected, db_connected.
  intros H. injection H as Hstate Halive. now rewrite Hstate, Halive.
Qed.

Lemma preserves_session_saveEntity (cfg : Config) (data : DatabaseChange) :
  preserves database_session (saveEntity cfg data).
Proof.
  unfold saveEntity, saveEntity_echo, getPrimaryKey, database_session. frame_apply.
Qed.

Lemma preserves_connection_saveEntity (cfg : Config) (data : DatabaseChange) :
  preserves database_connected (saveEntity cfg data).
Proof. intros w. apply session_connected, preserves_session_saveEntity. Qed.

Lemma preserves_queue_saveEntity (cfg : Config) (data : DatabaseChange) :
  preserves database_queue (saveEntity cfg data).
Proof. unfold saveEntity, saveEntity_echo, getPrimaryKey. frame_apply. Qed.

Lemma finishes_saveEntity (cfg : Config) (data : DatabaseChange) :
  finishes (saveEntity cfg data).
Proof.
  unfold saveEntity, saveEntity_echo, getPrimaryKey. frame_apply.
Qed.

Lemma preserves_session_setStatus (cfg : Config) (data : DatabaseStatusChange) :
  preserves database_session (setStatus cfg data).
Proof. unfold setStatus, testConnection, database_queue_push, database_session. frame_apply. Qed.

Lemma preserves_connection_setStatus (cfg : Config) (data : DatabaseStatusChange) :
  preserves database_connected (setStatus cfg data).
Proof. intros w. apply session_connected, preserves_session_setStatus. Qed.

Lemma finishes_setStatus (cfg : Config) (data : DatabaseStatusChange) :
  finishes (setStatus cfg data).
Proof. unfold setStatus, testConnection, database_queue_push. frame_apply. Qed.

(** ** Resolving the primary key: the cache and the failures *)

Lemma world_database_eta (w : World) : set_database (database w) w = w.
Proof. now destruct w. Qed.

Lemma getPrimaryKey_miss (table : string) (w : World) :
  cachedPrimaryKeys w !! table = None ->
  getPrimaryKey table w
  = if db_connected (database w) then
      match db_tables (database w) !! table with
      | Some t =>
          match primary_columns t with
          | key :: _ =>
              (Returned key, set_cachedPrimaryKeys (<[table := key]> (cachedPrimaryKeys w)) w)
          | [] =>
              (Thrown ("Table " +:+ quote +:+ table +:+ quote +:+ " does not have a primary key!"),
               w)
          end
      | None => (Thrown "could not query the statement!", w)
      end
    else (Thrown "MySQL is not connected", w).
Proof.
  intros Hmiss.
  unfold getPrimaryKey, bind, gets, query, bind, testConnection, gets, throw,
    sql_show_primary_columns.
  rewrite Hmiss. destruct (db_connected (database w)); simpl; [|reflexivity].
  destruct (db_tables (database w) !! table) as [t|]; simpl; [|reflexivity].
  destruct (primary_columns t); simpl; unfold modify, ret; simpl;
    now rewrite world_database_eta.
Qed.

(** X12. Once [getPrimaryKey] has returned a key for a table, the key is
    cached: in every later state whose cache still holds that entry the
    lookup returns the same key without a query and without changing the
    state, also while the database is unreachable or after the key of the
    table was changed on the server. This is for a table name other than
    [__proto__] and [hasOwnProperty], and for caches without a key
    [hasOwnProperty]. *)
Theorem getPrimaryKey_caches (table key : string) (w w1 later : World) :
  plain_key table ->
  plain_table (cachedPrimaryKeys w) ->
  plain_table (cachedPrimaryKeys later) ->
  getPrimaryKey table w = (Returned key, w1) ->
  cachedPrimaryKeys later !! table = cachedPrimaryKeys w1 !! table ->
  cachedPrimaryKeys w1 !! table = Some key
  /\ getPrimaryKey table later = (Returned key, later).
Proof.
  intros _ _ _ Hrun Hlater.
  assert (Hcached : cachedPrimaryKeys w1 !! table = Some key).
  { destruct (cachedPrimaryKeys w !! table) as [cached|] eqn:Hlookup.
    - unfold getPrimaryKey, bind, gets in Hrun. rewrite Hlookup in Hrun.
      injection Hrun as -> <-. exact Hlookup.
    - rewrite (getPrimaryKey_miss _ _ Hlookup) in Hrun.
      destruct (db_connected (database w)); [|discriminate].
      destruct (db_tables (database w) !! table) as [t|]; [|discriminate].
      destruct (primary_columns t) as [|first rest]; [discriminate|].
      injection Hrun as -> <-. simpl. apply lookup_insert_eq. }
  split; [exact Hcached|].
  unfold getPrimaryKey, bind, gets. now rewrite Hlater, Hcached.
Qed.

Lemma getPrimaryKey_caches_witness :
  getPrimaryKey "users"
    (set_database example_database_down (snd (getPrimaryKey "users" example_world)))
  = (Returned "id",
     set_database example_database_down (snd (getPrimaryKey "users" example_world))).
Proof.
  apply (getPrimaryKey_caches "users" "id" example_world
           (snd (getPrimaryKey "users" example_world))
           (set_database example_database_down (snd (getPrimaryKey "users" example_world)))
           ltac:(split; discriminate) eq_refl eq_refl eq_refl eq_refl).
Defined.


(** ** The feedback of the apply stage *)








(** ** Applying a change: the rows of the table *)













Section Upsert.
Context (pk i : string) (entity : SqlEntity).
Hypothesis entity_key : get_property pk entity = Some (JString i).
Hypothesis entity_fields : List.NoDup (map fst entity).







End Upsert.












(** ** Polling the change log *)




Section PollingProperties.
Context (oldest : list TableChangeRow -> option TableChangeRow).

Lemma nextChange_selects (w : World) (row : TableChangeRow) :
  db_connected (database w) = true ->
  oldest (table_changes (database w)) = Some row ->
  nextChange oldest w
  = (let* primaryKey := getPrimaryKey (table_name row) in
     let* entityResult :=
       query (sql_select_entity (table_name row) primaryKey (primary_key row)) in
     ret (Some {| local_table := table_name row; local_entity := head entityResult;
                  local_id := primary_key row |}))
      (set_database
         (set_table_changes
            (List.filter (fun r => negb (bool_decide (tc_id r = tc_id row)))
               (table_changes (database w)))
            (auto_increment (database w)) (database w)) w).
Proof.
  intros Hc Hrow. unfold nextChange. unfold bind at 1, testConnection, gets.
  rewrite Hc. cbn [negb].
  rewrite (bind_returned _ _ w (set_database (database w) w) [row])
    by (apply query_accepted; [exact Hc|]; unfold sql_next_table_change; now rewrite Hrow).
  cbv iota. unfold bind at 1.
  rewrite (query_accepted (sql_delete_table_change (tc_id row)) (set_database (database w) w)
             tt _ Hc eq_refl).
  reflexivity.
Qed.



(** X18. A logged change whose table has no resolvable primary key (the
    table was dropped, or has no primary key) is lost: the poll throws the
    failure of the key lookup after it has deleted the row from
    [table_changes], so nothing is emitted for the change and no later
    poll finds it. *)
Theorem tick_poll_loses_unresolved_change (cfg : Config) (w : World) (row : TableChangeRow) :
  db_connected (database w) = true ->
  oldest (table_changes (database w)) = Some row ->
  primary_key_of (table_name row) w = None ->
  let result := tick_poll oldest cfg w in
  fst result
  = Thrown match db_tables (database w) !! table_name row with
           | Some _ => "Table " +:+ quote +:+ table_name row +:+ quote
                       +:+ " does not have a primary key!"
           | None => "could not query the statement!"
           end
  /\ emitted w (snd result) = []
  /\ table_changes (database (snd result))
     = List.filter (fun r => negb (bool_decide (tc_id r = tc_id row)))
         (table_changes (database w)).
Proof.
  intros Hc Hrow Hpk. cbv zeta.
  assert (Heq : tick_poll oldest cfg w
                = (Thrown match db_tables (database w) !! table_name row with
                          | Some _ => "Table " +:+ quote +:+ table_name row +:+ quote
                                      +:+ " does not have a primary key!"
                          | None => "could not query the statement!"
                          end,
                   set_database
                     (set_table_changes
                        (List.filter (fun r => negb (bool_decide (tc_id r = tc_id row)))
                           (table_changes (database w)))
                        (auto_increment (database w)) (database w)) w)).
  { unfold tick_poll, bind at 1.
    rewrite (nextChange_selects w row Hc Hrow). unfold bind at 1.
    unfold primary_key_of in Hpk.
    destruct (cachedPrimaryKeys w !! table_name row) eqn:Hlookup; [discriminate|].
    rewrite getPrimaryKey_miss by exact Hlookup.
    cbn [database set_database]. rewrite set_table_changes_connected, Hc.
    cbn [set_table_changes db_tables].
    destruct (db_tables (database w) !! table_name row) as [t|]; simpl in Hpk; [|reflexivity].
    destruct (primary_columns t); [reflexivity|discriminate]. }
  rewrite Heq. simpl. repeat split. unfold emitted. simpl. apply drop_all.
Qed.

End PollingProperties.


Lemma tick_poll_loses_unresolved_change_witness :
  table_changes (database (snd (tick_poll head example_config example_dropped_world))) = [].
Proof.
  pose proof (tick_poll_loses_unresolved_change head example_config example_dropped_world
                {| tc_id := 1; table_name := "orders"; primary_key := "o1" |}
                eq_refl eq_refl eq_refl) as H.
  cbv zeta in H. destruct H as (_ & _ & H). exact H.
Defined.

(** ** Draining the database queue *)

Lemma status_round_trip (data : DatabaseStatusChange) :
  as_DatabaseStatusChange (Some (status_as_entity data)) = Some data.
Proof.
  destruct data as [sender table id date status message].
  destruct table, id, date, message, status; reflexivity.
Qed.

Lemma setStatus_connected (cfg : Config) (data : DatabaseStatusChange) (w : World) :
  db_connected (database w) = true ->
  exists (outcome : Outcome unit) (db : Database),
    forall w1 : World,
      database w1 = database w -> setStatus cfg data w1 = (outcome, set_database db w1).
Proof.
  intros Hc.
  exists (fst (setStatus cfg data w)), (database (snd (setStatus cfg data w))).
  intros w1 Hw1.
  unfold setStatus, bind, testConnection, gets, query, bind, testConnection, gets,
    sql_select_status_date, throw, ret.
  rewrite Hw1, Hc. cbn [negb database set_database]. rewrite Hw1, Hc. cbn [negb].
  destruct w1 as [c r d pk tc cc n rq mc p dq q e j]. simpl in Hw1. subst d.
  cbn [database set_database].
  destruct (sync_status (database w) !! _) as [stored|].
  - destruct (later_than cfg (ss_date stored) (status_date data)); [reflexivity|].
    repeat (progress cbn [database set_database negb] || rewrite Hc).
    destruct (sql_update_status _ _ _ _ (database w)) as [[[] db]|]; reflexivity.
  - repeat (progress cbn [database set_database negb] || rewrite Hc).
    destruct (sql_insert_status _ _ _ _ _ _ _ (database w)) as [[[] db]|]; reflexivity.
Qed.

(** The body of one round of [workQueue]. *)
Lemma workQueue_loop_item (cfg : Config) (rounds : nat) (w : World) (item : DatabaseChange)
    (rest : list DatabaseChange) :
  HardDiskQueue.readQueue (database_queue w) = item :: rest ->
  workQueue_loop cfg (S rounds) w
  = ((if bool_decide (change_table item = "sync_status") then
        match as_DatabaseStatusChange (change_entity item) with
        | Some data => setStatus cfg data
        | None => throw "TypeError"
        end
      else saveEntity cfg item);;;
     let* connected := gets (fun w => db_state (database w)) in
     if negb connected then ret tt else workQueue_loop cfg rounds)
      (set_database_queue (Some rest) w).
Proof.
  intros Hq. cbn [workQueue_loop]. unfold bind at 1, database_queue_poll, HardDiskQueue.poll.
  now rewrite Hq.
Qed.

Lemma workQueue_loop_empty (cfg : Config) (rounds : nat) (w : World) :
  HardDiskQueue.readQueue (database_queue w) = [] ->
  workQueue_loop cfg (S rounds) w = (Returned tt, set_database_queue (database_queue w) w).
Proof.
  intros Hq. cbn [workQueue_loop]. unfold bind at 1, database_queue_poll, HardDiskQueue.poll.
  now rewrite Hq.
Qed.

Lemma setStatus_keeps_queue (cfg : Config) (data : DatabaseStatusChange) (w : World) :
  db_connected (database (snd (setStatus cfg data w))) = true ->
  database_queue (snd (setStatus cfg data w)) = database_queue w.
Proof.
  intros Hc. pose proof (preserves_connection_setStatus cfg data w) as Hsame.
  unfold database_connected in Hsame. rewrite Hc in Hsame. symmetry in Hsame.
  destruct (setStatus_connected cfg data w Hsame) as (outcome & db & Hrun).
  now rewrite (Hrun w eq_refl).
Qed.

Lemma workQueue_loop_finishes (cfg : Config) (fuel : nat) :
  forall w : World,
    db_alive (database w) = true ->
    (length (HardDiskQueue.readQueue (database_queue w)) < fuel)%nat ->
    fst (workQueue_loop cfg fuel w) <> OutOfFuel.
Proof.
  induction fuel as [|rounds IH]; intros w Halive Hfuel; [lia|].
  destruct (HardDiskQueue.readQueue (database_queue w)) as [|item rest] eqn:Hq.
  - now rewrite (workQueue_loop_empty _ _ _ Hq).
  - rewrite (workQueue_loop_item _ _ _ _ _ Hq). simpl in Hfuel.
    set (w1 := set_database_queue (Some rest) w).
    set (dispatch := if bool_decide (change_table item = "sync_status") then _ else _).
    assert (Hfinishes : fst (dispatch w1) <> OutOfFuel).
    { subst dispatch. destruct (bool_decide _); [|apply finishes_saveEntity].
      destruct (as_DatabaseStatusChange _); [apply finishes_setStatus|discriminate]. }
    assert (Hsession : database_session (snd (dispatch w1)) = database_session w1).
    { subst dispatch. destruct (bool_decide _); [|apply preserves_session_saveEntity].
      destruct (as_DatabaseStatusChange _); [apply preserves_session_setStatus|reflexivity]. }
    assert (Hqueue : db_connected (database (snd (dispatch w1))) = true ->
                     database_queue (snd (dispatch w1)) = Some rest).
    { subst dispatch. destruct (bool_decide _).
      - destruct (as_DatabaseStatusChange _) as [data|]; [|reflexivity].
        intros Hc. now rewrite setStatus_keeps_queue.
      - intros _. now rewrite preserves_queue_saveEntity. }
    unfold database_session, db_session in Hsession. injection Hsession as Hstate Hprobe.
    change (database w1) with (database w) in Hprobe. rewrite Halive in Hprobe.
    unfold bind at 1. destruct (dispatch w1) as [[[]| |] w2]; simpl in *;
      [|discriminate|contradiction].
    unfold bind, gets. destruct (db_state (database w2)) eqn:Hlive; cbn [negb]; [|discriminate].
    apply IH; [exact Hprobe|]. rewrite Hqueue; [simpl; lia|].
    unfold db_connected. now rewrite Hlive, Hprobe.
Qed.

Lemma setStatus_down (cfg : Config) (data : DatabaseStatusChange) (w : World) :
  db_connected (database w) = false ->
  setStatus cfg data w
  = (Returned tt,
     set_database_queue
       (HardDiskQueue.push
          {| change_sender := EmptyString; change_table := "sync_status";
             change_id := Some EmptyString; change_date := Some (clock w (reads w));
             change_entity := Some (status_as_entity data) |}
          (database_queue w))
       (set_reads (S (reads w)) w)).
Proof.
  intros Hc. unfold setStatus, bind, testConnection, gets. rewrite Hc. reflexivity.
Qed.

(** While the driver reports the connection as live and the probe is not
    answered, a status at the head of the queue is put back by every
    round, and the drain does not end. *)
Lemma workQueue_loop_spins (cfg : Config) (fuel : nat) :
  forall (w : World) (item : DatabaseChange) (data : DatabaseStatusChange),
    db_state (database w) = true ->
    db_alive (database w) = false ->
    HardDiskQueue.readQueue (database_queue w) = [item] ->
    change_table item = "sync_status" ->
    as_DatabaseStatusChange (change_entity item) = Some data ->
    fst (workQueue_loop cfg fuel w) = OutOfFuel.
Proof.
  induction fuel as [|rounds IH]; intros w item data Hstate Hprobe Hq Htable Hdata;
    [reflexivity|].
  rewrite (workQueue_loop_item _ _ _ _ _ Hq).
  rewrite bool_decide_eq_true_2 by exact Htable. rewrite Hdata.
  unfold bind at 1. rewrite setStatus_down
    by (cbn [database set_database_queue]; unfold db_connected; now rewrite Hstate, Hprobe).
  unfold bind at 1, gets. cbn [database set_database_queue set_reads]. rewrite Hstate.
  cbn [negb].
  eapply IH with (data := data);
    [exact Hstate | exact Hprobe | reflexivity | reflexivity | apply status_round_trip].
Qed.

(** X19. [workQueue] ends on a server that answers the probe of
    [testConnection]: whatever the queue holds, the drain stops within as
    many rounds as the queue has items plus one, because an item is then
    only put back when the driver has no live connection, and that ends
    the drain. *)
Theorem workQueue_finishes (cfg : Config) (w : World) :
  db_alive (database w) = true -> fst (workQueue cfg w) <> OutOfFuel.
Proof.
  intros Halive. unfold workQueue, bind, gets. apply workQueue_loop_finishes; [exact Halive|lia].
Qed.

Lemma workQueue_finishes_witness :
  fst (workQueue example_config
         (set_database_queue
            (Some [{| change_sender := "nodeB"; change_table := "users";
                      change_id := Some "u1"; change_date := Some 3000;
                      change_entity := Some [("id", JString "u1")] |}])
            example_world))
  <> OutOfFuel.
Proof. apply workQueue_finishes. reflexivity. Defined.

(** X20. A status that arrives alone while the database is unreachable
    survives the outage: with the queue file empty before and nothing else
    written to it until the drain, [setStatus] puts the status into the
    durable queue, and once the database is back (the driver live and the
    probe answered) [workQueue] takes it from the queue and stores it
    exactly as [setStatus] stores it on a connected database, leaving the
    queue empty. *)
Theorem status_survives_outage (cfg : Config) (data : DatabaseStatusChange) (down up : World) :
  db_connected (database down) = false ->
  HardDiskQueue.readQueue (database_queue down) = [] ->
  db_connected (database up) = true ->
  database_queue up = database_queue (snd (setStatus cfg data down)) ->
  fst (setStatus cfg data down) = Returned tt
  /\ database (snd (setStatus cfg data down)) = database down
  /\ fst (workQueue cfg up) = fst (setStatus cfg data up)
  /\ database (snd (workQueue cfg up)) = database (snd (setStatus cfg data up))
  /\ HardDiskQueue.readQueue (database_queue (snd (workQueue cfg up))) = [].
Proof.
  intros Hdown Hempty Hup Hqueue.
  assert (Hqueued : setStatus cfg data down
                    = (Returned tt,
                       set_database_queue
                         (Some [{| change_sender := EmptyString; change_table := "sync_status";
                                   change_id := Some EmptyString;
                                   change_date := Some (clock down (reads down));
                                   change_entity := Some (status_as_entity data) |}])
                         (set_reads (S (reads down)) down))).
  { unfold setStatus, bind at 1, testConnection, gets. rewrite Hdown. cbn [negb].
    unfold bind, now, database_queue_push, modify, HardDiskQueue.push. simpl.
    now rewrite Hempty. }
  rewrite Hqueued in *. simpl in Hqueue. split; [reflexivity|]. split; [reflexivity|].
  destruct (setStatus_connected cfg data up Hup) as (outcome & db & Hrun).
  pose proof (preserves_session_setStatus cfg data up) as Hsame.
  rewrite (Hrun up eq_refl) in *. unfold database_session, db_session in Hsame.
  simpl in Hsame. injection Hsame as Hstate _.
  assert (Hlive : db_state (database up) = true)
    by (unfold db_connected in Hup; now apply andb_true_iff in Hup).
  assert (Hwork : workQueue cfg up
                  = match outcome with
                    | Returned _ => (Returned tt, set_database_queue (Some [])
                                                    (set_database db (set_database_queue (Some []) up)))
                    | other => (other, set_database db (set_database_queue (Some []) up))
                    end).
  { unfold workQueue, bind at 1, gets. rewrite Hqueue. cbn [HardDiskQueue.readQueue length].
    rewrite (workQueue_loop_item cfg 1 up _ [] ltac:(now rewrite Hqueue)).
    cbn [change_table change_entity]. rewrite bool_decide_eq_true_2 by reflexivity.
    rewrite status_round_trip. unfold bind at 1.
    rewrite (Hrun (set_database_queue (Some []) up) eq_refl).
    destruct outcome as [[]| |]; try reflexivity.
    unfold bind, gets. cbn [database set_database]. rewrite Hstate, Hlive. reflexivity. }
  rewrite Hwork. destruct outcome as [[]| |]; repeat split.
Qed.

Lemma status_survives_outage_witness :
  let data :=
    {| status_sender := "nodeB"; status_table := Some "users"; status_id := Some "u1";
       status_date := Some 3000; status_status := successful; status_message := None |} in
  sync_status
    (database
       (snd (workQueue example_config
               (set_database_queue
                  (database_queue (snd (setStatus example_config data example_world_down)))
                  example_world))))
  !! "users-u1-nodeB"
  = Some {| ss_table_name := "users"; ss_primary_key := "u1"; ss_remote := "nodeB";
            ss_date := 3000; ss_status := successful; ss_message := None |}.
Proof.
  pose proof (status_survives_outage example_config
                {| status_sender := "nodeB"; status_table := Some "users";
                   status_id := Some "u1"; status_date := Some 3000;
                   status_status := successful; status_message := None |}
                example_world_down
                (set_database_queue
                   (database_queue
                      (snd (setStatus example_config
                              {| status_sender := "nodeB"; status_table := Some "users";
                                 status_id := Some "u1"; status_date := Some 3000;
                                 status_status := successful; status_message := None |}
                              example_world_down)))
                   example_world)
                eq_refl eq_refl eq_refl eq_refl) as H.
  destruct H as (_ & _ & _ & H & _). cbv zeta. rewrite H. reflexivity.
Defined.

Lemma appends_preserves (kind : Event -> bool) {A : Type} (m : M A) :
  preserves events m -> appends kind m.
Proof. intros H w. exists []. rewrite H. now rewrite app_nil_r. Qed.

Lemma replayed_onLocalChange_loop (cfg : Config) (clients : list string) (table : string)
    (id : option string) (entity : option SqlEntity) (except : option string) :
  appends no_success_feedback (onLocalChange_loop cfg clients table id entity except).
Proof.
  induction clients as [|client rest IH]; simpl; auto with appends.
  apply appends_if; auto.
  apply appends_bind; auto with appends.
  intros transformed. apply appends_bind; auto.
  unfold emit_remote_send_change. auto with appends.
Qed.

Lemma replayed_saveEntity (cfg : Config) (data : DatabaseChange) :
  appends no_success_feedback (saveEntity cfg data).
Proof.
  assert (Hecho : appends no_success_feedback (saveEntity_echo cfg data)).
  { unfold saveEntity_echo, emit_local_change, onLocalChange.
    pose proof (replayed_onLocalChange_loop cfg (remoteClients cfg) (change_table data)
                  (change_id data) (change_entity data) (Some (change_sender data))).
    auto with appends. }
  unfold saveEntity, emit_local_save_failed.
  apply appends_bind; [apply appends_getPrimaryKey|].
  intros primaryKey. destruct (change_entity data) as [entity|]; auto 6 with appends.
Qed.

Lemma preserves_events_setStatus (cfg : Config) (data : DatabaseStatusChange) :
  preserves events (setStatus cfg data).
Proof. unfold setStatus, testConnection, database_queue_push. frame. Qed.

Lemma replayed_workQueue_loop (cfg : Config) (fuel : nat) :
  appends no_success_feedback (workQueue_loop cfg fuel).
Proof.
  induction fuel as [|rounds IH]; simpl.
  - intros w. exists []. simpl. now rewrite app_nil_r.
  - apply appends_bind.
    + apply appends_preserves. intros w. unfold database_queue_poll.
      now destruct (HardDiskQueue.poll (database_queue w)).
    + intros [item|]; [|apply appends_preserves, preserves_ret].
      apply appends_bind.
      * destruct (bool_decide _); [|apply replayed_saveEntity].
        destruct (as_DatabaseStatusChange _); [|apply appends_throw].
        apply appends_preserves, preserves_events_setStatus.
      * intros _. apply appends_bind; [apply appends_preserves, preserves_gets|].
        intros connected. destruct (negb connected); [|exact IH].
        apply appends_preserves, preserves_ret.
Qed.

Lemma no_success_among (later : list Event) :
  forallb no_success_feedback later = true -> List.filter is_local_save_successful later = [].
Proof.
  induction later as [|e later IH]; simpl; [reflexivity|].
  intros H. apply andb_true_iff in H. destruct H as [He Hl].
  unfold no_success_feedback in He. apply negb_true_iff in He. rewrite He. auto.
Qed.

(** X21. The drain of the database queue gives no success feedback:
    whatever the queue holds, [workQueue] emits no [local-save-successful],
    so the sender of a change that had to wait for the database is told
    that the change failed (when it was queued) and never that it was
    applied. *)
Theorem workQueue_gives_no_success_feedback (cfg : Config) (w : World) :
  exists later : list Event,
    events (snd (workQueue cfg w)) = events w ++ later
    /\ List.filter is_local_save_successful later = [].
Proof.
  assert (H : appends no_success_feedback (workQueue cfg)).
  { unfold workQueue. apply appends_bind; [apply appends_preserves, preserves_gets|].
    intros queue. apply replayed_workQueue_loop. }
  destruct (H w) as (later & Hevents & Hkind).
  exists later. split; [exact Hevents|]. now apply no_success_among.
Qed.



(** ** What a valid message carries *)

Lemma valid_property (loadTime : Z) (scheme : ObjectSchema) (fields : list (string * JSON))
    (key : string) (v : JSON) (p : PropertySchema) :
  validateJson loadTime (JObject fields) scheme = true ->
  get_property key fields = Some v ->
  schema_of key (properties scheme) = Some p ->
  validate_property loadTime p v = true.
Proof.
  intros Hvalid Hget Hschema.
  destruct (validate_property loadTime p v) eqn:Hp; [reflexivity|].
  now rewrite (validateJson_rejects _ _ _ _ _ _ Hget Hschema Hp) in Hvalid.
Qed.

Lemma valid_required (loadTime : Z) (scheme : ObjectSchema) (fields : list (string * JSON))
    (key : string) :
  validateJson loadTime (JObject fields) scheme = true ->
  In key (required scheme) ->
  exists v : JSON, get_property key fields = Some v.
Proof.
  intros Hvalid Hin. simpl in Hvalid. apply andb_true_iff in Hvalid.
  destruct Hvalid as [Hrequired _].
  pose proof (proj1 (forallb_forall _ _) Hrequired key Hin) as H.
  apply bool_decide_eq_true in H. destruct H as [v Hv]. now exists v.
Qed.

Lemma valid_clientName (loadTime : Z) (v : JSON) :
  validate_property loadTime (Ref def_clientName) v = true ->
  exists s : string, v = JString s /\ client_name_pattern s = true.
Proof.
  destruct v as [| | |s| |]; try discriminate. cbn. unfold validate_schema. cbn.
  rewrite !andb_true_r. intros H. now exists s.
Qed.

Lemma valid_tableName (loadTime : Z) (v : JSON) :
  validate_property loadTime (Ref def_tableName) v = true ->
  exists s : string, v = JString s /\ (1 <= String.length s <= 128)%nat.
Proof.
  destruct v as [| | |s| |]; try discriminate. cbn. unfold validate_schema. cbn.
  rewrite !andb_true_r. intros H. apply andb_true_iff in H. destruct H as [Hlo Hhi].
  exists s. split; [reflexivity|]. apply Nat.leb_le in Hhi.
  destruct (String.length s); [discriminate|lia].
Qed.

Lemma valid_nonEmptyString (loadTime : Z) (v : JSON) :
  validate_property loadTime (Ref def_nonEmptyString) v = true ->
  exists s : string, v = JString s /\ s <> EmptyString.
Proof.
  destruct v as [| | |s| |]; try discriminate. cbn. unfold validate_schema. cbn.
  rewrite !andb_true_r. intros H. exists s. split; [reflexivity|].
  intros ->. discriminate.
Qed.

Lemma valid_date (loadTime : Z) (v : JSON) :
  validate_property loadTime (Ref def_date) v = true ->
  exists n : Z, v = JNumber n /\ loadTime <= n.
Proof.
  destruct v as [| |n| | |]; try discriminate. cbn. unfold validate_schema. cbn.
  intros H. exists n. split; [reflexivity|]. now apply Z.leb_le.
Qed.

(** X23. A payload that passes the validation of the change schema has the
    shape [receivedMessage] assumes when it reads it as a [DatabaseChange]:
    it is an object whose [sender] is a string of the client-name pattern,
    whose [table] is a string of 1 to 128 characters and whose [entity] is
    an object or [null]; its [id], when present, is a non-empty string
    and its [date], when present, a number not below the load time of the
    schema. *)
Theorem valid_change_decodes (cfg : Config) (payload : JSON) :
  valid cfg payload remoteChangeScheme = true ->
  exists change : DatabaseChange,
    as_DatabaseChange payload = Some change
    /\ client_name_pattern (change_sender change) = true
    /\ (1 <= String.length (change_table change) <= 128)%nat
    /\ match change_id change with
       | Some id => id <> EmptyString
       | None => True
       end
    /\ match change_date change with
       | Some date => schemeLoadTime cfg <= date
       | None => True
       end.
Proof.
  unfold valid. destruct payload as [| | | | |fields]; try discriminate. intros Hvalid.
  destruct (valid_required _ _ _ "sender" Hvalid ltac:(simpl; tauto)) as (sender & Hsender).
  destruct (valid_required _ _ _ "table" Hvalid ltac:(simpl; tauto)) as (table & Htable).
  destruct (valid_required _ _ _ "entity" Hvalid ltac:(simpl; tauto)) as (entity & Hentity).
  destruct (valid_clientName _ _ (valid_property _ _ _ _ _ _ Hvalid Hsender eq_refl))
    as (s & -> & Hs).
  destruct (valid_tableName _ _ (valid_property _ _ _ _ _ _ Hvalid Htable eq_refl))
    as (t & -> & Ht).
  pose proof (valid_property _ _ _ _ _ _ Hvalid Hentity eq_refl) as He.
  assert (Hid : match get_property "id" fields with
                | Some v => exists i : string, v = JString i /\ i <> EmptyString
                | None => True
                end).
  { destruct (get_property "id" fields) as [v|] eqn:Hget; [|exact I].
    exact (valid_nonEmptyString _ _ (valid_property _ _ _ _ _ _ Hvalid Hget eq_refl)). }
  assert (Hdate : match get_property "date" fields with
                  | Some v => exists n : Z, v = JNumber n /\ schemeLoadTime cfg <= n
                  | None => True
                  end).
  { destruct (get_property "date" fields) as [v|] eqn:Hget; [|exact I].
    exact (valid_date _ _ (valid_property _ _ _ _ _ _ Hvalid Hget eq_refl)). }
  unfold as_DatabaseChange, string_property, number_property, entity_property.
  rewrite Hsender, Htable, Hentity.
  destruct entity as [| | | | |row]; try discriminate.
  - eexists. split; [reflexivity|]. simpl. split; [exact Hs|]. split; [exact Ht|]. split.
    + destruct (get_property "id" fields) as [v|]; [|exact I].
      now destruct Hid as (i & -> & Hi).
    + destruct (get_property "date" fields) as [v|]; [|exact I].
      now destruct Hdate as (n & -> & Hn).
  - eexists. split; [reflexivity|]. simpl. split; [exact Hs|]. split; [exact Ht|]. split.
    + destruct (get_property "id" fields) as [v|]; [|exact I].
      now destruct Hid as (i & -> & Hi).
    + destruct (get_property "date" fields) as [v|]; [|exact I].
      now destruct Hdate as (n & -> & Hn).
Qed.

Lemma valid_change_decodes_witness :
  exists change : DatabaseChange,
    as_DatabaseChange
      (JObject [("sender", JString "nodeB"); ("table", JString "users"); ("id", JString "u1");
                ("date", JNumber 3000); ("entity", JNull)])
    = Some change
    /\ change_id change = Some "u1".
Proof.
  destruct (valid_change_decodes example_config
              (JObject [("sender", JString "nodeB"); ("table", JString "users");
                        ("id", JString "u1"); ("date", JNumber 3000); ("entity", JNull)])
              eq_refl) as (change & Hchange & _).
  exists change. split; [exact Hchange|]. simpl in Hchange. now injection Hchange as <-.
Defined.

(** ** From one node to the other *)






(** ** Inbound messages *)

Lemma pattern_nonempty (s : string) : client_name_pattern s = true -> s <> EmptyString.
Proof. intros H ->. discriminate. Qed.

Lemma receivedMessage_info (cfg : Config) (topic : string) (payload : JSON)
    (infoMessage : InfoMessage) :
  topic = "/info" \/ topic = "/info/" +:+ clientName cfg ->
  valid cfg payload infoMessageScheme = true ->
  as_InfoMessage payload = Some infoMessage ->
  message_sender infoMessage <> clientName cfg ->
  receivedMessage cfg topic payload = receivedInfoMessage cfg infoMessage.
Proof.
  intros Htopic Hvalid Hmessage Hsender. unfold receivedMessage.
  destruct (change_prefix_info (clientName cfg)) as [Hp1 Hp2].
  assert (Hprefix : String.prefix ("/change/" +:+ clientName cfg) topic = false)
    by (destruct Htopic as [-> | ->]; assumption).
  assert (Hinfo : bool_decide (topic = "/info")
                  || bool_decide (topic = "/info/" +:+ clientName cfg) = true).
  { apply orb_true_iff. destruct Htopic; [left|right]; now apply bool_decide_eq_true. }
  rewrite Hprefix, Hinfo, Hvalid, Hmessage. cbn [negb].
  now rewrite bool_decide_eq_false_2.
Qed.

Lemma connected_message_valid (cfg peer : Config) (until : Z) :
  client_name_pattern (clientName peer) = true ->
  valid cfg (connected_message peer until) infoMessageScheme = true.
Proof.
  intros Hpeer. unfold valid, connected_message. simpl. unfold validate_schema. simpl.
  now rewrite Hpeer.
Qed.

Lemma feedback_message_valid (cfg : Config) (sender message : string)
    (args : list (string * JSON)) :
  client_name_pattern sender = true ->
  In message ["connected"; "data_received"; "error"; "connection_lost"] ->
  valid cfg (JObject [("message", JString message); ("sender", JString sender);
                      ("args", JObject args)]) infoMessageScheme = true.
Proof.
  intros Hsender Hmessage. unfold valid. simpl. unfold validate_schema. simpl.
  rewrite Hsender. simpl in Hmessage.
  destruct Hmessage as [<-|[<-|[<-|[<-|[]]]]]; reflexivity.
Qed.



(** X26. The last will of a peer makes the node forget it: on the
    [connection_lost] message of another node, [receivedMessage] deletes
    the peer from the connected clients and changes nothing else, so that
    the next message published for the peer is not sent but appended to
    the peer's durable queue. This is for a peer named otherwise than
    [__proto__] and [hasOwnProperty], on a node where neither the
    connected clients nor the queues of the peers have a key
    [hasOwnProperty]. *)
Theorem connection_lost_forgets_peer (cfg peer : Config) (topic : string) (payload : JSON)
    (w : World) :
  client_name_pattern (clientName peer) = true ->
  clientName peer <> clientName cfg ->
  plain_key (clientName peer) ->
  plain_table (connectedClients w) ->
  plain_keys (remoteClientQueues w) ->
  let lost := receivedMessage cfg "/info" (connection_lost_message peer) w in
  let sent := publish topic payload (Some (clientName peer)) (snd lost) in
  lost = (Returned tt,
          set_connectedClients (base.delete (clientName peer) (connectedClients w)) w)
  /\ fst sent = Returned tt
  /\ published (snd sent) = published w
  /\ remote_queue (clientName peer) (snd sent)
     = remote_queue (clientName peer) w ++ [{| item_topic := topic; item_payload := payload |}].
Proof.
  intros Hpeer Hother _ _ _. cbv zeta.
  assert (Hlost : receivedMessage cfg "/info" (connection_lost_message peer) w
                  = (Returned tt,
                     set_connectedClients (base.delete (clientName peer) (connectedClients w)) w)).
  { rewrite (receivedMessage_info cfg "/info" (connection_lost_message peer)
               {| message_sender := clientName peer; message_message := "connection_lost";
                  message_args := [] |}); trivial.
    - now left.
    - apply feedback_message_valid; [exact Hpeer|simpl; tauto]. }
  rewrite Hlost. split; [reflexivity|]. cbn [snd].
  destruct (publish_run topic payload (clientName peer)
              (set_connectedClients (base.delete (clientName peer) (connectedClients w)) w)
              (pattern_nonempty _ Hpeer)) as (w1 & Hrun & _ & Hbus).
  rewrite Hrun. cbn [fst snd]. split; [reflexivity|].
  unfold peer_connected in Hbus. cbn [connectedClients set_connectedClients] in Hbus.
  rewrite lookup_delete_eq in Hbus. destruct Hbus as [Hp Hq].
  split; [exact Hp|]. unfold remote_queue at 1. rewrite Hq. now rewrite lookup_insert_eq.
Qed.

Lemma connection_lost_forgets_peer_witness :
  remote_queue "nodeB"
    (snd (publish "/change/nodeB" JNull (Some "nodeB")
            (snd (receivedMessage example_config "/info" (connection_lost_message example_peer)
                    (set_connectedClients {[ "nodeB" := 9000 ]} example_world)))))
  = [{| item_topic := "/change/nodeB"; item_payload := JNull |}].
Proof.
  pose proof (connection_lost_forgets_peer example_config example_peer "/change/nodeB" JNull
                (set_connectedClients {[ "nodeB" := 9000 ]} example_world)
                eq_refl ltac:(discriminate) ltac:(split; discriminate) eq_refl
                ltac:(apply not_elem_of_empty)) as H.
  cbv zeta in H. destruct H as (_ & _ & _ & H). exact H.
Defined.

(** ** Draining the queue of a peer *)

Lemma remote_queue_poll_item (client : string) (item : QueueItem) (rest : list QueueItem)
    (w : World) :
  remote_queue client w = item :: rest ->
  remote_queue_poll (remote_queue_name client) w
  = (Returned (Some item),
     set_remote_queues (<[remote_queue_name client := rest]> (remote_queues w)) w).
Proof.
  unfold remote_queue, remote_queue_poll, HardDiskQueue.poll. intros ->. reflexivity.
Qed.

Lemma remote_queue_poll_empty (client : string) (w : World) :
  remote_queue client w = [] ->
  exists w1 : World,
    remote_queue_poll (remote_queue_name client) w = (Returned None, w1)
    /\ remote_queue client w1 = []
    /\ published w1 = published w
    /\ connectedClients w1 = connectedClients w.
Proof.
  unfold remote_queue, remote_queue_poll, HardDiskQueue.poll. intros Hq. rewrite Hq.
  eexists. split; [reflexivity|]. split; [|split; reflexivity].
  unfold remote_queue. simpl.
  destruct (remote_queues w !! remote_queue_name client) as [queue|] eqn:Hfile; simpl.
  - rewrite lookup_insert_eq. exact Hq.
  - now rewrite lookup_delete_eq.
Qed.

Lemma workRemoteClientQueue_loop_drains (client : string) (until : Z) (queue : list QueueItem) :
  client <> EmptyString ->
  forall (fuel : nat) (w : World),
    remote_queue client w = queue ->
    connectedClients w !! client = Some until ->
    (forall n : nat, (reads w <= n < reads w + 2 * length queue)%nat -> clock w n < until) ->
    (length queue < fuel)%nat ->
    exists w1 : World,
      workRemoteClientQueue_loop fuel client w = (Returned tt, w1)
      /\ published w1
         = published w ++ map (fun item => (item_topic item, item_payload item)) queue
      /\ remote_queue client w1 = []
      /\ connectedClients w1 = connectedClients w.
Proof.
  intros Hclient. induction queue as [|item rest IH]; intros fuel w Hq Hpresent Hclock Hfuel;
    (destruct fuel as [|rounds]; [simpl in Hfuel; lia|]); cbn [workRemoteClientQueue_loop].
  - destruct (remote_queue_poll_empty client w Hq) as (w1 & Hpoll & Hq1 & Hp1 & Hc1).
    rewrite (bind_returned _ _ _ _ _ Hpoll). exists w1.
    split; [reflexivity|]. split; [now rewrite Hp1, app_nil_r|]. split; assumption.
  - rewrite (bind_returned _ _ _ _ _ (remote_queue_poll_item client item rest w Hq)).
    set (w1 := set_remote_queues (<[remote_queue_name client := rest]> (remote_queues w)) w).
    assert (Hnow : clock w (reads w) < until) by (apply Hclock; simpl; lia).
    assert (Hnext : clock w (S (reads w)) < until) by (apply Hclock; simpl; lia).
    set (w2 := set_published (published w ++ [(item_topic item, item_payload item)])
                 (set_reads (S (reads w)) w1)).
    assert (Hpublish : publish (item_topic item) (item_payload item) (Some client) w1
                       = (Returned tt, w2)).
    { unfold publish. rewrite (truthy_nonempty _ Hclient).
      unfold bind at 1. rewrite isClientConnected_decides.
      unfold peer_connected. cbn [connectedClients set_remote_queues w1 clock reads].
      rewrite Hpresent. apply Z.ltb_lt in Hnow. rewrite Hnow. reflexivity. }
    rewrite (bind_returned _ _ _ _ _ Hpublish).
    unfold bind at 1. rewrite isClientConnected_decides.
    unfold peer_connected.
    cbn [connectedClients set_remote_queues set_published set_reads w1 w2 clock reads].
    rewrite Hpresent. apply Z.ltb_lt in Hnext. rewrite Hnext. cbn [negb].
    match goal with
    | |- context [workRemoteClientQueue_loop rounds client ?w3] =>
        destruct (IH rounds w3) as (w4 & Hrun & Hp4 & Hq4 & Hc4)
    end.
    + unfold remote_queue. simpl. now rewrite lookup_insert_eq.
    + exact Hpresent.
    + intros n Hn. apply Hclock. simpl in *. lia.
    + simpl in Hfuel. lia.
    + exists w4. split; [exact Hrun|]. split; [|split; assumption].
      rewrite Hp4. simpl. now rewrite <- app_assoc.
Qed.

(** X27. A [connected] message of a peer whose [until] lies beyond the
    readings of the clock during the drain (two per waiting message)
    records the presence of the peer until that instant and sends what
    waits for the peer: every message of the peer's durable queue is
    published, in the order of the queue, and the queue is left empty.
    This is for a peer named otherwise than [__proto__] and
    [hasOwnProperty], on a node where neither the connected clients nor
    the queues of the peers have a key [hasOwnProperty]. *)
Theorem connected_message_drains_queue (cfg peer : Config) (until : Z) (w : World) :
  client_name_pattern (clientName peer) = true ->
  clientName peer <> clientName cfg ->
  plain_key (clientName peer) ->
  plain_table (connectedClients w) ->
  plain_keys (remoteClientQueues w) ->
  schemeLoadTime cfg <= until ->
  (forall n : nat,
      (reads w <= n < reads w + 2 * length (remote_queue (clientName peer) w))%nat ->
      clock w n < until) ->
  let result := receivedMessage cfg "/info" (connected_message peer until) w in
  fst result = Returned tt
  /\ connectedClients (snd result) = <[clientName peer := until]> (connectedClients w)
  /\ published (snd result)
     = published w
       ++ map (fun item => (item_topic item, item_payload item))
            (remote_queue (clientName peer) w)
  /\ remote_queue (clientName peer) (snd result) = [].
Proof.
  intros Hpeer Hother _ _ _ Huntil Hclock. cbv zeta.
  set (w1 := set_remoteClientQueues ({[clientName peer]} ∪ remoteClientQueues w)
               (set_connectedClients (<[clientName peer := until]> (connectedClients w)) w)).
  destruct (workRemoteClientQueue_loop_drains (clientName peer) until
              (remote_queue (clientName peer) w) (pattern_nonempty _ Hpeer)
              (S (length (remote_queue (clientName peer) w))) w1 eq_refl
              ltac:(apply lookup_insert_eq) Hclock ltac:(lia))
    as (w2 & Hrun & Hp & Hq & Hc).
  assert (Heq : receivedMessage cfg "/info" (connected_message peer until) w = (Returned tt, w2)).
  { rewrite (receivedMessage_info cfg "/info" (connected_message peer until)
               {| message_sender := clientName peer; message_message := "connected";
                  message_args := [("until", JNumber until)] |}); trivial.
    - unfold receivedInfoMessage. cbn [message_message message_args message_sender].
      rewrite bool_decide_eq_true_2 by reflexivity.
      assert (Hargs : valid cfg (JObject [("until", JNumber until)])
                        connectedInfoMessageArgsScheme = true).
      { unfold valid. simpl. unfold validate_schema. simpl.
        apply Z.leb_le in Huntil. now rewrite Huntil. }
      rewrite Hargs. cbn [negb].
      unfold bind at 1, modify. unfold workRemoteClientQueue.
      unfold bind at 1, ensure_remote_queue, modify. unfold bind at 1, gets.
      exact Hrun.
    - now left.
    - now apply connected_message_valid. }
  rewrite Heq. cbn [fst snd]. split; [reflexivity|]. split; [exact Hc|]. split; assumption.
Qed.

Lemma connected_message_drains_queue_witness :
  published (snd (receivedMessage example_config "/info" (connected_message example_peer 9000)
                    example_queued_world))
  = [("/change/nodeB", JString "first"); ("/change/nodeB", JString "second")].
Proof.
  assert (Hclock : forall n : nat,
             (reads example_queued_world <= n
              < reads example_queued_world
                + 2 * length (remote_queue "nodeB" example_queued_world))%nat ->
             clock example_queued_world n < 9000).
  { intros n Hn.
    change (length (remote_queue "nodeB" example_queued_world)) with 2%nat in Hn.
    simpl in *. lia. }
  pose proof (connected_message_drains_queue example_config example_peer 9000
                example_queued_world eq_refl ltac:(discriminate) ltac:(split; discriminate)
                eq_refl ltac:(apply not_elem_of_empty) ltac:(simpl; lia) Hclock) as H.
  cbv zeta in H. destruct H as (_ & _ & H & _). exact H.
Defined.



(** ** The feedback, back at the origin of a change *)



(** X30. The feedback for a change without id or without date never
    reaches the origin's status table: the [data_received] message
    [dataReceived] builds for it lacks the [id] or the [date] the schema
    of its arguments requires, so whatever the topic and the state, the
    node that receives it drops it without any effect. *)
Theorem feedback_without_id_or_date_is_dropped (cfg peer : Config) (topic : string)
    (info : DatabaseChangeInfo) (w : World) :
  info_id info = None \/ info_date info = None ->
  receivedMessage cfg topic (data_received_message peer info) w = (Returned tt, w).
Proof.
  intros Hmissing.
  assert (Hargs : valid cfg (JObject (field "table" (Some (JString (info_table info)))
                                      ++ field "id" (jstring (info_id info))
                                      ++ field "date" (jnumber (info_date info))))
                    dataReceivedInfoMessageArgsScheme = false).
  { unfold valid. destruct Hmissing as [Hmissing|Hmissing]; rewrite Hmissing.
    - destruct (info_date info); reflexivity.
    - destruct (info_id info); reflexivity. }
  unfold receivedMessage.
  destruct (String.prefix _ topic); [reflexivity|].
  destruct (_ || _); [|reflexivity].
  destruct (valid cfg (data_received_message peer info) infoMessageScheme);
    [cbn [negb]|reflexivity].
  change (as_InfoMessage (data_received_message peer info))
    with (Some {| message_sender := clientName peer; message_message := "data_received";
                  message_args := field "table" (Some (JString (info_table info)))
                                  ++ field "id" (jstring (info_id info))
                                  ++ field "date" (jnumber (info_date info)) |}).
  cbn [message_sender]. destruct (bool_decide (clientName peer = clientName cfg)); [reflexivity|].
  unfold receivedInfoMessage. cbn [message_message message_args message_sender].
  rewrite bool_decide_eq_false_2 by discriminate.
  rewrite bool_decide_eq_true_2 by reflexivity.
  now rewrite Hargs.
Qed.

Lemma feedback_without_id_or_date_is_dropped_witness :
  receivedMessage example_config "/info/nodeA"
    (data_received_message example_peer
       {| info_sender := "nodeA"; info_table := "users"; info_id := None;
          info_date := None |})
    example_world
  = (Returned tt, example_world).
Proof.
  apply (feedback_without_id_or_date_is_dropped example_config example_peer "/info/nodeA"
           {| info_sender := "nodeA"; info_table := "users"; info_id := None;
              info_date := None |}
           example_world (or_introl eq_refl)).
Defined.
